(** * greedypacker: the guillotine packing engine

    A shallow embedding of [greedypacker/guillotine.py] and the properties
    its specification states about it.

    Python integers are unbounded: they are [Z].  A Python list is a Rocq
    list, [list.remove] removes the first equal element and raises
    [ValueError] when there is none.  Item objects are mutable and shared
    by reference between the caller and the engine's [items] list: they
    live in a heap addressed by references, and the engine stores
    references.  Exceptions are the [Raise] outcome of a small error
    monad. *)

From Stdlib Require Import ZArith List String Bool Lia SpecFloat.
From Stdlib Require Import Permutation Sorted.
Import ListNotations.
Open Scope string_scope.
Open Scope Z_scope.

(** ** Exceptions and results *)

Inductive exn : Type :=
| ValueError
| UnboundLocalError
| ZeroDivisionError
| OverflowError.

Inductive result (A : Type) : Type :=
| Ok (a : A)
| Raise (e : exn).

Arguments Ok {A} a.
Arguments Raise {A} e.

Definition bind {A B : Type} (m : result A) (k : A -> result B) : result B :=
  match m with
  | Ok a => k a
  | Raise e => Raise e
  end.

Notation "x <- m ;; k" := (bind m (fun x => k))
  (at level 61, m at next level, right associativity).

(** Python truthiness of a list. *)
Definition nonempty {A : Type} (l : list A) : bool :=
  match l with
  | [] => false
  | _ :: _ => true
  end.

(** ** FreeRectangle: a named tuple (width, height, x, y) *)

Module FreeRectangle.

Record t : Type := mk { width : Z; height : Z; x : Z; y : Z }.

Definition area (r : t) : Z := width r * height r.

(** Tuple equality [==]. *)
Definition eqb (a b : t) : bool :=
  (width a =? width b) && (height a =? height b)
  && (x a =? x b) && (y a =? y b).

(** Tuple order [<]: lexicographic on (width, height, x, y). *)
Definition ltb (a b : t) : bool :=
  if width a =? width b then
    if height a =? height b then
      if x a =? x b then y a <? y b
      else x a <? x b
    else height a <? height b
  else width a <? width b.

(** The builtin [min(A, B)]: the second argument only when it is
    strictly smaller. *)
Definition min (a b : t) : t := if ltb b a then b else a.

End FreeRectangle.

Abbreviation FreeRect := FreeRectangle.t.

(** [list.remove(v)] *)
Fixpoint list_remove (v : FreeRect) (l : list FreeRect) : result (list FreeRect) :=
  match l with
  | [] => Raise ValueError
  | r :: l' =>
      if FreeRectangle.eqb r v then Ok l'
      else (l'' <- list_remove v l' ;; Ok (r :: l''))
  end.

(** ** Item *)

Module Item.

(** Modelled from the spec: the class [Item] of [greedypacker/item.py],
    which the engine imports.  A mutable rectangle descriptor with a
    width, a height, a placement that is unset until the item is placed,
    and a rotation flag; rotating swaps width and height and flips the
    flag. *)
Record t : Type := mk {
  width : Z;
  height : Z;
  CornerPoint : option (Z * Z);
  rotated : bool
}.

Definition rotate (it : t) : t :=
  {| width := height it;
     height := width it;
     CornerPoint := CornerPoint it;
     rotated := negb (rotated it) |}.

Definition set_CornerPoint (it : t) (p : Z * Z) : t :=
  {| width := width it;
     height := height it;
     CornerPoint := Some p;
     rotated := rotated it |}.

(** A new, unplaced item. *)
Definition new (w h : Z) : t :=
  {| width := w; height := h; CornerPoint := None; rotated := false |}.

End Item.

(** ** The heap of item objects *)

Definition ref : Type := nat.
Definition Heap : Type := ref -> Item.t.

Definition upd (h : Heap) (r : ref) (v : Item.t) : Heap :=
  fun r' => if Nat.eqb r' r then v else h r'.

(** ** The engine *)

Record Guillotine : Type := mkGuillotine {
  x : Z;
  y : Z;
  rMerge : bool;
  split_heuristic : string;
  freerects : list FreeRect;
  items : list ref;
  rotation : bool
}.

Definition set_freerects (self : Guillotine) (l : list FreeRect) : Guillotine :=
  {| x := x self; y := y self; rMerge := rMerge self;
     split_heuristic := split_heuristic self;
     freerects := l; items := items self; rotation := rotation self |}.

Definition set_items (self : Guillotine) (l : list ref) : Guillotine :=
  {| x := x self; y := y self; rMerge := rMerge self;
     split_heuristic := split_heuristic self;
     freerects := freerects self; items := l; rotation := rotation self |}.

(** [Guillotine.__init__] *)
Definition __init__ (x y : Z) (rotation rectangle_merge : bool)
    (split_heuristic : string) : Guillotine :=
  {| x := x; y := y; rMerge := rectangle_merge;
     split_heuristic := split_heuristic;
     freerects := if (x =? 0) || (y =? 0) then []
                  else [FreeRectangle.mk x y 0 0];
     items := [];
     rotation := rotation |}.

(** [Guillotine._fitted_rects] *)
Definition _fitted_rects (self : Guillotine) (item : Item.t) (rotation : bool)
    : list FreeRect :=
  let width := if negb rotation then Item.width item else Item.height item in
  let height := if negb rotation then Item.height item else Item.width item in
  filter (fun rect => (FreeRectangle.width rect >=? width)
                      && (FreeRectangle.height rect >=? height))
         (freerects self).

(** [Guillotine._split_along_axis] *)
Definition _split_along_axis (freeRect : FreeRect) (item : Item.t) (split : bool)
    : list FreeRect :=
  let top_x := FreeRectangle.x freeRect in
  let top_y := FreeRectangle.y freeRect + Item.height item in
  let top_h := FreeRectangle.height freeRect - Item.height item in
  let right_x := FreeRectangle.x freeRect + Item.width item in
  let right_y := FreeRectangle.y freeRect in
  let right_w := FreeRectangle.width freeRect - Item.width item in
  let top_w := if split then FreeRectangle.width freeRect else Item.width item in
  let right_h := if split then Item.height item else FreeRectangle.height freeRect in
  let result := [] in
  let result :=
    if (right_w >? 0) && (right_h >? 0)
    then (result ++ [FreeRectangle.mk right_w right_h right_x right_y])%list
    else result in
  let result :=
    if (top_w >? 0) && (top_h >? 0)
    then (result ++ [FreeRectangle.mk top_w top_h top_x top_y])%list
    else result in
  result.

(** The split axis chosen by [_split_free_rect] ([true] = horizontal). *)
Definition split_axis (split_heuristic : string) (item : Item.t)
    (freeRect : FreeRect) : bool :=
  let w := FreeRectangle.width freeRect - Item.width item in
  let h := FreeRectangle.height freeRect - Item.height item in
  if String.eqb split_heuristic "SplitShorterLeftoverAxis" then w <=? h
  else if String.eqb split_heuristic "SplitLongerLeftoverAxis" then w >? h
  else if String.eqb split_heuristic "SplitMinimizeArea"
       then Item.width item * h >? w * Item.height item
  else if String.eqb split_heuristic "SplitMaximizeArea"
       then Item.width item * h <=? w * Item.height item
  else if String.eqb split_heuristic "SplitShorterAxis"
       then FreeRectangle.width freeRect <=? FreeRectangle.height freeRect
  else if String.eqb split_heuristic "SplitLongerAxis"
       then FreeRectangle.width freeRect >? FreeRectangle.height freeRect
  else true.

(** [Guillotine._split_free_rect] *)
Definition _split_free_rect (self : Guillotine) (item : Item.t)
    (freeRect : FreeRect) : list FreeRect :=
  _split_along_axis freeRect item
    (split_axis (split_heuristic self) item freeRect).

(** [Guillotine._rectangle_reduce]: [compare] is bound only for the three
    field names; [reduce] folds it from the left over a non-empty list. *)
Definition _rectangle_reduce (fitted_rects : list FreeRect)
    (op : Z -> Z -> bool) (field : string) : result (option FreeRect) :=
  match fitted_rects with
  | [] => Ok None
  | first :: rest =>
      let by_key (key : FreeRect -> Z) :=
        Ok (Some (fold_left
                    (fun a b => if op (key a) (key b) then a else b)
                    rest first)) in
      if String.eqb field "width" then by_key FreeRectangle.width
      else if String.eqb field "height" then by_key FreeRectangle.height
      else if String.eqb field "area" then by_key FreeRectangle.area
      else Raise UnboundLocalError
  end.

(** [Guillotine._compare_two_freerects] *)
Definition _compare_two_freerects (A B : option FreeRect) : option FreeRect :=
  match A, B with
  | None, None => None
  | Some a, Some b => Some (FreeRectangle.min a b)
  | Some a, None => Some a
  | None, _ => B
  end.

(** [==] between two values that are a FreeRectangle or [None]. *)
Definition opt_eqb (A B : option FreeRect) : bool :=
  match A, B with
  | None, None => true
  | Some a, Some b => FreeRectangle.eqb a b
  | _, _ => false
  end.

(** The common tail of [first_fit] and [_generic_algo]: place the item in
    the chosen free rectangle and split the rectangle. *)
Definition place (self : Guillotine) (h : Heap) (item : ref) (freerect : FreeRect)
    : result (Guillotine * Heap * bool) :=
  let h := upd h item
             (Item.set_CornerPoint (h item)
                (FreeRectangle.x freerect, FreeRectangle.y freerect)) in
  let self := set_items self (items self ++ [item])%list in
  l <- list_remove freerect (freerects self) ;;
  let self := set_freerects self l in
  let splits := _split_free_rect self (h item) freerect in
  let self := set_freerects self (freerects self ++ splits)%list in
  Ok (self, h, true).

(** [Guillotine.first_fit] *)
Definition first_fit (self : Guillotine) (h : Heap) (item : ref)
    : result (Guillotine * Heap * bool) :=
  let fitted_rects := _fitted_rects self (h item) false in
  let '(fitted_rects, h) :=
    if negb (nonempty fitted_rects) && rotation self then
      let fitted_rects := _fitted_rects self (h item) true in
      (fitted_rects,
       if nonempty fitted_rects then upd h item (Item.rotate (h item)) else h)
    else (fitted_rects, h) in
  match fitted_rects with
  | freerect :: _ => place self h item freerect
  | [] => Ok (self, h, false)
  end.

(** [Guillotine._generic_algo] *)
Definition _generic_algo (self : Guillotine) (h : Heap) (item : ref)
    (heuristic : string) (op : Z -> Z -> bool) (split_heuristic : string)
    : result (Guillotine * Heap * bool) :=
  smallest_rect <-
    _rectangle_reduce (_fitted_rects self (h item) false) op heuristic ;;
  bh <- (if rotation self then
           let fitted_rects_rot := _fitted_rects self (h item) true in
           smallest_rotated <- _rectangle_reduce fitted_rects_rot op heuristic ;;
           let best := _compare_two_freerects smallest_rect smallest_rotated in
           Ok (best,
               if opt_eqb best smallest_rotated
               then upd h item (Item.rotate (h item)) else h)
         else Ok (smallest_rect, h)) ;;
  let '(best, h) := bh in
  match best with
  | Some best => place self h item best
  | None => Ok (self, h, false)
  end.

(** ** The merge pass *)

(** The list comprehensions and filters of [rectangle_merge]. *)
Definition matching_widths (freerect : FreeRect) (l : list FreeRect) : list FreeRect :=
  filter (fun r => (FreeRectangle.width r =? FreeRectangle.width freerect)
                   && (FreeRectangle.x r =? FreeRectangle.x freerect)
                   && negb (FreeRectangle.eqb r freerect)) l.

Definition matching_heights (freerect : FreeRect) (l : list FreeRect) : list FreeRect :=
  filter (fun r => (FreeRectangle.height r =? FreeRectangle.height freerect)
                   && (FreeRectangle.y r =? FreeRectangle.y freerect)
                   && negb (FreeRectangle.eqb r freerect)) l.

Definition widths_adjacent (freerect : FreeRect) (l : list FreeRect) : list FreeRect :=
  filter (fun r => FreeRectangle.y r
                   =? FreeRectangle.y freerect + FreeRectangle.height freerect) l.

Definition heights_adjacent (freerect : FreeRect) (l : list FreeRect) : list FreeRect :=
  filter (fun r => FreeRectangle.x r
                   =? FreeRectangle.x freerect + FreeRectangle.width freerect) l.

Definition merged_taller (freerect match_rect : FreeRect) : FreeRect :=
  FreeRectangle.mk (FreeRectangle.width freerect)
                   (FreeRectangle.height freerect + FreeRectangle.height match_rect)
                   (FreeRectangle.x freerect)
                   (FreeRectangle.y freerect).

Definition merged_wider (freerect match_rect : FreeRect) : FreeRect :=
  FreeRectangle.mk (FreeRectangle.width freerect + FreeRectangle.width match_rect)
                   (FreeRectangle.height freerect)
                   (FreeRectangle.x freerect)
                   (FreeRectangle.y freerect).

(** [remove(freerect); remove(match_rect); append(merged_rect)] *)
Definition replace_pair (freerect match_rect merged_rect : FreeRect)
    (l : list FreeRect) : result (list FreeRect) :=
  l1 <- list_remove freerect l ;;
  l2 <- list_remove match_rect l1 ;;
  Ok (l2 ++ [merged_rect])%list.

(** The first [if] of the loop body; [mw] is [matching_widths], computed
    at the top of the body. *)
Definition merge_widths (freerect : FreeRect) (mw l : list FreeRect)
    : result (list FreeRect) :=
  if nonempty mw then
    match widths_adjacent freerect l with
    | match_rect :: _ =>
        replace_pair freerect match_rect (merged_taller freerect match_rect) l
    | [] => Ok l
    end
  else Ok l.

(** The second [if] of the loop body; [mh] is [matching_heights], computed
    at the top of the body, before the first [if] ran. *)
Definition merge_heights (freerect : FreeRect) (mh l : list FreeRect)
    : result (list FreeRect) :=
  if nonempty mh then
    match heights_adjacent freerect l with
    | match_rect :: _ =>
        replace_pair freerect match_rect (merged_wider freerect match_rect) l
    | [] => Ok l
    end
  else Ok l.

(** One iteration of [for freerect in self.freerects]. *)
Definition merge_body (freerect : FreeRect) (l : list FreeRect)
    : result (list FreeRect) :=
  let mw := matching_widths freerect l in
  let mh := matching_heights freerect l in
  l1 <- merge_widths freerect mw l ;;
  merge_heights freerect mh l1.

(** The [for] loop runs over the list it mutates: the iterator holds an
    index [i], yields the element at [i] of the list as it is then, and
    stops when [i] is past the end.  Every iteration advances [i] and no
    iteration makes the list longer, so [fuel] bounds the iterations. *)
Fixpoint merge_loop (fuel i : nat) (l : list FreeRect) : result (list FreeRect) :=
  match nth_error l i with
  | None => Ok l
  | Some freerect =>
      match fuel with
      | O => Ok l
      | S fuel' => l' <- merge_body freerect l ;; merge_loop fuel' (S i) l'
      end
  end.

(** [Guillotine.rectangle_merge] *)
Definition rectangle_merge (self : Guillotine) : result Guillotine :=
  l <- merge_loop (List.length (freerects self)) 0 (freerects self) ;;
  Ok (set_freerects self l).

(** ** Insertion *)

(** What every branch of [insert] does with the result of its heuristic. *)
Definition after_placement (res : result (Guillotine * Heap * bool))
    : result (Guillotine * Heap * bool) :=
  r <- res ;;
  let '(self, h, ok) := r in
  if ok then
    if rMerge self then (self' <- rectangle_merge self ;; Ok (self', h, true))
    else Ok (self, h, true)
  else Ok (self, h, false).

(** [Guillotine.insert] *)
Definition insert (self : Guillotine) (h : Heap) (item : ref)
    (heuristic split_heuristic : string) : result (Guillotine * Heap * bool) :=
  if String.eqb heuristic "first_fit" then
    after_placement (first_fit self h item)
  else if String.eqb heuristic "best_width_fit" then
    after_placement (_generic_algo self h item "width" Z.ltb split_heuristic)
  else if String.eqb heuristic "best_height_fit" then
    after_placement (_generic_algo self h item "height" Z.ltb split_heuristic)
  else if String.eqb heuristic "best_area_fit" then
    after_placement (_generic_algo self h item "area" Z.ltb split_heuristic)
  else if String.eqb heuristic "worst_width_fit" then
    after_placement (_generic_algo self h item "width" Z.gtb split_heuristic)
  else if String.eqb heuristic "worst_height_fit" then
    after_placement (_generic_algo self h item "height" Z.gtb split_heuristic)
  else if String.eqb heuristic "worst_area_fit" then
    after_placement (_generic_algo self h item "area" Z.gtb split_heuristic)
  else Ok (self, h, false).

(** ** Statistics *)

(** Python's [float] is an IEEE 754 binary64 number: [spec_float] with a
    precision of 53 bits and the infinities at exponent 1024. *)
Definition float : Type := spec_float.

Definition float_zero : float := S754_zero false.

(** [1.0], the value the integer [1] converts to. *)
Definition float_one : float := S754_finite false 4503599627370496 (-52).

(** [-] on two floats, rounded to nearest, ties to even. *)
Definition float_sub (a b : float) : float := SFsub 53 1024 a b.

(** An [int] as an operand of [/]: the integer itself, not yet rounded. *)
Definition int_operand (n : Z) : float :=
  match n with
  | Z0 => S754_zero false
  | Zpos p => S754_finite false p 0
  | Zneg p => S754_finite true p 0
  end.

(** The dictionary [bin_stats] returns. *)
Record Stats : Type := mkStats {
  stats_width : Z;
  stats_height : Z;
  stats_area : Z;
  stats_efficiency : float;
  stats_items : list ref
}.

(** [/] on two [int]s: the quotient of the two integers rounded once to
    the nearest float, ties to even.  It raises on a zero divisor, and
    when the rounded quotient is too large for a float. *)
Definition truediv (a b : Z) : result float :=
  if b =? 0 then Raise ZeroDivisionError
  else match SFdiv 53 1024 (int_operand a) (int_operand b) with
       | S754_infinity _ => Raise OverflowError
       | q => Ok q
       end.

Definition sum (l : list Z) : Z := fold_left Z.add l 0.

(** [Guillotine.bin_stats]: in [1 - q] the integer [1] is converted to
    [1.0] and the subtraction is the one of floats. *)
Definition bin_stats (self : Guillotine) : result Stats :=
  q <- truediv (sum (map (fun F => FreeRectangle.width F * FreeRectangle.height F)
                         (freerects self)))
               (x self * y self) ;;
  Ok {| stats_width := x self;
        stats_height := y self;
        stats_area := x self * y self;
        stats_efficiency := float_sub float_one q;
        stats_items := items self |}.

(** ** Sequences of insert calls *)

Record call : Type := mkCall {
  call_item : ref;
  call_heuristic : string;
  call_split : string
}.

(** The caller inserts one item after the other into the same engine and
    collects the answers. *)
Fixpoint run (self : Guillotine) (h : Heap) (calls : list call)
    : result (Guillotine * Heap * list bool) :=
  match calls with
  | [] => Ok (self, h, [])
  | c :: calls' =>
      r <- insert self h (call_item c) (call_heuristic c) (call_split c) ;;
      let '(self', h', ok) := r in
      r' <- run self' h' calls' ;;
      let '(self'', h'', oks) := r' in
      Ok (self'', h'', ok :: oks)
  end.

(** A heap whose objects [0, 1, ...] are new items of the given sizes. *)
Definition heap_of (sizes : list (Z * Z)) : Heap :=
  fun r => let '(w, h) := nth r sizes (0, 0) in Item.new w h.

(** ** Geometry of the packing *)

(** The rectangle an item occupies: its corner point and its current
    width and height.  An unplaced item occupies nothing. *)
Definition item_rect (it : Item.t) : option FreeRect :=
  match Item.CornerPoint it with
  | Some (px, py) => Some (FreeRectangle.mk (Item.width it) (Item.height it) px py)
  | None => None
  end.

(** Two rectangles overlap when their interiors meet. *)
Definition overlap (a b : FreeRect) : bool :=
  (FreeRectangle.x a <? FreeRectangle.x b + FreeRectangle.width b)
  && (FreeRectangle.x b <? FreeRectangle.x a + FreeRectangle.width a)
  && (FreeRectangle.y a <? FreeRectangle.y b + FreeRectangle.height b)
  && (FreeRectangle.y b <? FreeRectangle.y a + FreeRectangle.height a).

(** No two entries of the list, at different positions, overlap. *)
Fixpoint pairwise_disjoint (l : list FreeRect) : Prop :=
  match l with
  | [] => True
  | r :: l' => Forall (fun r' => overlap r r' = false) l' /\ pairwise_disjoint l'
  end.

(** The rectangles of the placed items, in placement order. *)
Definition placed_rects (self : Guillotine) (h : Heap) : list FreeRect :=
  flat_map (fun r => match item_rect (h r) with
                     | Some rect => [rect]
                     | None => []
                     end) (items self).

Definition free_area (self : Guillotine) : Z :=
  sum (map FreeRectangle.area (freerects self)).

Definition placed_area (self : Guillotine) (h : Heap) : Z :=
  sum (map (fun r => Item.width (h r) * Item.height (h r)) (items self)).

(** The two invariants of the specification, as properties of a state. *)
Definition no_overlap (self : Guillotine) (h : Heap) : Prop :=
  pairwise_disjoint (placed_rects self h) /\ pairwise_disjoint (freerects self).

Definition area_conserved (self : Guillotine) (h : Heap) : Prop :=
  placed_area self h + free_area self = x self * y self.

(** ** The specification's reading of the split policies *)

Inductive SplitPolicy : Type :=
| Default
| SplitShorterLeftoverAxis
| SplitLongerLeftoverAxis
| SplitMinimizeArea
| SplitMaximizeArea
| SplitShorterAxis
| SplitLongerAxis.

(** The name by which the engine's [split_heuristic] selects a policy. *)
Definition policy_name (p : SplitPolicy) : string :=
  match p with
  | Default => "default"
  | SplitShorterLeftoverAxis => "SplitShorterLeftoverAxis"
  | SplitLongerLeftoverAxis => "SplitLongerLeftoverAxis"
  | SplitMinimizeArea => "SplitMinimizeArea"
  | SplitMaximizeArea => "SplitMaximizeArea"
  | SplitShorterAxis => "SplitShorterAxis"
  | SplitLongerAxis => "SplitLongerAxis"
  end.

(** The rule table of the specification: when the split is horizontal. *)
Definition horizontal_rule (p : SplitPolicy) (F : FreeRect) (I : Item.t) : Prop :=
  let leftover_width := FreeRectangle.width F - Item.width I in
  let leftover_height := FreeRectangle.height F - Item.height I in
  match p with
  | Default => True
  | SplitShorterLeftoverAxis => leftover_width <= leftover_height
  | SplitLongerLeftoverAxis => leftover_width > leftover_height
  | SplitMinimizeArea =>
      Item.width I * leftover_height > leftover_width * Item.height I
  | SplitMaximizeArea =>
      ~ (Item.width I * leftover_height > leftover_width * Item.height I)
  | SplitShorterAxis => FreeRectangle.width F <= FreeRectangle.height F
  | SplitLongerAxis => FreeRectangle.width F > FreeRectangle.height F
  end.

(** ** The specification's reading of a merge *)

(** [b] has the x and the width of [a] and lies immediately above it. *)
Definition stacked (a b : FreeRect) : bool :=
  (FreeRectangle.x a =? FreeRectangle.x b)
  && (FreeRectangle.width a =? FreeRectangle.width b)
  && (FreeRectangle.y b =? FreeRectangle.y a + FreeRectangle.height a).

(** [b] has the y and the height of [a] and lies immediately to its right. *)
Definition side_by_side (a b : FreeRect) : bool :=
  (FreeRectangle.y a =? FreeRectangle.y b)
  && (FreeRectangle.height a =? FreeRectangle.height b)
  && (FreeRectangle.x b =? FreeRectangle.x a + FreeRectangle.width a).

(** The two rectangles can be merged, in either order. *)
Definition mergeable (a b : FreeRect) : bool :=
  stacked a b || stacked b a || side_by_side a b || side_by_side b a.

(** ** The specification's reading of the rotation choice *)

(** The choice between the two candidates as a comparison of their widths
    alone, the unrotated candidate [a] kept unless the rotated candidate
    [b] is narrower; the item is turned exactly when [b] is taken. *)
Definition chooses_by_width (self : Guillotine) (h : Heap) (item : ref)
    (field : string) (op : Z -> Z -> bool) : Prop :=
  forall a b split_heuristic,
    rotation self = true ->
    _rectangle_reduce (_fitted_rects self (h item) false) op field = Ok (Some a) ->
    _rectangle_reduce (_fitted_rects self (h item) true) op field = Ok (Some b) ->
    let rotated_wins := FreeRectangle.width b <? FreeRectangle.width a in
    let best := if rotated_wins then b else a in
    exists self' h',
      _generic_algo self h item field op split_heuristic = Ok (self', h', true)
      /\ h' item
         = Item.set_CornerPoint
             (if rotated_wins then Item.rotate (h item) else h item)
             (FreeRectangle.x best, FreeRectangle.y best).

(** ** Scenarios *)

Definition first_fit_call (item : ref) : call := mkCall item "first_fit" "default".

(** Bin 4 x 4, merge pass enabled, everything else as the constructor
    defaults; four items are inserted with [first_fit]. *)
Definition engine_4x4 : Guillotine := __init__ 4 4 true true "default".
Definition items_4x4 : Heap := heap_of [(2, 1); (3, 1); (2, 2); (1, 2)].
Definition calls_4x4 : list call := map first_fit_call (seq 0 4).

(** Bin 6 x 6, merge pass enabled, policy [SplitShorterAxis]. *)
Definition engine_6x6 : Guillotine := __init__ 6 6 true true "SplitShorterAxis".
Definition items_6x6 : Heap :=
  heap_of [(1, 3); (1, 1); (1, 1); (1, 2); (1, 1); (1, 2)].
Definition calls_6x6 : list call := map first_fit_call (seq 0 6).

(** Bin 8 x 5, rotation enabled, no merge pass, policy [SplitShorterAxis]. *)
Definition engine_8x5 : Guillotine := __init__ 8 5 true false "SplitShorterAxis".
Definition items_8x5 : Heap := heap_of [(4, 2); (2, 4)].

(** ** Well-formed items and fitting *)

(** The data model of the specification: an item has a positive width
    and a positive height. *)
Definition well_formed (it : Item.t) : Prop :=
  0 < Item.width it /\ 0 < Item.height it.

(** The item, as it is oriented now, fits in the rectangle. *)
Definition fits (r : FreeRect) (it : Item.t) : Prop :=
  Item.width it <= FreeRectangle.width r
  /\ Item.height it <= FreeRectangle.height r.

(** [a] lies inside [b]. *)
Definition inside (a b : FreeRect) : Prop :=
  FreeRectangle.x b <= FreeRectangle.x a
  /\ FreeRectangle.x a + FreeRectangle.width a
     <= FreeRectangle.x b + FreeRectangle.width b
  /\ FreeRectangle.y b <= FreeRectangle.y a
  /\ FreeRectangle.y a + FreeRectangle.height a
     <= FreeRectangle.y b + FreeRectangle.height b.

(** The rectangle an item occupies once it is placed at the origin of [F]. *)
Definition occupied (F : FreeRect) (it : Item.t) : FreeRect :=
  FreeRectangle.mk (Item.width it) (Item.height it)
                   (FreeRectangle.x F) (FreeRectangle.y F).

(** The field names [insert] passes to [_generic_algo]. *)
Definition metric_name (field : string) : Prop :=
  field = "width" \/ field = "height" \/ field = "area".

(** A heap whose objects [0, 1, ...] are new items of the given sizes
    and whose other objects are new items of size [d]. *)
Definition heap_with (sizes : list (Z * Z)) (d : Z * Z) : Heap :=
  fun r => let '(w, h) := nth r sizes d in Item.new w h.

(** ** Vocabulary for the engine's contract *)

(** The heuristic names [insert] dispatches on. *)
Definition heuristic_names : list string :=
  ["first_fit"; "best_width_fit"; "best_height_fit"; "best_area_fit";
   "worst_width_fit"; "worst_height_fit"; "worst_area_fit"].

(** The value [_rectangle_reduce] compares for a field name. *)
Definition metric (field : string) (r : FreeRect) : Z :=
  if String.eqb field "width" then FreeRectangle.width r
  else if String.eqb field "height" then FreeRectangle.height r
  else FreeRectangle.area r.

(** Some free rectangle takes the item, as it is or, when rotation is
    enabled, turned. *)
Definition can_fit (self : Guillotine) (it : Item.t) : Prop :=
  exists r,
    In r (freerects self)
    /\ (fits r it \/ (rotation self = true /\ fits r (Item.rotate it))).

(** A rectangle of positive size that lies inside the bin. *)
Definition in_bin (self : Guillotine) (r : FreeRect) : Prop :=
  0 < FreeRectangle.width r /\ 0 < FreeRectangle.height r
  /\ 0 <= FreeRectangle.x r
  /\ FreeRectangle.x r + FreeRectangle.width r <= x self
  /\ 0 <= FreeRectangle.y r
  /\ FreeRectangle.y r + FreeRectangle.height r <= y self.

(** The items of the calls that were answered [True], in call order. *)
Fixpoint accepted (calls : list call) (oks : list bool) : list ref :=
  match calls, oks with
  | c :: calls', ok :: oks' =>
      if ok then call_item c :: accepted calls' oks' else accepted calls' oks'
  | _, _ => []
  end.

(** The engine differs from [self] in its free list only. *)
Definition same_but_freerects (self self' : Guillotine) : Prop :=
  x self' = x self /\ y self' = y self /\ rMerge self' = rMerge self
  /\ split_heuristic self' = split_heuristic self
  /\ rotation self' = rotation self /\ items self' = items self.

(** * The bin manager of [binpack/binmanager.py] *)

(** [list.sort(key=..., reverse=True)]: the list in decreasing order of
    the key, elements with equal keys in the order they had. *)
Fixpoint insert_by_key {A : Type} (key : A -> Z) (a : A) (l : list A) : list A :=
  match l with
  | [] => [a]
  | b :: l' => if key a <? key b then b :: insert_by_key key a l'
               else a :: b :: l'
  end.

Definition sort_reverse {A : Type} (key : A -> Z) (l : list A) : list A :=
  fold_right (insert_by_key key) [] l.

Module BinManager.

(** The classes the manager instantiates: [shelf.Sheet] and
    [guillotine.Guillotine]. *)
Inductive Algorithm : Type := Sheet | Guillotine.

(** What the attribute [algorithm] can hold: a class, which every
    assignment in the file gives it, or a string, which the comparisons
    in [_bin_best_fit] expect. *)
Inductive value : Type :=
| VClass (c : Algorithm)
| VStr (s : string).

(** [==] between the attribute and a string literal: a class object is
    equal to no string. *)
Definition eq_str (v : value) (s : string) : bool :=
  match v with
  | VClass _ => false
  | VStr t => String.eqb t s
  end.

Inductive error : Type :=
| UnboundLocalError
| TypeError
| AttributeError
| EngineError.

Inductive outcome (A : Type) : Type :=
| Done (a : A)
| Failed (e : error).

Arguments Done {A} a.
Arguments Failed {A} e.

Definition and_then {A B : Type} (m : outcome A) (k : A -> outcome B) : outcome B :=
  match m with
  | Done a => k a
  | Failed e => Failed e
  end.

(** The modules [item], [shelf] and [guillotine] of binpack are not in
    the sources.  What the manager uses of them is taken as an
    interface: the engine instances with their constructor and their
    [insert], the attributes [freerects] and [shelves] the manager reads
    (absent on a bin of the other class), the attributes of a shelf, and
    the Item objects with their attributes [x], [y] and their
    [rotate()]. *)
Class Package : Type := {
  Bin : Type;
  World : Type;
  Shelf : Type;
  construct : Algorithm -> Z -> Z -> Bin;
  bin_insert : Bin -> World -> ref -> string -> option (Bin * World * bool);
  bin_freerects : Bin -> option (list FreeRect);
  bin_shelves : Bin -> option (list Shelf);
  available_width : Shelf -> Z;
  shelf_y : Shelf -> Z;
  shelf_truthy : Shelf -> bool;
  item_x : World -> ref -> Z;
  item_y : World -> ref -> Z;
  item_rotate : World -> ref -> World
}.

Section Manager.

Context {P : Package}.

Record t : Type := mk {
  bin_width : Z;
  bin_height : Z;
  items : list ref;
  bins : list Bin;
  bin_count : Z;
  algorithm : value;
  h_choices : list string;
  heuristic : string
}.

Definition set_items (self : t) (l : list ref) : t :=
  mk (bin_width self) (bin_height self) l (bins self) (bin_count self)
     (algorithm self) (h_choices self) (heuristic self).

Definition set_bins (self : t) (l : list Bin) : t :=
  mk (bin_width self) (bin_height self) (items self) l (bin_count self)
     (algorithm self) (h_choices self) (heuristic self).

Definition set_algorithm (self : t) (v : value) : t :=
  mk (bin_width self) (bin_height self) (items self) (bins self) (bin_count self)
     v (h_choices self) (heuristic self).

Definition set_heuristic (self : t) (s : string) : t :=
  mk (bin_width self) (bin_height self) (items self) (bins self) (bin_count self)
     (algorithm self) (h_choices self) s.

(** [BinManager.__init__]; [bin_sel_algo] is [_bin_best_fit] and is
    never reassigned. *)
Definition __init__ (bin_width bin_height : Z) : t :=
  mk bin_width bin_height [] [] 0 (VClass Guillotine)
     ["next_fit"; "first_fit"; "best_width_fit"; "best_height_fit";
      "best_area_fit"; "worst_width_fit"]
     "next_fit".

(** [BinManager.add_items] *)
Definition add_items (self : t) (w : World) (new_items : list ref) : t :=
  set_items self
    (sort_reverse (fun el => item_x w el * item_y w el)
                  (items self ++ new_items)%list).

(** [BinManager.set_algorthim] *)
Definition set_algorthim (self : t) (family heuristic : string) : t * bool :=
  if String.eqb family "shelf" then
    let self := set_algorithm self (VClass Sheet) in
    if existsb (String.eqb heuristic) (h_choices self)
    then (set_heuristic self heuristic, true)
    else (self, false)
  else if String.eqb family "guillotine" then
    let self := set_algorithm self (VClass Guillotine) in
    if existsb (String.eqb heuristic) (h_choices self)
    then (set_heuristic self heuristic, true)
    else (self, false)
  else (self, false).

(** [self.algorithm(self.bin_width, self.bin_height)] *)
Definition new_bin (self : t) : outcome Bin :=
  match algorithm self with
  | VClass c => Done (construct c (bin_width self) (bin_height self))
  | VStr _ => Failed TypeError
  end.

(** [binn.insert(item, self.heuristic)] *)
Definition call_insert (self : t) (binn : Bin) (w : World) (item : ref)
    : outcome (Bin * World * bool) :=
  match bin_insert binn w item (heuristic self) with
  | Some r => Done r
  | None => Failed EngineError
  end.

(** The tail of both bin selectors: open a bin, append it, insert the
    item into it; what this insert answers is not looked at. *)
Definition open_bin (self : t) (w : World) (item : ref) : outcome (t * World) :=
  and_then (new_bin self) (fun b =>
  and_then (call_insert self b w item) (fun r =>
  let '(b', w', _) := r in
  Done (set_bins self (bins self ++ [b'])%list, w'))).

(** The [for] loop of [_bin_first_fit] over the bins from [bs] on:
    the bins after the calls, the items, and what [result] is bound to,
    if the loop body ran at all. *)
Fixpoint first_fit_loop (self : t) (bs : list Bin) (w : World) (item : ref)
    : outcome (list Bin * World * option bool) :=
  match bs with
  | [] => Done ([], w, None)
  | binn :: bs' =>
      and_then (call_insert self binn w item) (fun r =>
      let '(binn', w', result) := r in
      if result then Done (binn' :: bs', w', Some true)
      else
        and_then (first_fit_loop self bs' w' item) (fun r' =>
        let '(bs'', w'', later) := r' in
        Done (binn' :: bs'', w'',
              match later with
              | Some result' => Some result'
              | None => Some false
              end)))
  end.

(** [BinManager._bin_first_fit] *)
Definition _bin_first_fit (self : t) (w : World) (item : ref) : outcome (t * World) :=
  and_then (first_fit_loop self (bins self) w item) (fun r =>
  let '(bs, w', result) := r in
  let self := set_bins self bs in
  match result with
  | None => Failed UnboundLocalError
  | Some true => Done (self, w')
  | Some false => open_bin self w' item
  end).

(** The candidate [_bin_best_fit] keeps in [best_rect]. *)
Inductive candidate : Type :=
| Rect (r : FreeRect)
| OnShelf (s : Shelf).

(** The first [if] of the loop body of [_bin_best_fit]. *)
Definition scan_guillotine (w : World) (item : ref) (i : nat) (binn : Bin)
    (best : option (candidate * nat)) : outcome (option (candidate * nat)) :=
  match bin_freerects binn with
  | None => Failed AttributeError
  | Some rects =>
      let fitted_rects :=
        filter (fun rect => (FreeRectangle.width rect >=? item_x w item)
                            && (FreeRectangle.height rect >=? item_y w item))
               rects in
      match fitted_rects with
      | [] => Done best
      | first :: rest =>
          let best_in_bin :=
            fold_left (fun a b => if FreeRectangle.area a >? FreeRectangle.area b
                                  then a else b) rest first in
          match best with
          | None => Done (Some (Rect best_in_bin, i))
          | Some (Rect best_rect, _) =>
              if FreeRectangle.width best_in_bin <? FreeRectangle.width best_rect
              then Done (Some (Rect best_in_bin, i))
              else Done best
          | Some (OnShelf s, _) =>
              if shelf_truthy s then Failed AttributeError
              else Done (Some (Rect best_in_bin, i))
          end
      end
  end.

(** The second [if] of the loop body of [_bin_best_fit]. *)
Definition scan_shelf (w : World) (item : ref) (i : nat) (binn : Bin)
    (best : option (candidate * nat))
    : outcome (World * option (candidate * nat)) :=
  match bin_shelves binn with
  | None => Failed AttributeError
  | Some shelves =>
      let fitted_shelves :=
        filter (fun shelf => (available_width shelf >=? item_x w item)
                             && (shelf_y shelf >=? item_y w item))
               shelves in
      let '(fitted_shelves, w) :=
        if negb (nonempty fitted_shelves) then
          let fitted_shelves :=
            filter (fun shelf => (available_width shelf >=? item_y w item)
                                 && (shelf_y shelf >=? item_x w item))
                   shelves in
          (fitted_shelves,
           if nonempty fitted_shelves then item_rotate w item else w)
        else (fitted_shelves, w) in
      match fitted_shelves with
      | [] => Done (w, best)
      | first :: rest =>
          let best_shelf :=
            fold_left (fun a b => if available_width a <? available_width b
                                  then a else b) rest first in
          if shelf_truthy best_shelf then
            match best with
            | None => Done (w, Some (OnShelf best_shelf, i))
            | Some (OnShelf best_rect, _) =>
                if negb (shelf_truthy best_rect)
                then Done (w, Some (OnShelf best_shelf, i))
                else if available_width best_shelf <? available_width best_rect
                then Done (w, Some (OnShelf best_shelf, i))
                else Done (w, best)
            | Some (Rect _, _) => Failed AttributeError
            end
          else Done (w, best)
      end
  end.

(** The [for i, binn in enumerate(self.bins)] loop of [_bin_best_fit]. *)
Fixpoint best_fit_loop (self : t) (bs : list Bin) (i : nat) (w : World)
    (item : ref) (best : option (candidate * nat))
    : outcome (World * option (candidate * nat)) :=
  match bs with
  | [] => Done (w, best)
  | binn :: bs' =>
      and_then (if eq_str (algorithm self) "guillotine"
                then scan_guillotine w item i binn best
                else Done best) (fun best =>
      and_then (if eq_str (algorithm self) "shelf"
                then scan_shelf w item i binn best
                else Done (w, best)) (fun r =>
      let '(w, best) := r in
      best_fit_loop self bs' (S i) w item best))
  end.

(** Truthiness of [best_rect]. *)
Definition truthy (best : option (candidate * nat)) : bool :=
  match best with
  | None => false
  | Some (Rect _, _) => true
  | Some (OnShelf s, _) => shelf_truthy s
  end.

(** [self.bins[i].insert(item, self.heuristic)], [i] being the index the
    loop ended with. *)
Definition insert_at_last (self : t) (w : World) (item : ref) : outcome (t * World) :=
  match rev (bins self) with
  | [] => Failed UnboundLocalError
  | last :: front =>
      and_then (call_insert self last w item) (fun r =>
      let '(last', w', _) := r in
      Done (set_bins self (rev front ++ [last'])%list, w'))
  end.

(** [BinManager._bin_best_fit] *)
Definition _bin_best_fit (self : t) (w : World) (item : ref) : outcome (t * World) :=
  and_then (best_fit_loop self (bins self) 0 w item None) (fun r =>
  let '(w, best_rect) := r in
  if truthy best_rect then insert_at_last self w item
  else open_bin self w item).

(** The [for item in self.items] loop of [execute]. *)
Fixpoint execute_loop (self : t) (w : World) (todo : list ref) : outcome (t * World) :=
  match todo with
  | [] => Done (self, w)
  | item :: todo' =>
      and_then (_bin_best_fit self w item) (fun r =>
      let '(self, w) := r in
      execute_loop self w todo')
  end.

(** [BinManager.execute] *)
Definition execute (self : t) (w : World) : outcome (t * World) :=
  and_then (new_bin self) (fun b =>
  let self := set_bins self [b] in
  execute_loop self w (items self)).

(** A manager as the methods of the class can make it: built by
    [__init__], then taken through any calls of [set_algorthim],
    [add_items], [_bin_first_fit], [_bin_best_fit] and [execute] that
    returned. *)
Inductive configured : t -> Prop :=
| configured_init (bw bh : Z) : configured (__init__ bw bh)
| configured_set (self : t) (family h : string) :
    configured self -> configured (fst (set_algorthim self family h))
| configured_add (self : t) (w : World) (new_items : list ref) :
    configured self -> configured (add_items self w new_items)
| configured_first_fit (self self' : t) (w w' : World) (item : ref) :
    configured self ->
    _bin_first_fit self w item = Done (self', w') -> configured self'
| configured_best_fit (self self' : t) (w w' : World) (item : ref) :
    configured self ->
    _bin_best_fit self w item = Done (self', w') -> configured self'
| configured_execute (self self' : t) (w w' : World) :
    configured self ->
    execute self w = Done (self', w') -> configured self'.

End Manager.

End BinManager.

(** The engine of [greedypacker/guillotine.py] behind the interface of
    the manager, for concrete runs: bins are built with the defaults of
    [Guillotine(x, y)], items are read through their width and height. *)
Definition guillotine_package : BinManager.Package :=
  {| BinManager.Bin := Guillotine;
     BinManager.World := Heap;
     BinManager.Shelf := Empty_set;
     BinManager.construct := fun _ w h => __init__ w h true false "default";
     BinManager.bin_insert :=
       fun binn w item heuristic =>
         match insert binn w item heuristic "default" with
         | Ok r => Some r
         | Raise _ => None
         end;
     BinManager.bin_freerects := fun binn => Some (freerects binn);
     BinManager.bin_shelves := fun _ => None;
     BinManager.available_width := fun _ => 0;
     BinManager.shelf_y := fun _ => 0;
     BinManager.shelf_truthy := fun _ => true;
     BinManager.item_x := fun w el => Item.width (w el);
     BinManager.item_y := fun w el => Item.height (w el);
     BinManager.item_rotate := fun w el => upd w el (Item.rotate (w el)) |}.

(** * Properties *)

(** ** Basic facts *)

Lemma FreeRectangle_eqb_eq (a b : FreeRect) :
  FreeRectangle.eqb a b = true <-> a = b.
Proof.
  destruct a as [aw ah ax ay], b as [bw bh bx b_y].
  unfold FreeRectangle.eqb; cbn.
  rewrite !andb_true_iff, !Z.eqb_eq.
  split.
  - intros [[[-> ->] ->] ->]; reflexivity.
  - intros E; injection E; intros; subst; auto.
Qed.

Lemma FreeRectangle_eqb_refl (a : FreeRect) : FreeRectangle.eqb a a = true.
Proof. apply FreeRectangle_eqb_eq; reflexivity. Qed.

Lemma FreeRectangle_eqb_neq (a b : FreeRect) :
  FreeRectangle.eqb a b = false <-> a <> b.
Proof.
  rewrite <- FreeRectangle_eqb_eq.
  destruct (FreeRectangle.eqb a b); split; congruence.
Qed.

Lemma upd_same (h : Heap) (r : ref) (v : Item.t) : upd h r v r = v.
Proof. unfold upd; rewrite Nat.eqb_refl; reflexivity. Qed.

Lemma upd_other (h : Heap) (r r' : ref) (v : Item.t) :
  r' <> r -> upd h r v r' = h r'.
Proof.
  intros N; unfold upd.
  destruct (Nat.eqb_spec r' r); [contradiction | reflexivity].
Qed.

(** ** C6: the split axis *)

(** The axis computed for a policy name is horizontal exactly when the
    rule of that policy in the specification's table holds. *)
Lemma split_axis_rule (p : SplitPolicy) (F : FreeRect) (I : Item.t) :
  split_axis (policy_name p) I F = true <-> horizontal_rule p F I.
Proof.
  destruct p; unfold split_axis, horizontal_rule, policy_name; cbn.
  - tauto.
  - rewrite Z.leb_le; tauto.
  - rewrite Z.gtb_ltb, Z.ltb_lt; lia.
  - rewrite Z.gtb_ltb, Z.ltb_lt; lia.
  - rewrite Z.leb_le; lia.
  - rewrite Z.leb_le; tauto.
  - rewrite Z.gtb_ltb, Z.ltb_lt; lia.
Qed.

(** That axis is the one [_split_free_rect] splits along. *)
Lemma split_free_rect_axis (self : Guillotine) (I : Item.t) (F : FreeRect) :
  _split_free_rect self I F
  = _split_along_axis F I (split_axis (split_heuristic self) I F).
Proof. reflexivity. Qed.

(** C6. For every free rectangle [F] and item [I] placed in it, an
    engine configured with a split policy splits [F] along the axis
    [split] (true = horizontal) that the specification's table gives for
    that policy: always horizontal for the default, and by the leftover
    lengths, the leftover areas or the sides of [F] for the six named
    policies. *)
Theorem split_free_rect_follows_policy_table
    (self : Guillotine) (p : SplitPolicy) (F : FreeRect) (I : Item.t) :
  split_heuristic self = policy_name p ->
  exists split : bool,
    (split = true <-> horizontal_rule p F I)
    /\ _split_free_rect self I F = _split_along_axis F I split.
Proof.
  intros E; exists (split_axis (split_heuristic self) I F); split.
  - rewrite E; apply split_axis_rule.
  - apply split_free_rect_axis.
Qed.

Lemma split_free_rect_follows_policy_table_witness :
  exists split : bool,
    (split = true
     <-> horizontal_rule SplitShorterAxis (FreeRectangle.mk 8 5 0 0)
                         (Item.new 3 2))
    /\ _split_free_rect (__init__ 8 5 true false "SplitShorterAxis")
                        (Item.new 3 2) (FreeRectangle.mk 8 5 0 0)
       = _split_along_axis (FreeRectangle.mk 8 5 0 0) (Item.new 3 2) split.
Proof.
  apply (split_free_rect_follows_policy_table
           (__init__ 8 5 true false "SplitShorterAxis") SplitShorterAxis
           (FreeRectangle.mk 8 5 0 0) (Item.new 3 2)).
  reflexivity.
Defined.

(** Any other policy name splits horizontally, like the default. *)
Lemma split_axis_unknown_policy (s : string) (F : FreeRect) (I : Item.t) :
  (forall p, p <> Default -> s <> policy_name p) ->
  split_axis s I F = true.
Proof.
  intros N; unfold split_axis.
  destruct (String.eqb_spec s "SplitShorterLeftoverAxis") as [E|_];
    [exfalso; apply (N SplitShorterLeftoverAxis); [discriminate | exact E] |].
  destruct (String.eqb_spec s "SplitLongerLeftoverAxis") as [E|_];
    [exfalso; apply (N SplitLongerLeftoverAxis); [discriminate | exact E] |].
  destruct (String.eqb_spec s "SplitMinimizeArea") as [E|_];
    [exfalso; apply (N SplitMinimizeArea); [discriminate | exact E] |].
  destruct (String.eqb_spec s "SplitMaximizeArea") as [E|_];
    [exfalso; apply (N SplitMaximizeArea); [discriminate | exact E] |].
  destruct (String.eqb_spec s "SplitShorterAxis") as [E|_];
    [exfalso; apply (N SplitShorterAxis); [discriminate | exact E] |].
  destruct (String.eqb_spec s "SplitLongerAxis") as [E|_];
    [exfalso; apply (N SplitLongerAxis); [discriminate | exact E] |].
  reflexivity.
Qed.

(** ** C7: the first insertion into the default bin *)

(** C7. In a fresh bin of width 8 and height 4 with the default split
    policy, inserting an item of width 3 and height 2 with [first_fit]
    succeeds, places the item at (0, 0) without turning it, and leaves
    exactly the free rectangles (5, 2, 3, 0) and (8, 2, 0, 2); this holds
    with or without rotation and with or without the merge pass. *)
Theorem first_fit_3x2_in_8x4
    (rot mrg : bool) (h : Heap) (item : ref) (split_heuristic : string) :
  Item.width (h item) = 3 ->
  Item.height (h item) = 2 ->
  exists self' h',
    insert (__init__ 8 4 rot mrg "default") h item "first_fit" split_heuristic
    = Ok (self', h', true)
    /\ h' item = Item.set_CornerPoint (h item) (0, 0)
    /\ items self' = [item]
    /\ freerects self' = [FreeRectangle.mk 5 2 3 0; FreeRectangle.mk 8 2 0 2].
Proof.
  intros Hw Hh.
  unfold insert; cbn [String.eqb Ascii.eqb Bool.eqb].
  unfold first_fit, _fitted_rects; cbn.
  rewrite Hw, Hh; cbn.
  unfold place; cbn.
  rewrite upd_same.
  unfold _split_free_rect, _split_along_axis; cbn.
  rewrite Hw, Hh; cbn.
  destruct mrg; cbn;
    (do 2 eexists; split; [reflexivity |]);
    rewrite upd_same; repeat split; reflexivity.
Qed.

Lemma first_fit_3x2_in_8x4_witness :
  Item.width (heap_of [(3, 2)] 0%nat) = 3
  /\ exists self' h',
       insert (__init__ 8 4 true false "default") (heap_of [(3, 2)]) 0%nat
              "first_fit" "default"
       = Ok (self', h', true)
       /\ h' 0%nat = Item.set_CornerPoint (heap_of [(3, 2)] 0%nat) (0, 0)
       /\ items self' = [0%nat]
       /\ freerects self' = [FreeRectangle.mk 5 2 3 0; FreeRectangle.mk 8 2 0 2].
Proof.
  split; [reflexivity |].
  apply (first_fit_3x2_in_8x4 true false (heap_of [(3, 2)]) 0%nat "default");
    reflexivity.
Defined.

(** ** C8: a bin with a zero dimension *)

Lemma fitted_rects_empty (self : Guillotine) (it : Item.t) (rot : bool) :
  freerects self = [] -> _fitted_rects self it rot = [].
Proof. intros E; unfold _fitted_rects; rewrite E; reflexivity. Qed.

Lemma first_fit_empty (self : Guillotine) (h : Heap) (item : ref) :
  freerects self = [] -> first_fit self h item = Ok (self, h, false).
Proof.
  intros E; unfold first_fit.
  rewrite !fitted_rects_empty by exact E.
  destruct (rotation self); reflexivity.
Qed.

Lemma generic_algo_empty (self : Guillotine) (h : Heap) (item : ref)
    (field : string) (op : Z -> Z -> bool) (sh : string) :
  freerects self = [] ->
  _generic_algo self h item field op sh
  = Ok (self,
        if rotation self then upd h item (Item.rotate (h item)) else h,
        false).
Proof.
  intros E; unfold _generic_algo.
  rewrite !fitted_rects_empty by exact E.
  destruct (rotation self); reflexivity.
Qed.

Lemma insert_empty (self : Guillotine) (h : Heap) (item : ref)
    (heuristic sh : string) :
  freerects self = [] ->
  exists h', insert self h item heuristic sh = Ok (self, h', false).
Proof.
  intros E; unfold insert.
  rewrite first_fit_empty by exact E.
  rewrite !generic_algo_empty by exact E.
  repeat match goal with
         | |- context [if ?b then _ else _] => destruct b
         end;
    eexists; reflexivity.
Qed.

Lemma run_empty (self : Guillotine) (calls : list call) :
  freerects self = [] ->
  forall h, exists h',
    run self h calls = Ok (self, h', repeat false (List.length calls)).
Proof.
  intros E; induction calls as [|c calls IH]; intros h.
  - exists h; reflexivity.
  - cbn [run].
    destruct (insert_empty self h (call_item c) (call_heuristic c) (call_split c) E)
      as [h1 ->].
    destruct (IH h1) as [h2 R].
    exists h2; cbn; rewrite R; reflexivity.
Qed.

(** C8. An engine built with bin width zero or bin height zero has an
    empty free set, and whatever items are then inserted, with whatever
    heuristics, every insert call returns failure and the free set is
    still empty afterwards. *)
Theorem zero_bin_rejects_every_insert
    (bx b_y : Z) (rot mrg : bool) (sp : string) (h : Heap) (calls : list call) :
  bx = 0 \/ b_y = 0 ->
  freerects (__init__ bx b_y rot mrg sp) = []
  /\ exists self' h' oks,
       run (__init__ bx b_y rot mrg sp) h calls = Ok (self', h', oks)
       /\ List.length oks = List.length calls
       /\ Forall (fun ok => ok = false) oks
       /\ freerects self' = [].
Proof.
  intros Z0.
  assert (E : freerects (__init__ bx b_y rot mrg sp) = []).
  { unfold __init__; cbn.
    destruct Z0 as [-> | ->]; [reflexivity |].
    rewrite Z.eqb_refl, orb_true_r; reflexivity. }
  split; [exact E |].
  destruct (run_empty _ calls E h) as [h' R].
  exists (__init__ bx b_y rot mrg sp), h', (repeat false (List.length calls)).
  repeat split.
  - exact R.
  - apply repeat_length.
  - apply Forall_forall; intros ok Hin; apply repeat_spec in Hin; exact Hin.
  - exact E.
Qed.

Lemma zero_bin_rejects_every_insert_witness :
  freerects (__init__ 0 4 true false "default") = []
  /\ exists self' h' oks,
       run (__init__ 0 4 true false "default") (heap_of [(1, 1); (2, 3)])
           [mkCall 0%nat "first_fit" "default"; mkCall 1%nat "best_area_fit" "default"]
       = Ok (self', h', oks)
       /\ List.length oks = 2%nat
       /\ Forall (fun ok => ok = false) oks
       /\ freerects self' = [].
Proof.
  apply (zero_bin_rejects_every_insert 0 4 true false "default"
           (heap_of [(1, 1); (2, 3)])
           [mkCall 0%nat "first_fit" "default"; mkCall 1%nat "best_area_fit" "default"]).
  left; reflexivity.
Defined.

(** ** C9: statistics *)

(** What [bin_stats] returns when the bin has a non-zero area: the bin's
    width, height and area, one minus the free area over the bin area, and
    the placed items, unless the quotient is too large for a float.  The
    engine is only read. *)
Lemma bin_stats_nonzero_area (self : Guillotine) :
  x self * y self <> 0 ->
  bin_stats self
  = match SFdiv 53 1024 (int_operand (free_area self))
                (int_operand (x self * y self)) with
    | S754_infinity _ => Raise OverflowError
    | q => Ok {| stats_width := x self;
                 stats_height := y self;
                 stats_area := x self * y self;
                 stats_efficiency := float_sub float_one q;
                 stats_items := items self |}
    end.
Proof.
  intros N; unfold bin_stats, truediv.
  destruct (Z.eqb_spec (x self * y self) 0) as [E|_]; [contradiction |].
  change (sum (map (fun F => FreeRectangle.width F * FreeRectangle.height F)
                   (freerects self)))
    with (free_area self).
  destruct (SFdiv 53 1024 (int_operand (free_area self))
              (int_operand (x self * y self))); reflexivity.
Qed.

(** On a bin of area zero the division raises. *)
Lemma bin_stats_zero_area (self : Guillotine) :
  x self * y self = 0 -> bin_stats self = Raise ZeroDivisionError.
Proof.
  intros E; unfold bin_stats, truediv; rewrite E; reflexivity.
Qed.

(** C9. [bin_stats] on the engine built with bin width 0 and bin height
    4 does not return a result: the division by the bin area is not
    guarded and raises [ZeroDivisionError]. *)
Theorem bin_stats_raises_on_zero_bin :
  bin_stats (__init__ 0 4 true false "default") = Raise ZeroDivisionError.
Proof. reflexivity. Qed.

(** ** C4: an insert that fails *)

(** C4. In the default bin of width 8 and height 4 (rotation enabled),
    an item of width 9 and height 5 fits in neither orientation.
    [insert] with [best_area_fit] returns failure and leaves the engine as
    it was, but the item does not stay as it was: it comes back with width
    5, height 9 and its rotation flag set. *)
Theorem failed_generic_insert_rotates_item :
  exists h',
    insert (__init__ 8 4 true false "default") (heap_of [(9, 5)]) 0%nat
           "best_area_fit" "default"
    = Ok (__init__ 8 4 true false "default", h', false)
    /\ heap_of [(9, 5)] 0%nat
       = {| Item.width := 9; Item.height := 5;
            Item.CornerPoint := None; Item.rotated := false |}
    /\ h' 0%nat
       = {| Item.width := 5; Item.height := 9;
            Item.CornerPoint := None; Item.rotated := true |}.
Proof.
  eexists; split; [lazy; reflexivity |].
  split; reflexivity.
Qed.

(** ** C1, C2, C5: what the merge pass does to the packing *)

(** C1. In a 4 x 4 bin with the merge pass enabled, the items 2x1, 3x1,
    2x2 and 1x2 are inserted with [first_fit]; all four insertions
    succeed, and afterwards the second item, at (0, 1), and the fourth,
    at (2, 0), overlap: the no-overlap invariant does not hold. *)
Theorem merge_pass_lets_items_overlap :
  exists self h,
    run engine_4x4 items_4x4 calls_4x4 = Ok (self, h, [true; true; true; true])
    /\ item_rect (h 1%nat) = Some (FreeRectangle.mk 3 1 0 1)
    /\ item_rect (h 3%nat) = Some (FreeRectangle.mk 1 2 2 0)
    /\ overlap (FreeRectangle.mk 3 1 0 1) (FreeRectangle.mk 1 2 2 0) = true
    /\ ~ no_overlap self h.
Proof.
  do 2 eexists; split; [lazy; reflexivity |].
  repeat split.
  intros [Hp _].
  cbn in Hp.
  destruct Hp as (_ & H1 & _).
  inversion H1 as [|? ? _ H2]; subst.
  inversion H2 as [|? ? Hov _]; subst.
  discriminate Hov.
Qed.

(** C2. In the same bin, after the first three insertions the placed
    items have area 9 and the free rectangles have area 8, which is not
    the bin's area 16. *)
Theorem merge_pass_changes_total_area :
  exists self h,
    run engine_4x4 items_4x4 (firstn 3 calls_4x4) = Ok (self, h, [true; true; true])
    /\ placed_area self h = 9
    /\ free_area self = 8
    /\ x self * y self = 16
    /\ ~ area_conserved self h.
Proof.
  do 2 eexists; split; [lazy; reflexivity |].
  repeat split.
  intros A; unfold area_conserved in A; discriminate A.
Qed.

(** C5. The third of these insertions places its item and leaves the
    free list [(2,1,2,0); (1,1,3,1); (2,2,2,2)] to the merge pass.  For
    the rectangle (2,1,2,0) the pass takes (1,1,3,1) as the rectangle to
    merge with: the two share neither x and width nor y and height, yet
    they are replaced by (2,2,2,0). *)
Theorem merge_pass_merges_unaligned_pair :
  let F := FreeRectangle.mk 2 1 2 0 in
  let M := FreeRectangle.mk 1 1 3 1 in
  let L := [F; M; FreeRectangle.mk 2 2 2 2] in
  (exists self h oks self' h',
      run engine_4x4 items_4x4 (firstn 2 calls_4x4) = Ok (self, h, oks)
      /\ first_fit self h 2%nat = Ok (self', h', true)
      /\ freerects self' = L)
  /\ matching_widths F L = [FreeRectangle.mk 2 2 2 2]
  /\ widths_adjacent F L = [M]
  /\ mergeable F M = false
  /\ merge_body F L = Ok [FreeRectangle.mk 2 2 2 2; FreeRectangle.mk 2 2 2 0].
Proof.
  cbv zeta; split.
  - do 5 eexists; split; [lazy; reflexivity |].
    split; lazy; reflexivity.
  - repeat split.
Qed.

(** ** C10: the merge pass can raise *)

(** C10. In a 6 x 6 bin with the merge pass enabled and the policy
    [SplitShorterAxis], six items are inserted with [first_fit].  The
    first five insertions succeed; the sixth places its item and hands
    the merge pass a free list on which it raises [ValueError]: the
    rectangle (1,1,1,2) is removed by the merge of the first [if], and the
    second [if] removes it again. *)
Theorem merge_pass_raises_ValueError :
  let F := FreeRectangle.mk 1 1 1 2 in
  let L := [FreeRectangle.mk 1 2 0 4; F; FreeRectangle.mk 4 1 2 2;
            FreeRectangle.mk 4 3 2 3; FreeRectangle.mk 1 1 1 5] in
  let L1 := [FreeRectangle.mk 1 2 0 4; FreeRectangle.mk 4 1 2 2;
             FreeRectangle.mk 1 1 1 5; FreeRectangle.mk 1 4 1 2] in
  run engine_6x6 items_6x6 calls_6x6 = Raise ValueError
  /\ (exists self h self' h',
        run engine_6x6 items_6x6 (firstn 5 calls_6x6)
        = Ok (self, h, [true; true; true; true; true])
        /\ first_fit self h 5%nat = Ok (self', h', true)
        /\ freerects self' = L
        /\ rectangle_merge self' = Raise ValueError)
  /\ merge_widths F (matching_widths F L) L = Ok L1
  /\ matching_heights F L = [FreeRectangle.mk 4 1 2 2]
  /\ heights_adjacent F L1 = [FreeRectangle.mk 4 1 2 2]
  /\ list_remove F L1 = Raise ValueError
  /\ merge_heights F (matching_heights F L) L1 = Raise ValueError.
Proof.
  cbv zeta; split; [vm_compute; reflexivity |].
  split.
  - do 4 eexists; split; [lazy; reflexivity |].
    repeat split; lazy; reflexivity.
  - repeat split.
Qed.

(** ** C3: the choice between the two orientations *)

Lemma list_remove_In (v : FreeRect) (l : list FreeRect) :
  In v l -> exists l', list_remove v l = Ok l'.
Proof.
  induction l as [|r l IH]; intros Hin; [destruct Hin |].
  cbn [list_remove].
  destruct (FreeRectangle.eqb r v) eqn:E; [eexists; reflexivity |].
  destruct Hin as [-> | Hin].
  - rewrite FreeRectangle_eqb_refl in E; discriminate.
  - destruct (IH Hin) as [l' ->]; eexists; reflexivity.
Qed.

Lemma fold_left_pick_In (f : FreeRect -> FreeRect -> FreeRect)
    (l : list FreeRect) (a : FreeRect) :
  (forall u v, f u v = u \/ f u v = v) ->
  In (fold_left f l a) (a :: l).
Proof.
  intros Hf; revert a; induction l as [|b l IH]; intros a; [left; reflexivity |].
  cbn [fold_left].
  specialize (IH (f a b)).
  destruct (Hf a b) as [E | E]; rewrite E in *.
  - destruct IH as [E' | Hin]; [left; exact E' | right; right; exact Hin].
  - right; exact IH.
Qed.

Lemma rectangle_reduce_In (l : list FreeRect) (op : Z -> Z -> bool)
    (field : string) (a : FreeRect) :
  _rectangle_reduce l op field = Ok (Some a) -> In a l.
Proof.
  destruct l as [|first rest]; [discriminate |].
  unfold _rectangle_reduce.
  repeat match goal with
         | |- context [if String.eqb ?s ?t then _ else _] =>
             destruct (String.eqb s t)
         end;
    try discriminate;
    intros E; injection E as <-;
    apply fold_left_pick_In; intros u v;
    match goal with
    | |- context [if ?c then _ else _] => destruct c; auto
    end.
Qed.

Lemma fitted_rects_In (self : Guillotine) (it : Item.t) (rot : bool) (r : FreeRect) :
  In r (_fitted_rects self it rot) -> In r (freerects self).
Proof. unfold _fitted_rects; intros Hin; apply filter_In in Hin; tauto. Qed.

(** Placing an item in a rectangle of the free list succeeds. *)
Lemma place_In (self : Guillotine) (h : Heap) (item : ref) (r : FreeRect) :
  In r (freerects self) ->
  exists l,
    list_remove r (freerects self) = Ok l
    /\ place self h item r
       = Ok (let h' := upd h item
                         (Item.set_CornerPoint (h item)
                            (FreeRectangle.x r, FreeRectangle.y r)) in
             (set_freerects (set_items self (items self ++ [item]))
                (l ++ _split_free_rect self (h' item) r),
              h', true)).
Proof.
  intros Hin.
  destruct (list_remove_In r (freerects self) Hin) as [l E].
  exists l; split; [exact E |].
  unfold place; cbn [freerects set_items].
  rewrite E; reflexivity.
Qed.

Lemma FreeRectangle_ltb_width (a b : FreeRect) :
  (FreeRectangle.width b < FreeRectangle.width a -> FreeRectangle.ltb b a = true)
  /\ (FreeRectangle.width a < FreeRectangle.width b -> FreeRectangle.ltb b a = false).
Proof.
  unfold FreeRectangle.ltb; split; intros L;
    destruct (Z.eqb_spec (FreeRectangle.width b) (FreeRectangle.width a));
    lia.
Qed.

(** C3 as it is worded fails: in the 8 x 5 bin, after a 4x2 item has
    been placed, the candidates for a 2x4 item under [best_height_fit]
    are (4,5,4,0) unrotated and (4,3,0,2) rotated.  They have the same
    width, and the engine takes the rotated one. *)
Lemma rotation_choice_is_not_by_width_alone :
  exists self h,
    run engine_8x5 items_8x5 [first_fit_call 0%nat] = Ok (self, h, [true])
    /\ rotation self = true
    /\ _rectangle_reduce (_fitted_rects self (h 1%nat) false) Z.ltb "height"
       = Ok (Some (FreeRectangle.mk 4 5 4 0))
    /\ _rectangle_reduce (_fitted_rects self (h 1%nat) true) Z.ltb "height"
       = Ok (Some (FreeRectangle.mk 4 3 0 2))
    /\ ~ chooses_by_width self h 1%nat "height" Z.ltb.
Proof.
  do 2 eexists; split; [lazy; reflexivity |].
  split; [reflexivity |].
  split; [reflexivity |].
  split; [reflexivity |].
  intros C.
  destruct (C (FreeRectangle.mk 4 5 4 0) (FreeRectangle.mk 4 3 0 2) "default"
              eq_refl eq_refl eq_refl) as (self' & h' & E & Hh).
  lazy in E.
  injection E as _ <-.
  lazy in Hh.
  discriminate Hh.
Qed.

(** When the two candidates are the same rectangle, [min] returns the
    unrotated one, but the test [best == smallest_rotated] holds as well:
    in the fresh 8 x 4 bin a 3x2 item inserted with [best_area_fit] is
    placed turned, as 2x3. *)
Lemma equal_candidates_turn_the_item :
  exists self' h',
    insert (__init__ 8 4 true false "default") (heap_of [(3, 2)]) 0%nat
           "best_area_fit" "default"
    = Ok (self', h', true)
    /\ h' 0%nat
       = {| Item.width := 2; Item.height := 3;
            Item.CornerPoint := Some (0, 0); Item.rotated := true |}
    /\ freerects self' = [FreeRectangle.mk 6 3 2 0; FreeRectangle.mk 8 1 0 3].
Proof.
  do 2 eexists; split; [lazy; reflexivity |].
  split; reflexivity.
Qed.

(** C3 (amended). With rotation enabled, when both orientations have a
    best candidate and the two candidates differ, the engine takes the
    smaller of the two in the order of the tuples (width, height, x, y):
    the narrower one when the widths differ.  That candidate is removed
    from the free list and split, and the item is placed at its origin;
    the item is turned when the rotated candidate is the smaller one and
    left as it is when the unrotated candidate is. *)
Theorem generic_algo_takes_smaller_tuple
    (self : Guillotine) (h : Heap) (item : ref) (field : string)
    (op : Z -> Z -> bool) (sh : string) (a b : FreeRect) :
  rotation self = true ->
  _rectangle_reduce (_fitted_rects self (h item) false) op field = Ok (Some a) ->
  _rectangle_reduce (_fitted_rects self (h item) true) op field = Ok (Some b) ->
  a <> b ->
  let rotated_wins := FreeRectangle.ltb b a in
  let best := if rotated_wins then b else a in
  (FreeRectangle.width b < FreeRectangle.width a -> rotated_wins = true)
  /\ (FreeRectangle.width a < FreeRectangle.width b -> rotated_wins = false)
  /\ exists self' h' l,
       _generic_algo self h item field op sh = Ok (self', h', true)
       /\ h' item
          = Item.set_CornerPoint
              (if rotated_wins then Item.rotate (h item) else h item)
              (FreeRectangle.x best, FreeRectangle.y best)
       /\ items self' = (items self ++ [item])%list
       /\ list_remove best (freerects self) = Ok l
       /\ freerects self' = (l ++ _split_free_rect self (h' item) best)%list.
Proof.
  intros Hrot Ha Hb Hne rotated_wins best.
  split; [apply FreeRectangle_ltb_width |].
  split; [apply FreeRectangle_ltb_width |].
  assert (Hin : In best (freerects self)).
  { unfold best; destruct rotated_wins.
    - eapply fitted_rects_In, rectangle_reduce_In; exact Hb.
    - eapply fitted_rects_In, rectangle_reduce_In; exact Ha. }
  unfold _generic_algo.
  rewrite Ha, Hrot; cbn [bind].
  rewrite Hb; cbn [bind _compare_two_freerects opt_eqb].
  unfold FreeRectangle.min; fold rotated_wins.
  assert (Eq : FreeRectangle.eqb (if rotated_wins then b else a) b = rotated_wins).
  { destruct rotated_wins.
    - apply FreeRectangle_eqb_refl.
    - apply FreeRectangle_eqb_neq; exact Hne. }
  rewrite Eq; fold best.
  destruct (place_In self
              (if rotated_wins then upd h item (Item.rotate (h item)) else h)
              item best Hin) as (l & El & ->).
  do 2 eexists; exists l; split; [reflexivity |].
  rewrite upd_same.
  assert (Eh : (if rotated_wins then upd h item (Item.rotate (h item)) else h) item
               = if rotated_wins then Item.rotate (h item) else h item).
  { destruct rotated_wins; [apply upd_same | reflexivity]. }
  rewrite Eh; auto.
Qed.

Lemma generic_algo_takes_smaller_tuple_witness :
  let self := set_freerects engine_8x5
                [FreeRectangle.mk 4 5 4 0; FreeRectangle.mk 4 3 0 2] in
  exists self' h' l,
    _generic_algo self items_8x5 1%nat "height" Z.ltb "default" = Ok (self', h', true)
    /\ h' 1%nat
       = {| Item.width := 4; Item.height := 2;
            Item.CornerPoint := Some (0, 2); Item.rotated := true |}
    /\ items self' = [1%nat]
    /\ list_remove (FreeRectangle.mk 4 3 0 2) (freerects self) = Ok l
    /\ freerects self' = (l ++ [FreeRectangle.mk 4 1 0 4])%list.
Proof.
  cbv zeta.
  assert (Hne : FreeRectangle.mk 4 5 4 0 <> FreeRectangle.mk 4 3 0 2)
    by discriminate.
  destruct (generic_algo_takes_smaller_tuple
              (set_freerects engine_8x5
                 [FreeRectangle.mk 4 5 4 0; FreeRectangle.mk 4 3 0 2])
              items_8x5 1%nat "height" Z.ltb "default"
              (FreeRectangle.mk 4 5 4 0) (FreeRectangle.mk 4 3 0 2)
              eq_refl eq_refl eq_refl Hne)
    as (_ & _ & self' & h' & l & E & Hh & Hi & El & Ef).
  exists self', h', l.
  rewrite Hh in Ef.
  repeat split; assumption.
Defined.

(** ** The merge loop terminates *)

Lemma list_remove_length (v : FreeRect) (l l' : list FreeRect) :
  list_remove v l = Ok l' -> List.length l = S (List.length l').
Proof.
  revert l'; induction l as [|r l IH]; intros l' E; [discriminate |].
  cbn [list_remove] in E.
  destruct (FreeRectangle.eqb r v).
  - injection E as <-; reflexivity.
  - destruct (list_remove v l) as [l0|e]; [|discriminate].
    injection E as <-; cbn; rewrite (IH l0 eq_refl); reflexivity.
Qed.

Lemma replace_pair_length (f m r : FreeRect) (l l' : list FreeRect) :
  replace_pair f m r l = Ok l' -> S (List.length l') = List.length l.
Proof.
  unfold replace_pair; intros E.
  destruct (list_remove f l) as [l1|e] eqn:E1; [|discriminate].
  cbn [bind] in E.
  destruct (list_remove m l1) as [l2|e] eqn:E2; [|discriminate].
  injection E as <-.
  apply list_remove_length in E1, E2.
  rewrite length_app; cbn; lia.
Qed.

Lemma merge_widths_length (f : FreeRect) (mw l l' : list FreeRect) :
  merge_widths f mw l = Ok l' -> (List.length l' <= List.length l)%nat.
Proof.
  unfold merge_widths; intros E.
  destruct (nonempty mw); [|injection E as <-; lia].
  destruct (widths_adjacent f l); [injection E as <-; lia |].
  apply replace_pair_length in E; lia.
Qed.

Lemma merge_heights_length (f : FreeRect) (mh l l' : list FreeRect) :
  merge_heights f mh l = Ok l' -> (List.length l' <= List.length l)%nat.
Proof.
  unfold merge_heights; intros E.
  destruct (nonempty mh); [|injection E as <-; lia].
  destruct (heights_adjacent f l); [injection E as <-; lia |].
  apply replace_pair_length in E; lia.
Qed.

Lemma merge_body_length (f : FreeRect) (l l' : list FreeRect) :
  merge_body f l = Ok l' -> (List.length l' <= List.length l)%nat.
Proof.
  unfold merge_body; intros E.
  destruct (merge_widths f (matching_widths f l) l) as [l1|e] eqn:E1;
    [|discriminate].
  cbn [bind] in E.
  apply merge_widths_length in E1.
  apply merge_heights_length in E.
  lia.
Qed.

(** The loop never stops for lack of fuel: once the fuel covers the part
    of the list that is still ahead of the iterator, more fuel changes
    nothing.  [rectangle_merge] starts with the length of the list. *)
Lemma merge_loop_enough_fuel (fuel k : nat) :
  forall (i : nat) (l : list FreeRect),
    (List.length l <= i + fuel)%nat ->
    merge_loop (fuel + k) i l = merge_loop fuel i l.
Proof.
  induction fuel as [|fuel IH]; intros i l Hlen.
  - assert (N : nth_error l i = None) by (apply nth_error_None; lia).
    destruct k; cbn [merge_loop Nat.add]; rewrite N; reflexivity.
  - cbn [merge_loop Nat.add].
    destruct (nth_error l i) as [f|]; [|reflexivity].
    destruct (merge_body f l) as [l'|e] eqn:E; [|reflexivity].
    cbn [bind].
    apply IH.
    apply merge_body_length in E; lia.
Qed.

(** So the fuel [rectangle_merge] starts with is enough: the pass ends
    because the iterator is exhausted or because a removal raised. *)
Lemma rectangle_merge_fuel (self : Guillotine) (k : nat) :
  merge_loop (List.length (freerects self) + k) 0 (freerects self)
  = merge_loop (List.length (freerects self)) 0 (freerects self).
Proof. apply merge_loop_enough_fuel; lia. Qed.

(** ** What an insertion does *)

Lemma fitted_rects_fits (self : Guillotine) (it : Item.t) (rot : bool) (r : FreeRect) :
  In r (_fitted_rects self it rot) ->
  In r (freerects self) /\ fits r (if rot then Item.rotate it else it).
Proof.
  unfold _fitted_rects; intros Hin.
  apply filter_In in Hin; destruct Hin as [Hin Hfit].
  split; [exact Hin |].
  apply andb_true_iff in Hfit.
  rewrite !Z.geb_le in Hfit.
  unfold fits; destruct rot; cbn in *; tauto.
Qed.

Lemma rectangle_reduce_metric (l : list FreeRect) (op : Z -> Z -> bool)
    (field : string) :
  metric_name field ->
  exists o,
    _rectangle_reduce l op field = Ok o
    /\ (forall a, o = Some a -> In a l).
Proof.
  intros M.
  destruct (_rectangle_reduce l op field) as [o|e] eqn:E.
  - exists o; split; [reflexivity |].
    intros a ->; eapply rectangle_reduce_In; exact E.
  - exfalso.
    destruct l as [|first rest]; [discriminate |].
    destruct M as [-> | [-> | ->]]; discriminate.
Qed.

(** [first_fit] either finds nothing and changes nothing, or places the
    item in a free rectangle it fits in, turned first when only the
    rotated orientation fits. *)
Lemma first_fit_cases (self : Guillotine) (h : Heap) (item : ref) :
  first_fit self h item = Ok (self, h, false)
  \/ exists h1 best,
       (h1 = h \/ (rotation self = true /\ h1 = upd h item (Item.rotate (h item))))
       /\ In best (freerects self)
       /\ fits best (h1 item)
       /\ first_fit self h item = place self h1 item best.
Proof.
  unfold first_fit.
  destruct (_fitted_rects self (h item) false) as [|f1 l1] eqn:E1; cbn.
  - destruct (rotation self) eqn:R; [|left; reflexivity].
    destruct (_fitted_rects self (h item) true) as [|f2 l2] eqn:E2; cbn;
      [left; reflexivity |].
    right; exists (upd h item (Item.rotate (h item))), f2.
    destruct (fitted_rects_fits self (h item) true f2) as [Hin Hfit];
      [rewrite E2; left; reflexivity |].
    rewrite upd_same; auto.
  - right; exists h, f1.
    destruct (fitted_rects_fits self (h item) false f1) as [Hin Hfit];
      [rewrite E1; left; reflexivity |].
    auto.
Qed.

(** [_generic_algo] either finds nothing, or places the item in a free
    rectangle it fits in; in both cases the item may have been turned. *)
Lemma generic_algo_cases (self : Guillotine) (h : Heap) (item : ref)
    (field : string) (op : Z -> Z -> bool) (sh : string) :
  metric_name field ->
  (exists h1,
      (h1 = h \/ (rotation self = true /\ h1 = upd h item (Item.rotate (h item))))
      /\ _generic_algo self h item field op sh = Ok (self, h1, false))
  \/ (exists h1 best,
        (h1 = h \/ (rotation self = true /\ h1 = upd h item (Item.rotate (h item))))
        /\ In best (freerects self)
        /\ fits best (h1 item)
        /\ _generic_algo self h item field op sh = place self h1 item best).
Proof.
  intros M.
  destruct (rectangle_reduce_metric (_fitted_rects self (h item) false) op field M)
    as (oa & Ea & Ia).
  destruct (rectangle_reduce_metric (_fitted_rects self (h item) true) op field M)
    as (ob & Eb & Ib).
  assert (Fa : forall a, oa = Some a -> In a (freerects self) /\ fits a (h item)).
  { intros a E; apply (fitted_rects_fits self (h item) false), Ia, E. }
  assert (Fb : forall b, ob = Some b ->
                         In b (freerects self) /\ fits b (Item.rotate (h item))).
  { intros b E; apply (fitted_rects_fits self (h item) true), Ib, E. }
  unfold _generic_algo; rewrite Ea; cbn [bind].
  destruct (rotation self) eqn:R.
  - rewrite Eb; cbn [bind].
    destruct oa as [a|], ob as [b|]; cbn [_compare_two_freerects opt_eqb].
    + destruct (Fa a eq_refl) as [Hina Hfa], (Fb b eq_refl) as [Hinb Hfb].
      unfold FreeRectangle.min.
      destruct (FreeRectangle.ltb b a).
      * rewrite FreeRectangle_eqb_refl.
        right; exists (upd h item (Item.rotate (h item))), b.
        rewrite upd_same; auto.
      * destruct (FreeRectangle.eqb a b) eqn:Eab.
        -- apply FreeRectangle_eqb_eq in Eab; subst b.
           right; exists (upd h item (Item.rotate (h item))), a.
           rewrite upd_same; auto.
        -- right; exists h, a; auto.
    + destruct (Fa a eq_refl) as [Hina Hfa].
      right; exists h, a; auto.
    + destruct (Fb b eq_refl) as [Hinb Hfb].
      rewrite FreeRectangle_eqb_refl.
      right; exists (upd h item (Item.rotate (h item))), b.
      rewrite upd_same; auto.
    + left; exists (upd h item (Item.rotate (h item))); auto.
  - cbn [bind].
    destruct oa as [a|].
    + destruct (Fa a eq_refl) as [Hina Hfa].
      right; exists h, a; auto.
    + left; exists h; auto.
Qed.

Lemma insert_cases (self : Guillotine) (h : Heap) (item : ref)
    (heuristic sh : string) :
  (exists h1,
      (h1 = h \/ (rotation self = true /\ h1 = upd h item (Item.rotate (h item))))
      /\ insert self h item heuristic sh = Ok (self, h1, false))
  \/ (exists h1 best,
        (h1 = h \/ (rotation self = true /\ h1 = upd h item (Item.rotate (h item))))
        /\ In best (freerects self)
        /\ fits best (h1 item)
        /\ insert self h item heuristic sh
           = after_placement (place self h1 item best)).
Proof.
  assert (G : forall field op,
             metric_name field ->
             (exists h1,
                 (h1 = h \/ (rotation self = true /\ h1 = upd h item (Item.rotate (h item))))
                 /\ after_placement (_generic_algo self h item field op sh)
                    = Ok (self, h1, false))
             \/ (exists h1 best,
                   (h1 = h \/ (rotation self = true /\ h1 = upd h item (Item.rotate (h item))))
                   /\ In best (freerects self)
                   /\ fits best (h1 item)
                   /\ after_placement (_generic_algo self h item field op sh)
                      = after_placement (place self h1 item best))).
  { intros field op M.
    destruct (generic_algo_cases self h item field op sh M)
      as [(h1 & Hh & ->) | (h1 & best & Hh & Hin & Hfit & ->)].
    - left; exists h1; auto.
    - right; exists h1, best; auto. }
  unfold insert.
  destruct (String.eqb heuristic "first_fit").
  { destruct (first_fit_cases self h item)
      as [-> | (h1 & best & Hh & Hin & Hfit & ->)].
    - left; exists h; auto.
    - right; exists h1, best; auto. }
  repeat match goal with
         | |- context [if String.eqb heuristic ?s then _ else _] =>
             destruct (String.eqb heuristic s);
             [apply G; unfold metric_name; auto |]
         end.
  left; exists h; auto.
Qed.

(** Without the merge pass an insertion never raises: it fails and
    leaves the engine alone, or it places the item, removes the chosen
    rectangle and appends the pieces of the split. *)
Lemma insert_without_merge (self : Guillotine) (h : Heap) (item : ref)
    (heuristic sh : string) :
  rMerge self = false ->
  (exists h1,
      (h1 = h \/ (rotation self = true /\ h1 = upd h item (Item.rotate (h item))))
      /\ insert self h item heuristic sh = Ok (self, h1, false))
  \/ (exists h1 best l,
        (h1 = h \/ (rotation self = true /\ h1 = upd h item (Item.rotate (h item))))
        /\ In best (freerects self)
        /\ fits best (h1 item)
        /\ list_remove best (freerects self) = Ok l
        /\ insert self h item heuristic sh
           = Ok (set_freerects (set_items self (items self ++ [item]))
                   (l ++ _split_free_rect self
                           (Item.set_CornerPoint (h1 item)
                              (FreeRectangle.x best, FreeRectangle.y best))
                           best),
                 upd h1 item
                   (Item.set_CornerPoint (h1 item)
                      (FreeRectangle.x best, FreeRectangle.y best)),
                 true)).
Proof.
  intros Hm.
  destruct (insert_cases self h item heuristic sh)
    as [(h1 & Hh & E) | (h1 & best & Hh & Hin & Hfit & E)].
  - left; exists h1; auto.
  - right.
    destruct (place_In self h1 item best Hin) as (l & El & Ep).
    exists h1, best, l.
    rewrite E, Ep; cbv zeta; unfold after_placement; cbn [bind rMerge set_freerects set_items].
    rewrite Hm, upd_same; auto 6.
Qed.

(** ** A failed insertion *)

Lemma after_placement_place_succeeds (self : Guillotine) (h : Heap) (item : ref)
    (best : FreeRect) (self' : Guillotine) (h' : Heap) :
  In best (freerects self) ->
  after_placement (place self h item best) <> Ok (self', h', false).
Proof.
  intros Hin E.
  destruct (place_In self h item best Hin) as (l & _ & Ep).
  rewrite Ep in E; cbv zeta in E; unfold after_placement in E; cbn [bind] in E.
  match type of E with
  | context [if ?b then _ else _] => destruct b
  end; [|discriminate].
  match type of E with
  | context [rectangle_merge ?s] => destruct (rectangle_merge s)
  end; discriminate.
Qed.

(** X12. When [insert] returns failure the engine is as it was, and the
    only thing that can have happened to the heap is that the item was
    turned (which needs rotation to be enabled). *)
Lemma failed_insert_keeps_engine (self self' : Guillotine) (h h' : Heap)
    (item : ref) (heuristic sh : string) :
  insert self h item heuristic sh = Ok (self', h', false) ->
  self' = self
  /\ (h' = h \/ (rotation self = true /\ h' = upd h item (Item.rotate (h item)))).
Proof.
  intros E.
  destruct (insert_cases self h item heuristic sh)
    as [(h1 & Hh & E1) | (h1 & best & Hh & Hin & Hfit & E1)];
    rewrite E1 in E.
  - injection E as <- <-; auto.
  - exfalso; eapply after_placement_place_succeeds; eassumption.
Qed.

(** X13. With [first_fit] a failed insertion changes nothing at all:
    neither the engine nor any item. *)
Lemma first_fit_failure_changes_nothing (self self' : Guillotine) (h h' : Heap)
    (item : ref) (sh : string) :
  insert self h item "first_fit" sh = Ok (self', h', false) ->
  self' = self /\ h' = h.
Proof.
  unfold insert; cbn [String.eqb Ascii.eqb Bool.eqb]; intros E.
  destruct (first_fit_cases self h item)
    as [E1 | (h1 & best & Hh & Hin & Hfit & E1)]; rewrite E1 in E.
  - injection E as <- <-; auto.
  - exfalso; eapply after_placement_place_succeeds; eassumption.
Qed.

(** ** Area conservation without the merge pass *)

Lemma fold_left_add_acc (l : list Z) (a : Z) :
  fold_left Z.add l a = a + fold_left Z.add l 0.
Proof.
  revert a; induction l as [|b l IH]; intros a; cbn [fold_left]; [lia |].
  rewrite (IH (a + b)), (IH (0 + b)); lia.
Qed.

Lemma sum_cons (a : Z) (l : list Z) : sum (a :: l) = a + sum l.
Proof. unfold sum; cbn [fold_left]; rewrite fold_left_add_acc; lia. Qed.

Lemma sum_app (l1 l2 : list Z) : sum (l1 ++ l2) = sum l1 + sum l2.
Proof.
  induction l1 as [|a l1 IH]; [reflexivity |].
  cbn [app]; rewrite !sum_cons, IH; lia.
Qed.

Lemma list_remove_area (v : FreeRect) (l l' : list FreeRect) :
  list_remove v l = Ok l' ->
  sum (map FreeRectangle.area l)
  = FreeRectangle.area v + sum (map FreeRectangle.area l').
Proof.
  revert l'; induction l as [|r l IH]; intros l' E; [discriminate |].
  cbn [list_remove] in E.
  destruct (FreeRectangle.eqb r v) eqn:Erv.
  - injection E as <-.
    apply FreeRectangle_eqb_eq in Erv; subst r.
    cbn [map]; rewrite sum_cons; reflexivity.
  - destruct (list_remove v l) as [l0|e]; [|discriminate].
    injection E as <-.
    cbn [map]; rewrite !sum_cons, (IH l0 eq_refl); lia.
Qed.

(** The pieces of a split have the area of the rectangle minus the area
    of the item, on either axis. *)
Lemma split_along_axis_area (F : FreeRect) (it : Item.t) (split : bool) :
  well_formed it ->
  fits F it ->
  sum (map FreeRectangle.area (_split_along_axis F it split))
  = FreeRectangle.area F - Item.width it * Item.height it.
Proof.
  intros [Hw Hh] [Fw Fh].
  unfold _split_along_axis, FreeRectangle.area.
  rewrite !Z.gtb_ltb.
  destruct split;
    repeat match goal with
           | |- context [?a <? ?b] => destruct (Z.ltb_spec a b)
           end;
    cbn [andb app map FreeRectangle.width FreeRectangle.height];
    rewrite ?sum_cons; unfold sum; cbn [fold_left]; nia.
Qed.

Lemma placed_area_ext (self : Guillotine) (h h' : Heap) :
  (forall r, Item.width (h' r) * Item.height (h' r)
             = Item.width (h r) * Item.height (h r)) ->
  placed_area self h' = placed_area self h.
Proof.
  intros E; unfold placed_area; f_equal.
  apply map_ext; exact E.
Qed.

Lemma well_formed_rotate (it : Item.t) :
  well_formed it -> well_formed (Item.rotate it).
Proof. unfold well_formed; cbn; tauto. Qed.

Lemma well_formed_upd_rotate (h h1 : Heap) (item : ref) (P : Prop) :
  (forall r, well_formed (h r)) ->
  h1 = h \/ (P /\ h1 = upd h item (Item.rotate (h item))) ->
  forall r, well_formed (h1 r).
Proof.
  intros W [-> | [_ ->]] r; [apply W |].
  unfold upd; destruct (Nat.eqb r item); [apply well_formed_rotate |]; apply W.
Qed.

Lemma area_upd_rotate (h h1 : Heap) (item : ref) (P : Prop) :
  h1 = h \/ (P /\ h1 = upd h item (Item.rotate (h item))) ->
  forall r, Item.width (h1 r) * Item.height (h1 r)
            = Item.width (h r) * Item.height (h r).
Proof.
  intros [-> | [_ ->]] r; [reflexivity |].
  unfold upd; destruct (Nat.eqb_spec r item) as [-> |]; cbn; lia.
Qed.

(** One insertion without the merge pass keeps the total area. *)
Lemma insert_without_merge_area (self : Guillotine) (h : Heap) (item : ref)
    (heuristic sh : string) :
  rMerge self = false ->
  (forall r, well_formed (h r)) ->
  exists self' h' ok,
    insert self h item heuristic sh = Ok (self', h', ok)
    /\ rMerge self' = false
    /\ (forall r, well_formed (h' r))
    /\ x self' = x self /\ y self' = y self
    /\ placed_area self' h' + free_area self'
       = placed_area self h + free_area self.
Proof.
  intros Hm W.
  destruct (insert_without_merge self h item heuristic sh Hm)
    as [(h1 & Hh & E) | (h1 & best & l & Hh & Hin & Hfit & El & E)];
    rewrite E; do 3 eexists; (split; [reflexivity |]);
    pose proof (well_formed_upd_rotate h h1 item _ W Hh) as W1;
    pose proof (area_upd_rotate h h1 item _ Hh) as A1.
  - split; [exact Hm |].
    split; [exact W1 |].
    split; [reflexivity |].
    split; [reflexivity |].
    rewrite (placed_area_ext self h h1 A1); reflexivity.
  - set (it := Item.set_CornerPoint (h1 item)
                 (FreeRectangle.x best, FreeRectangle.y best)).
    split; [exact Hm |].
    split.
    { intros r; unfold upd; destruct (Nat.eqb r item); [apply (W1 item) | apply W1]. }
    split; [reflexivity |].
    split; [reflexivity |].
    assert (Ep : placed_area self (upd h1 item it) = placed_area self h).
    { apply placed_area_ext; intros r.
      rewrite <- (A1 r).
      unfold upd; destruct (Nat.eqb_spec r item) as [-> |]; reflexivity. }
    unfold placed_area in *; unfold free_area;
      cbn [items freerects set_items set_freerects].
    rewrite !map_app, !sum_app, Ep; cbn [map]; rewrite upd_same.
    unfold _split_free_rect.
    rewrite split_along_axis_area by (try exact Hfit; apply (W1 item)).
    rewrite (list_remove_area _ _ _ El).
    unfold sum at 2; cbn [fold_left Item.width Item.height Item.set_CornerPoint it].
    lia.
Qed.

Lemma run_without_merge_area (calls : list call) :
  forall (self : Guillotine) (h : Heap),
    rMerge self = false ->
    (forall r, well_formed (h r)) ->
    area_conserved self h ->
    exists self' h' oks,
      run self h calls = Ok (self', h', oks)
      /\ area_conserved self' h'.
Proof.
  induction calls as [|c calls IH]; intros self h Hm W A.
  - exists self, h, []; split; [reflexivity | exact A].
  - destruct (insert_without_merge_area self h (call_item c) (call_heuristic c)
                (call_split c) Hm W)
      as (self1 & h1 & ok & E & Hm1 & W1 & Ex & Ey & Ea).
    destruct (IH self1 h1 Hm1 W1) as (self2 & h2 & oks & R & A2).
    { unfold area_conserved in *; rewrite Ea, Ex, Ey; exact A. }
    exists self2, h2, (ok :: oks).
    cbn [run]; rewrite E; cbn [bind]; rewrite R; cbn [bind].
    split; [reflexivity | exact A2].
Qed.

Lemma init_area_conserved (bx b_y : Z) (rot mrg : bool) (sp : string) (h : Heap) :
  area_conserved (__init__ bx b_y rot mrg sp) h.
Proof.
  unfold area_conserved, placed_area, free_area, __init__;
    cbn [items freerects x y map].
  destruct (Z.eqb_spec bx 0) as [-> |]; [reflexivity |].
  destruct (Z.eqb_spec b_y 0) as [-> |]; cbn [orb map];
    unfold sum, FreeRectangle.area; cbn; lia.
Qed.

(** X16. The area invariant of the specification, for an engine without
    the merge pass: after any sequence of insert calls with well-formed
    items, no call has raised and the areas of the placed items and of
    the free rectangles add up to the area of the bin.  The same item may
    be inserted more than once. *)
Theorem area_conserved_without_merge
    (bx b_y : Z) (rot : bool) (sp : string) (h : Heap) (calls : list call) :
  (forall r, well_formed (h r)) ->
  exists self' h' oks,
    run (__init__ bx b_y rot false sp) h calls = Ok (self', h', oks)
    /\ area_conserved self' h'.
Proof.
  intros W.
  apply run_without_merge_area; [reflexivity | exact W |].
  apply init_area_conserved.
Qed.

(** ** No overlap without the merge pass *)

Lemma overlap_true_iff (a b : FreeRect) :
  overlap a b = true
  <-> FreeRectangle.x a < FreeRectangle.x b + FreeRectangle.width b
      /\ FreeRectangle.x b < FreeRectangle.x a + FreeRectangle.width a
      /\ FreeRectangle.y a < FreeRectangle.y b + FreeRectangle.height b
      /\ FreeRectangle.y b < FreeRectangle.y a + FreeRectangle.height a.
Proof.
  unfold overlap; rewrite !andb_true_iff, !Z.ltb_lt; tauto.
Qed.

Lemma overlap_false_iff (a b : FreeRect) :
  overlap a b = false
  <-> ~ (FreeRectangle.x a < FreeRectangle.x b + FreeRectangle.width b
         /\ FreeRectangle.x b < FreeRectangle.x a + FreeRectangle.width a
         /\ FreeRectangle.y a < FreeRectangle.y b + FreeRectangle.height b
         /\ FreeRectangle.y b < FreeRectangle.y a + FreeRectangle.height a).
Proof.
  rewrite <- overlap_true_iff.
  destruct (overlap a b); split; congruence.
Qed.

Lemma overlap_sym (a b : FreeRect) : overlap a b = false -> overlap b a = false.
Proof. rewrite !overlap_false_iff; tauto. Qed.

(** What lies inside a rectangle overlaps nothing the rectangle is
    disjoint from. *)
Lemma overlap_inside (a F r : FreeRect) :
  inside a F -> overlap F r = false -> overlap a r = false.
Proof.
  unfold inside; rewrite !overlap_false_iff; intros I N O; apply N; lia.
Qed.

Lemma pairwise_disjoint_cons (r : FreeRect) (l : list FreeRect) :
  pairwise_disjoint (r :: l)
  <-> (forall b, In b l -> overlap r b = false) /\ pairwise_disjoint l.
Proof. cbn [pairwise_disjoint]; rewrite Forall_forall; tauto. Qed.

Lemma pairwise_disjoint_app (l1 l2 : list FreeRect) :
  pairwise_disjoint (l1 ++ l2)
  <-> pairwise_disjoint l1 /\ pairwise_disjoint l2
      /\ (forall a b, In a l1 -> In b l2 -> overlap a b = false).
Proof.
  induction l1 as [|r l1 IH].
  - cbn; split; [intros H; repeat split; [exact H | intros a b []] | tauto].
  - cbn [app]; rewrite !pairwise_disjoint_cons, IH.
    split.
    + intros (Hr & P1 & P2 & C); repeat split; auto.
      * intros b Hb; apply Hr, in_or_app; auto.
      * intros a b [<- | Ha] Hb; [apply Hr, in_or_app; auto | apply C; auto].
    + intros ((Hr & P1) & P2 & C); repeat split; auto.
      * intros b Hb; apply in_app_or in Hb; destruct Hb as [Hb | Hb];
          [apply Hr; exact Hb | apply C; [left; reflexivity | exact Hb]].
      * intros a b Ha Hb; apply C; [right; exact Ha | exact Hb].
Qed.

Lemma list_remove_incl (v : FreeRect) (l l' : list FreeRect) :
  list_remove v l = Ok l' -> In v l /\ (forall r, In r l' -> In r l).
Proof.
  revert l'; induction l as [|r l IH]; intros l' E; [discriminate |].
  cbn [list_remove] in E.
  destruct (FreeRectangle.eqb r v) eqn:Erv.
  - injection E as <-; apply FreeRectangle_eqb_eq in Erv; subst r.
    split; [left; reflexivity | intros r Hr; right; exact Hr].
  - destruct (list_remove v l) as [l0|e]; [|discriminate].
    injection E as <-; destruct (IH l0 eq_refl) as [Hv Hi].
    split; [right; exact Hv |].
    intros r0 [<- | Hr]; [left; reflexivity | right; apply Hi, Hr].
Qed.

(** Removing a rectangle from a list of disjoint rectangles leaves
    disjoint rectangles, all disjoint from the one removed. *)
Lemma list_remove_disjoint (v : FreeRect) (l l' : list FreeRect) :
  list_remove v l = Ok l' ->
  pairwise_disjoint l ->
  pairwise_disjoint l' /\ (forall r, In r l' -> overlap v r = false).
Proof.
  revert l'; induction l as [|r l IH]; intros l' E P; [discriminate |].
  cbn [list_remove] in E.
  apply pairwise_disjoint_cons in P; destruct P as [Hr P].
  destruct (FreeRectangle.eqb r v) eqn:Erv.
  - injection E as <-; apply FreeRectangle_eqb_eq in Erv; subst r; auto.
  - destruct (list_remove v l) as [l0|e] eqn:E0; [|discriminate].
    injection E as <-.
    destruct (IH l0 eq_refl P) as [P0 H0].
    destruct (list_remove_incl _ _ _ E0) as [Hv Hi].
    split.
    + apply pairwise_disjoint_cons; split; [|exact P0].
      intros b Hb; apply Hr, Hi, Hb.
    + intros r0 [<- | Hr0]; [apply overlap_sym, Hr, Hv | apply H0, Hr0].
Qed.

Lemma occupied_inside (F : FreeRect) (it : Item.t) :
  fits F it -> inside (occupied F it) F.
Proof. unfold fits, inside, occupied; cbn; lia. Qed.

(** The pieces of a split lie inside the rectangle that was split, beside
    or above the item, and apart from each other, on either axis. *)
Lemma split_along_axis_geometry (F : FreeRect) (it : Item.t) (split : bool) :
  well_formed it ->
  fits F it ->
  (forall s, In s (_split_along_axis F it split) ->
             inside s F /\ overlap (occupied F it) s = false)
  /\ pairwise_disjoint (_split_along_axis F it split).
Proof.
  intros [Hw Hh] [Fw Fh].
  unfold _split_along_axis.
  rewrite !Z.gtb_ltb.
  destruct split;
    repeat match goal with
           | |- context [?a <? ?b] => destruct (Z.ltb_spec a b)
           end;
    cbn [andb app]; split.
  all: try (intros s Hs; cbn [In] in Hs;
            repeat match goal with
                   | H : _ \/ _ |- _ => destruct H
                   | H : False |- _ => destruct H
                   end;
            subst s; rewrite overlap_false_iff;
            unfold inside, occupied; cbn; lia).
  all: cbn [pairwise_disjoint]; repeat split; auto.
  all: repeat constructor; apply overlap_false_iff; cbn; lia.
Qed.

Lemma placed_rects_ext (self : Guillotine) (h h' : Heap) :
  (forall r, In r (items self) -> h' r = h r) ->
  placed_rects self h' = placed_rects self h.
Proof.
  unfold placed_rects; intros E.
  induction (items self) as [|r l IH]; [reflexivity |].
  cbn [flat_map]; rewrite E by (left; reflexivity).
  rewrite IH; [reflexivity |].
  intros r0 Hr0; apply E; right; exact Hr0.
Qed.

Lemma placed_rects_snoc (self : Guillotine) (h : Heap) (item : ref)
    (l : list FreeRect) (it : Item.t) (F : FreeRect) :
  h item = Item.set_CornerPoint it (FreeRectangle.x F, FreeRectangle.y F) ->
  placed_rects (set_freerects (set_items self (items self ++ [item])) l) h
  = (placed_rects self h ++ [occupied F it])%list.
Proof.
  intros E; unfold placed_rects; cbn [items set_freerects set_items].
  rewrite flat_map_app; cbn [flat_map]; rewrite E; reflexivity.
Qed.

(** One insertion of an item that is not yet in the bin, without the
    merge pass, keeps placed items and free rectangles all disjoint. *)
Lemma insert_without_merge_disjoint (self : Guillotine) (h : Heap) (item : ref)
    (heuristic sh : string) :
  rMerge self = false ->
  (forall r, well_formed (h r)) ->
  ~ In item (items self) ->
  pairwise_disjoint (placed_rects self h ++ freerects self) ->
  exists self' h' ok,
    insert self h item heuristic sh = Ok (self', h', ok)
    /\ rMerge self' = false
    /\ (forall r, well_formed (h' r))
    /\ (forall r, In r (items self') -> In r (items self) \/ r = item)
    /\ pairwise_disjoint (placed_rects self' h' ++ freerects self').
Proof.
  intros Hm W Hfresh P.
  assert (Keep : forall h1 : Heap,
             h1 = h \/ (rotation self = true
                        /\ h1 = upd h item (Item.rotate (h item))) ->
             forall r, In r (items self) -> h1 r = h r).
  { intros h1 [-> | [_ ->]] r Hr; [reflexivity |].
    apply upd_other; intros ->; contradiction. }
  destruct (insert_without_merge self h item heuristic sh Hm)
    as [(h1 & Hh & E) | (h1 & best & l & Hh & Hin & Hfit & El & E)];
    rewrite E; do 3 eexists; (split; [reflexivity |]).
  - split; [exact Hm |].
    split; [eapply well_formed_upd_rotate; eauto |].
    split; [auto |].
    rewrite (placed_rects_ext self h h1 (Keep h1 Hh)); exact P.
  - assert (W1 : forall r, well_formed (h1 r))
      by (eapply well_formed_upd_rotate; eauto).
    set (it := h1 item) in *.
    set (h2 := upd h1 item
                 (Item.set_CornerPoint it
                    (FreeRectangle.x best, FreeRectangle.y best))).
    split; [exact Hm |].
    split.
    { intros r; unfold h2, upd; destruct (Nat.eqb r item); [|apply W1].
      apply (W1 item). }
    split.
    { cbn [items set_freerects set_items]; intros r Hr.
      apply in_app_or in Hr; destruct Hr as [Hr | [<- | []]]; auto. }
    rewrite (placed_rects_snoc self h2 item _ it best) by apply upd_same.
    assert (Ep : placed_rects self h2 = placed_rects self h).
    { apply placed_rects_ext; intros r Hr.
      unfold h2; rewrite upd_other by (intros ->; contradiction).
      apply Keep; assumption. }
    rewrite Ep; cbn [freerects set_freerects].
    apply pairwise_disjoint_app in P; destruct P as (Pp & Pf & Cross).
    destruct (list_remove_disjoint _ _ _ El Pf) as [Pl Hl].
    destruct (list_remove_incl _ _ _ El) as [_ Il].
    assert (Wit : well_formed (Item.set_CornerPoint it
                                 (FreeRectangle.x best, FreeRectangle.y best)))
      by apply (W1 item).
    assert (Fit : fits best (Item.set_CornerPoint it
                               (FreeRectangle.x best, FreeRectangle.y best)))
      by exact Hfit.
    destruct (split_along_axis_geometry best _
                (split_axis (split_heuristic self)
                   (Item.set_CornerPoint it
                      (FreeRectangle.x best, FreeRectangle.y best)) best)
                Wit Fit) as [Gs Ps].
    fold (_split_free_rect self
            (Item.set_CornerPoint it (FreeRectangle.x best, FreeRectangle.y best))
            best) in Gs, Ps.
    change (occupied best (Item.set_CornerPoint it
              (FreeRectangle.x best, FreeRectangle.y best)))
      with (occupied best it) in Gs.
    pose proof (occupied_inside best it Hfit) as Io.
    assert (Cb : forall a, In a (placed_rects self h) -> overlap best a = false).
    { intros a Ha; apply overlap_sym, Cross; assumption. }
    apply pairwise_disjoint_app; repeat split.
    + apply pairwise_disjoint_app; repeat split; auto.
      intros a b Ha [<- | []].
      apply overlap_sym, (overlap_inside _ _ _ Io), Cb, Ha.
    + apply pairwise_disjoint_app; repeat split; auto.
      intros a b Ha Hb.
      apply overlap_sym, (overlap_inside _ _ _ (proj1 (Gs b Hb))), Hl, Ha.
    + intros a b Ha Hb.
      apply in_app_or in Ha; apply in_app_or in Hb.
      destruct Ha as [Ha | [<- | []]], Hb as [Hb | Hb].
      * apply Cross; [exact Ha | apply Il, Hb].
      * apply overlap_sym, (overlap_inside _ _ _ (proj1 (Gs b Hb))), Cb, Ha.
      * apply (overlap_inside _ _ _ Io), Hl, Hb.
      * apply (Gs b Hb).
Qed.

Lemma run_without_merge_disjoint (calls : list call) :
  forall (self : Guillotine) (h : Heap),
    rMerge self = false ->
    (forall r, well_formed (h r)) ->
    NoDup (map call_item calls) ->
    (forall r, In r (map call_item calls) -> ~ In r (items self)) ->
    pairwise_disjoint (placed_rects self h ++ freerects self) ->
    exists self' h' oks,
      run self h calls = Ok (self', h', oks)
      /\ pairwise_disjoint (placed_rects self' h' ++ freerects self').
Proof.
  induction calls as [|c calls IH]; intros self h Hm W ND Fresh P.
  - exists self, h, []; split; [reflexivity | exact P].
  - cbn [map] in ND, Fresh.
    apply NoDup_cons_iff in ND; destruct ND as [Nc ND].
    destruct (insert_without_merge_disjoint self h (call_item c)
                (call_heuristic c) (call_split c) Hm W)
      as (self1 & h1 & ok & E & Hm1 & W1 & I1 & P1);
      [apply Fresh; left; reflexivity | exact P |].
    destruct (IH self1 h1 Hm1 W1 ND) as (self2 & h2 & oks & R & P2);
      [| exact P1 |].
    { intros r Hr Hr1.
      destruct (I1 r Hr1) as [Hr0 | ->].
      - apply (Fresh r); [right; exact Hr | exact Hr0].
      - contradiction. }
    exists self2, h2, (ok :: oks).
    cbn [run]; rewrite E; cbn [bind]; rewrite R; cbn [bind].
    split; [reflexivity | exact P2].
Qed.

(** X17. The no-overlap invariant of the specification, for an engine
    without the merge pass: after any sequence of insert calls, each with an item
    of its own, no call has raised, no two placed items overlap, no two
    free rectangles overlap, and no free rectangle overlaps a placed
    item. *)
Theorem no_overlap_without_merge
    (bx b_y : Z) (rot : bool) (sp : string) (h : Heap) (calls : list call) :
  (forall r, well_formed (h r)) ->
  NoDup (map call_item calls) ->
  exists self' h' oks,
    run (__init__ bx b_y rot false sp) h calls = Ok (self', h', oks)
    /\ no_overlap self' h'
    /\ (forall p f, In p (placed_rects self' h') -> In f (freerects self') ->
                    overlap p f = false).
Proof.
  intros W ND.
  destruct (run_without_merge_disjoint calls (__init__ bx b_y rot false sp) h
              eq_refl W ND) as (self' & h' & oks & R & P).
  - intros r _ [].
  - unfold placed_rects, __init__; cbn [items flat_map app freerects].
    destruct ((bx =? 0) || (b_y =? 0)); cbn; auto.
  - exists self', h', oks.
    apply pairwise_disjoint_app in P; destruct P as (Pp & Pf & Cross).
    unfold no_overlap; auto.
Qed.

(** * Further properties of the engine *)

(** ** Splitting *)

(** X1. An item that has exactly the width and the height of the free
    rectangle it is placed in leaves no free rectangle behind, whatever
    the split policy. *)
Theorem split_exact_fit_leaves_nothing
    (self : Guillotine) (it : Item.t) (F : FreeRect) :
  Item.width it = FreeRectangle.width F ->
  Item.height it = FreeRectangle.height F ->
  _split_free_rect self it F = [].
Proof.
  intros Ew Eh.
  unfold _split_free_rect, _split_along_axis.
  rewrite Ew, Eh, !Z.sub_diag.
  cbn; rewrite andb_false_r; reflexivity.
Qed.

Lemma split_exact_fit_leaves_nothing_witness :
  _split_free_rect (__init__ 8 4 true false "SplitLongerAxis")
                   (Item.new 8 4) (FreeRectangle.mk 8 4 0 0) = [].
Proof.
  apply (split_exact_fit_leaves_nothing
           (__init__ 8 4 true false "SplitLongerAxis")
           (Item.new 8 4) (FreeRectangle.mk 8 4 0 0));
    reflexivity.
Defined.

Lemma split_along_axis_positive (F : FreeRect) (it : Item.t) (split : bool) :
  (List.length (_split_along_axis F it split) <= 2)%nat
  /\ Forall (fun r => 0 < FreeRectangle.width r /\ 0 < FreeRectangle.height r)
            (_split_along_axis F it split).
Proof.
  unfold _split_along_axis.
  rewrite !Z.gtb_ltb.
  destruct split;
    repeat match goal with
           | |- context [?a <? ?b] => destruct (Z.ltb_spec a b)
           end;
    cbn [andb app List.length]; split; try lia;
    repeat constructor; cbn; lia.
Qed.

(** A split never produces more than two rectangles, and every
    rectangle it produces has a positive width and a positive height,
    for every rectangle, item and split policy, fitting or not. *)
Theorem split_pieces_are_positive (self : Guillotine) (it : Item.t) (F : FreeRect) :
  (List.length (_split_free_rect self it F) <= 2)%nat
  /\ Forall (fun r => 0 < FreeRectangle.width r /\ 0 < FreeRectangle.height r)
            (_split_free_rect self it F).
Proof. unfold _split_free_rect; apply split_along_axis_positive. Qed.

(** X2. When a well-formed item fits in the free rectangle, the pieces
    of the split and the item together have exactly the area of the
    rectangle, whatever the split policy. *)
Theorem split_keeps_area (self : Guillotine) (it : Item.t) (F : FreeRect) :
  well_formed it ->
  fits F it ->
  sum (map FreeRectangle.area (_split_free_rect self it F))
  + Item.width it * Item.height it
  = FreeRectangle.area F.
Proof.
  intros W Hfit; unfold _split_free_rect.
  rewrite (split_along_axis_area F it _ W Hfit); lia.
Qed.

Lemma split_keeps_area_witness :
  sum (map FreeRectangle.area
         (_split_free_rect (__init__ 8 4 true false "SplitMinimizeArea")
                           (Item.new 3 2) (FreeRectangle.mk 8 4 0 0)))
  + 3 * 2
  = 32.
Proof.
  apply (split_keeps_area (__init__ 8 4 true false "SplitMinimizeArea")
                          (Item.new 3 2) (FreeRectangle.mk 8 4 0 0));
    unfold well_formed, fits; cbn; lia.
Defined.

(** X3. When a well-formed item fits in the free rectangle, every piece
    of the split lies inside the rectangle and does not overlap the item
    placed at the rectangle's origin, and the pieces do not overlap each
    other, whatever the split policy. *)
Theorem split_pieces_inside_and_apart
    (self : Guillotine) (it : Item.t) (F : FreeRect) :
  well_formed it ->
  fits F it ->
  (forall s, In s (_split_free_rect self it F) ->
             inside s F /\ overlap (occupied F it) s = false)
  /\ pairwise_disjoint (_split_free_rect self it F).
Proof.
  intros W Hfit; unfold _split_free_rect.
  apply split_along_axis_geometry; assumption.
Qed.

Lemma split_pieces_inside_and_apart_witness :
  (forall s,
      In s (_split_free_rect (__init__ 8 4 true false "SplitShorterAxis")
                             (Item.new 3 2) (FreeRectangle.mk 8 4 0 0)) ->
      inside s (FreeRectangle.mk 8 4 0 0)
      /\ overlap (occupied (FreeRectangle.mk 8 4 0 0) (Item.new 3 2)) s = false)
  /\ pairwise_disjoint
       (_split_free_rect (__init__ 8 4 true false "SplitShorterAxis")
                         (Item.new 3 2) (FreeRectangle.mk 8 4 0 0)).
Proof.
  apply (split_pieces_inside_and_apart
           (__init__ 8 4 true false "SplitShorterAxis")
           (Item.new 3 2) (FreeRectangle.mk 8 4 0 0));
    unfold well_formed, fits; cbn; lia.
Defined.

(** ** Choosing among the fitting rectangles *)

Lemma rectangle_reduce_fold (l : list FreeRect) (op : Z -> Z -> bool)
    (field : string) :
  metric_name field ->
  _rectangle_reduce l op field
  = Ok (match l with
        | [] => None
        | first :: rest =>
            Some (fold_left
                    (fun a b => if op (metric field a) (metric field b)
                                then a else b)
                    rest first)
        end).
Proof.
  intros [-> | [-> | ->]]; destruct l; reflexivity.
Qed.

Lemma fold_left_lt_is_least (key : FreeRect -> Z) (rest : list FreeRect) :
  forall first r,
    In r (first :: rest) ->
    key (fold_left (fun a b => if key a <? key b then a else b) rest first)
    <= key r.
Proof.
  induction rest as [|b rest IH]; intros first r Hin; cbn [fold_left].
  - destruct Hin as [<- | []]; lia.
  - assert (Hf : key (if key first <? key b then first else b) <= key first
                 /\ key (if key first <? key b then first else b) <= key b)
      by (destruct (Z.ltb_spec (key first) (key b)); lia).
    destruct Hin as [<- | [<- | Hin]].
    + etransitivity; [apply IH; left; reflexivity | apply Hf].
    + etransitivity; [apply IH; left; reflexivity | apply Hf].
    + apply IH; right; exact Hin.
Qed.

Lemma fold_left_gt_is_greatest (key : FreeRect -> Z) (rest : list FreeRect) :
  forall first r,
    In r (first :: rest) ->
    key r
    <= key (fold_left (fun a b => if key a >? key b then a else b) rest first).
Proof.
  induction rest as [|b rest IH]; intros first r Hin; cbn [fold_left].
  - destruct Hin as [<- | []]; lia.
  - assert (Hf : key first <= key (if key first >? key b then first else b)
                 /\ key b <= key (if key first >? key b then first else b))
      by (rewrite Z.gtb_ltb; destruct (Z.ltb_spec (key b) (key first)); lia).
    destruct Hin as [<- | [<- | Hin]].
    + etransitivity; [apply Hf | apply IH; left; reflexivity].
    + etransitivity; [apply Hf | apply IH; left; reflexivity].
    + apply IH; right; exact Hin.
Qed.

(** X4. For the fields width, height and area and a list that is not
    empty, [_rectangle_reduce] returns a rectangle of the list; no
    rectangle of the list has a smaller value of the field when the
    comparison is [<] (best fit), nor a larger one when it is [>] (worst
    fit). *)
Theorem rectangle_reduce_is_extremal (l : list FreeRect) (field : string) :
  metric_name field ->
  l <> [] ->
  (exists a,
      _rectangle_reduce l Z.ltb field = Ok (Some a)
      /\ In a l
      /\ forall r, In r l -> metric field a <= metric field r)
  /\ (exists a,
         _rectangle_reduce l Z.gtb field = Ok (Some a)
         /\ In a l
         /\ forall r, In r l -> metric field r <= metric field a).
Proof.
  intros M N; destruct l as [|first rest]; [contradiction |].
  pose proof (rectangle_reduce_fold (first :: rest) Z.ltb field M) as El.
  pose proof (rectangle_reduce_fold (first :: rest) Z.gtb field M) as Eg.
  split; eexists.
  - split; [exact El |].
    split; [exact (rectangle_reduce_In _ _ _ _ El) |].
    intros r Hr; apply (fold_left_lt_is_least (metric field)); exact Hr.
  - split; [exact Eg |].
    split; [exact (rectangle_reduce_In _ _ _ _ Eg) |].
    intros r Hr; apply (fold_left_gt_is_greatest (metric field)); exact Hr.
Qed.

Lemma rectangle_reduce_is_extremal_witness :
  _rectangle_reduce [FreeRectangle.mk 5 2 3 0; FreeRectangle.mk 8 2 0 2]
                    Z.ltb "width"
  = Ok (Some (FreeRectangle.mk 5 2 3 0))
  /\ _rectangle_reduce [FreeRectangle.mk 5 2 3 0; FreeRectangle.mk 8 2 0 2]
                       Z.gtb "width"
     = Ok (Some (FreeRectangle.mk 8 2 0 2))
  /\ (exists a,
         _rectangle_reduce [FreeRectangle.mk 5 2 3 0; FreeRectangle.mk 8 2 0 2]
                           Z.ltb "width"
         = Ok (Some a)
         /\ In a [FreeRectangle.mk 5 2 3 0; FreeRectangle.mk 8 2 0 2]
         /\ forall r,
              In r [FreeRectangle.mk 5 2 3 0; FreeRectangle.mk 8 2 0 2] ->
              metric "width" a <= metric "width" r)
  /\ (exists a,
         _rectangle_reduce [FreeRectangle.mk 5 2 3 0; FreeRectangle.mk 8 2 0 2]
                           Z.gtb "width"
         = Ok (Some a)
         /\ In a [FreeRectangle.mk 5 2 3 0; FreeRectangle.mk 8 2 0 2]
         /\ forall r,
              In r [FreeRectangle.mk 5 2 3 0; FreeRectangle.mk 8 2 0 2] ->
              metric "width" r <= metric "width" a).
Proof.
  split; [reflexivity |].
  split; [reflexivity |].
  apply (rectangle_reduce_is_extremal
           [FreeRectangle.mk 5 2 3 0; FreeRectangle.mk 8 2 0 2] "width").
  - left; reflexivity.
  - discriminate.
Defined.

Lemma fold_left_keeps (f : FreeRect -> FreeRect -> FreeRect) (a : FreeRect)
    (l : list FreeRect) :
  (forall r, In r l -> f a r = a) -> fold_left f l a = a.
Proof.
  induction l as [|b l IH]; intros H; cbn [fold_left]; [reflexivity |].
  rewrite (H b) by (left; reflexivity).
  apply IH; intros r Hr; apply H; right; exact Hr.
Qed.

(** X5. Among equally good rectangles [_rectangle_reduce] returns the
    last one in list order: a rectangle that no earlier rectangle beats
    and that beats every later rectangle is the one returned. *)
Theorem rectangle_reduce_ties_go_to_the_last
    (l1 l2 : list FreeRect) (a : FreeRect) (op : Z -> Z -> bool)
    (field : string) :
  metric_name field ->
  (forall r, In r l1 -> op (metric field r) (metric field a) = false) ->
  (forall r, In r l2 -> op (metric field a) (metric field r) = true) ->
  _rectangle_reduce (l1 ++ a :: l2) op field = Ok (Some a).
Proof.
  intros M H1 H2.
  rewrite (rectangle_reduce_fold _ op field M).
  set (f := fun u v => if op (metric field u) (metric field v) then u else v).
  assert (Keep : fold_left f l2 a = a).
  { apply fold_left_keeps; intros r Hr; unfold f; rewrite (H2 r Hr); reflexivity. }
  destruct l1 as [|first rest]; cbn [app].
  - rewrite Keep; reflexivity.
  - rewrite fold_left_app; cbn [fold_left].
    assert (Hin : In (fold_left f rest first) (first :: rest)).
    { apply fold_left_pick_In; intros u v; unfold f.
      destruct (op (metric field u) (metric field v)); auto. }
    unfold f at 2; rewrite (H1 _ Hin), Keep; reflexivity.
Qed.

Lemma rectangle_reduce_ties_go_to_the_last_witness :
  _rectangle_reduce
    ([FreeRectangle.mk 4 3 0 0] ++ FreeRectangle.mk 4 1 0 3 :: [FreeRectangle.mk 6 2 4 0])
    Z.ltb "width"
  = Ok (Some (FreeRectangle.mk 4 1 0 3)).
Proof.
  apply (rectangle_reduce_ties_go_to_the_last
           [FreeRectangle.mk 4 3 0 0] [FreeRectangle.mk 6 2 4 0]
           (FreeRectangle.mk 4 1 0 3) Z.ltb "width").
  - left; reflexivity.
  - intros r [<- | []]; reflexivity.
  - intros r [<- | []]; reflexivity.
Defined.

(** For any other field name [_rectangle_reduce] still answers
    [None] on an empty list, but raises [UnboundLocalError] on a
    non-empty one: no comparison was bound. *)
Theorem rectangle_reduce_unknown_field
    (l : list FreeRect) (op : Z -> Z -> bool) (field : string) :
  ~ metric_name field ->
  _rectangle_reduce l op field
  = match l with
    | [] => Ok None
    | _ :: _ => Raise UnboundLocalError
    end.
Proof.
  intros N; destruct l as [|first rest]; [reflexivity |].
  unfold _rectangle_reduce.
  destruct (String.eqb_spec field "width") as [E|_];
    [exfalso; apply N; left; exact E |].
  destruct (String.eqb_spec field "height") as [E|_];
    [exfalso; apply N; right; left; exact E |].
  destruct (String.eqb_spec field "area") as [E|_];
    [exfalso; apply N; right; right; exact E |].
  reflexivity.
Qed.

Lemma rectangle_reduce_unknown_field_witness :
  _rectangle_reduce [FreeRectangle.mk 8 4 0 0] Z.ltb "best_width_fit"
  = Raise UnboundLocalError.
Proof.
  apply (rectangle_reduce_unknown_field
           [FreeRectangle.mk 8 4 0 0] Z.ltb "best_width_fit").
  intros [E | [E | E]]; discriminate E.
Defined.

Lemma FreeRectangle_ltb_irrefl (a : FreeRect) : FreeRectangle.ltb a a = false.
Proof.
  unfold FreeRectangle.ltb; rewrite !Z.eqb_refl; apply Z.ltb_irrefl.
Qed.

Lemma FreeRectangle_ltb_asym (a b : FreeRect) :
  FreeRectangle.ltb a b = true -> FreeRectangle.ltb b a = false.
Proof.
  unfold FreeRectangle.ltb.
  repeat match goal with
         | |- context [?u =? ?v] => destruct (Z.eqb_spec u v)
         end; lia.
Qed.

(** [_compare_two_freerects] answers [None] only when it is given
    no rectangle; otherwise it answers one of the rectangles it is given,
    and none of them is smaller in the order of the tuples. *)
Theorem compare_two_freerects_is_least (A B : option FreeRect) :
  match _compare_two_freerects A B with
  | None => A = None /\ B = None
  | Some c =>
      (A = Some c \/ B = Some c)
      /\ forall r, A = Some r \/ B = Some r -> FreeRectangle.ltb r c = false
  end.
Proof.
  destruct A as [a|], B as [b|]; cbn [_compare_two_freerects].
  - unfold FreeRectangle.min.
    destruct (FreeRectangle.ltb b a) eqn:L.
    + split; [right; reflexivity |].
      intros r [E | E]; injection E as <-.
      * apply FreeRectangle_ltb_asym; exact L.
      * apply FreeRectangle_ltb_irrefl.
    + split; [left; reflexivity |].
      intros r [E | E]; injection E as <-.
      * apply FreeRectangle_ltb_irrefl.
      * exact L.
  - split; [left; reflexivity |].
    intros r [E | E]; [injection E as <- | discriminate].
    apply FreeRectangle_ltb_irrefl.
  - split; [right; reflexivity |].
    intros r [E | E]; [discriminate | injection E as <-].
    apply FreeRectangle_ltb_irrefl.
  - split; reflexivity.
Qed.

(** ** [first_fit] *)

Lemma fit_test_iff (r : FreeRect) (it : Item.t) (rot : bool) :
  (FreeRectangle.width r >=? (if negb rot then Item.width it else Item.height it))
  && (FreeRectangle.height r >=? (if negb rot then Item.height it else Item.width it))
  = true
  <-> fits r (if rot then Item.rotate it else it).
Proof.
  rewrite andb_true_iff, !Z.geb_le.
  unfold fits; destruct rot; cbn; tauto.
Qed.

Lemma fitted_rects_first (self : Guillotine) (it : Item.t) (rot : bool)
    (l1 l2 : list FreeRect) (f : FreeRect) :
  freerects self = (l1 ++ f :: l2)%list ->
  (forall r, In r l1 -> ~ fits r (if rot then Item.rotate it else it)) ->
  fits f (if rot then Item.rotate it else it) ->
  exists rest, _fitted_rects self it rot = f :: rest.
Proof.
  intros E N Hf; unfold _fitted_rects; rewrite E, filter_app.
  cbn [filter].
  rewrite (proj2 (fit_test_iff f it rot) Hf).
  assert (E1 : filter
                 (fun rect =>
                    (FreeRectangle.width rect
                     >=? (if negb rot then Item.width it else Item.height it))
                    && (FreeRectangle.height rect
                        >=? (if negb rot then Item.height it else Item.width it)))
                 l1 = []).
  { clear E; revert N; induction l1 as [|r l1 IH]; intros N; [reflexivity |].
    cbn [filter].
    destruct (_ && _) eqn:T.
    - exfalso; apply (N r (or_introl eq_refl)).
      apply fit_test_iff; exact T.
    - apply IH; intros r0 Hr0; apply N; right; exact Hr0. }
  rewrite E1; eexists; reflexivity.
Qed.

Lemma fitted_rects_nil (self : Guillotine) (it : Item.t) (rot : bool) :
  (forall r, In r (freerects self) ->
             ~ fits r (if rot then Item.rotate it else it)) ->
  _fitted_rects self it rot = [].
Proof.
  intros N.
  destruct (_fitted_rects self it rot) as [|r l] eqn:E; [reflexivity |].
  exfalso.
  destruct (fitted_rects_fits self it rot r) as [Hin Hfit];
    [rewrite E; left; reflexivity |].
  exact (N r Hin Hfit).
Qed.

Lemma list_remove_first (f : FreeRect) (l1 l2 : list FreeRect) :
  ~ In f l1 -> list_remove f (l1 ++ f :: l2) = Ok (l1 ++ l2)%list.
Proof.
  induction l1 as [|r l1 IH]; intros N; cbn [app list_remove].
  - rewrite FreeRectangle_eqb_refl; reflexivity.
  - destruct (FreeRectangle.eqb r f) eqn:E.
    + apply FreeRectangle_eqb_eq in E; subst r.
      exfalso; apply N; left; reflexivity.
    + rewrite IH by (intros Hin; apply N; right; exact Hin).
      reflexivity.
Qed.

(** X6. [first_fit] takes the first free rectangle, in the order of the
    free list, in which the item fits as it is: the item is placed at
    that rectangle's origin without being turned, the rectangle leaves
    the list, and the pieces of the split are appended at the end. *)
Theorem first_fit_takes_first_in_list_order
    (self : Guillotine) (h : Heap) (item : ref)
    (l1 l2 : list FreeRect) (f : FreeRect) :
  freerects self = (l1 ++ f :: l2)%list ->
  (forall r, In r l1 -> ~ fits r (h item)) ->
  fits f (h item) ->
  let placed := Item.set_CornerPoint (h item)
                  (FreeRectangle.x f, FreeRectangle.y f) in
  first_fit self h item
  = Ok (set_freerects (set_items self (items self ++ [item]))
          (l1 ++ l2 ++ _split_free_rect self placed f),
        upd h item placed,
        true).
Proof.
  intros E N Hf placed.
  destruct (fitted_rects_first self (h item) false l1 l2 f E N Hf) as [rest Ef].
  unfold first_fit; rewrite Ef; cbn [nonempty negb andb].
  unfold place; cbn [freerects set_items].
  rewrite E, list_remove_first.
  - cbn [bind]; unfold _split_free_rect;
      cbn [freerects split_heuristic set_freerects set_items].
    rewrite upd_same, <- app_assoc; reflexivity.
  - intros Hin; exact (N f Hin Hf).
Qed.

Lemma first_fit_takes_first_in_list_order_witness :
  first_fit (set_freerects (__init__ 8 4 true false "default")
               ([FreeRectangle.mk 2 1 6 0] ++ FreeRectangle.mk 8 3 0 1 :: []))
            (heap_of [(3, 2)]) 0%nat
  = Ok (set_freerects
          (set_items
             (set_freerects (__init__ 8 4 true false "default")
                ([FreeRectangle.mk 2 1 6 0] ++ FreeRectangle.mk 8 3 0 1 :: []))
             [0%nat])
          [FreeRectangle.mk 2 1 6 0; FreeRectangle.mk 5 2 3 1;
           FreeRectangle.mk 8 1 0 3],
        upd (heap_of [(3, 2)]) 0%nat
            (Item.set_CornerPoint (Item.new 3 2) (0, 1)),
        true).
Proof.
  apply (first_fit_takes_first_in_list_order
           (set_freerects (__init__ 8 4 true false "default")
              ([FreeRectangle.mk 2 1 6 0] ++ FreeRectangle.mk 8 3 0 1 :: []))
           (heap_of [(3, 2)]) 0%nat
           [FreeRectangle.mk 2 1 6 0] [] (FreeRectangle.mk 8 3 0 1)).
  - reflexivity.
  - intros r [<- | []]; unfold fits; cbn; lia.
  - unfold fits; cbn; lia.
Defined.

(** X7. With rotation enabled, when the item fits in no free rectangle
    as it is, [first_fit] turns it and places it in the first free
    rectangle, in list order, in which the turned item fits; the item
    keeps the turned width and height. *)
Theorem first_fit_turns_item_that_fits_only_turned
    (self : Guillotine) (h : Heap) (item : ref)
    (l1 l2 : list FreeRect) (f : FreeRect) :
  rotation self = true ->
  freerects self = (l1 ++ f :: l2)%list ->
  (forall r, In r (freerects self) -> ~ fits r (h item)) ->
  (forall r, In r l1 -> ~ fits r (Item.rotate (h item))) ->
  fits f (Item.rotate (h item)) ->
  let placed := Item.set_CornerPoint (Item.rotate (h item))
                  (FreeRectangle.x f, FreeRectangle.y f) in
  exists h',
    first_fit self h item
    = Ok (set_freerects (set_items self (items self ++ [item]))
            (l1 ++ l2 ++ _split_free_rect self placed f),
          h', true)
    /\ h' item = placed
    /\ forall r, r <> item -> h' r = h r.
Proof.
  intros R E N0 N Hf placed.
  destruct (fitted_rects_first self (h item) true l1 l2 f E N Hf) as [rest Ef].
  unfold first_fit.
  rewrite (fitted_rects_nil self (h item) false N0), R, Ef.
  cbn [nonempty negb andb].
  unfold place; cbn [freerects set_items].
  rewrite E, list_remove_first.
  - cbn [bind]; unfold _split_free_rect;
      cbn [freerects split_heuristic set_freerects set_items].
    rewrite !upd_same, <- app_assoc.
    eexists; split; [reflexivity |].
    split; [apply upd_same |].
    intros r Hr; rewrite !upd_other by exact Hr; reflexivity.
  - intros Hin; exact (N f Hin Hf).
Qed.

Lemma first_fit_turns_item_that_fits_only_turned_witness :
  exists h',
    first_fit (set_freerects (__init__ 8 4 true false "default")
                 ([] ++ FreeRectangle.mk 8 4 0 0 :: []))
              (heap_of [(2, 6)]) 0%nat
    = Ok (set_freerects
            (set_items
               (set_freerects (__init__ 8 4 true false "default")
                  ([] ++ FreeRectangle.mk 8 4 0 0 :: []))
               [0%nat])
            [FreeRectangle.mk 2 2 6 0; FreeRectangle.mk 8 2 0 2],
          h', true)
    /\ h' 0%nat
       = {| Item.width := 6; Item.height := 2;
            Item.CornerPoint := Some (0, 0); Item.rotated := true |}
    /\ forall r, r <> 0%nat -> h' r = heap_of [(2, 6)] r.
Proof.
  apply (first_fit_turns_item_that_fits_only_turned
           (set_freerects (__init__ 8 4 true false "default")
              ([] ++ FreeRectangle.mk 8 4 0 0 :: []))
           (heap_of [(2, 6)]) 0%nat [] [] (FreeRectangle.mk 8 4 0 0)).
  - reflexivity.
  - reflexivity.
  - intros r [<- | []]; unfold fits; cbn; lia.
  - intros r [].
  - unfold fits; cbn; lia.
Defined.

(** ** The contract of [insert] *)

Lemma rectangle_merge_same (self self' : Guillotine) :
  rectangle_merge self = Ok self' -> same_but_freerects self self'.
Proof.
  unfold rectangle_merge; intros E.
  destruct (merge_loop _ 0 (freerects self)) as [l|e]; [|discriminate].
  injection E as <-; repeat split.
Qed.

(** Every way [insert] can return: a failure that leaves the engine
    alone, or a placement in a free rectangle the item fits in, followed
    by the merge pass when it is enabled. *)
Lemma insert_ok_cases (self self' : Guillotine) (h h' : Heap) (item : ref)
    (heuristic sh : string) (ok : bool) :
  insert self h item heuristic sh = Ok (self', h', ok) ->
  exists h1,
    (h1 = h \/ (rotation self = true /\ h1 = upd h item (Item.rotate (h item))))
    /\ ((ok = false /\ self' = self /\ h' = h1)
        \/ (ok = true
            /\ exists best l,
                 In best (freerects self)
                 /\ fits best (h1 item)
                 /\ list_remove best (freerects self) = Ok l
                 /\ h' = upd h1 item
                           (Item.set_CornerPoint (h1 item)
                              (FreeRectangle.x best, FreeRectangle.y best))
                 /\ let placed :=
                      set_freerects (set_items self (items self ++ [item]))
                        (l ++ _split_free_rect self
                                (Item.set_CornerPoint (h1 item)
                                   (FreeRectangle.x best, FreeRectangle.y best))
                                best) in
                    (rMerge self = false /\ self' = placed)
                    \/ (rMerge self = true /\ rectangle_merge placed = Ok self'))).
Proof.
  intros E.
  destruct (insert_cases self h item heuristic sh)
    as [(h1 & Hh & E1) | (h1 & best & Hh & Hin & Hfit & E1)];
    rewrite E1 in E; exists h1; (split; [exact Hh |]).
  - injection E as <- <- <-; left; auto.
  - right.
    destruct (place_In self h1 item best Hin) as (l & El & Ep).
    rewrite Ep in E; cbv zeta in E; rewrite upd_same in E.
    unfold after_placement in E; cbn [bind rMerge set_freerects set_items] in E.
    destruct (rMerge self) eqn:Hm.
    + match type of E with
      | context [rectangle_merge ?s] =>
          destruct (rectangle_merge s) as [s'|e] eqn:Em
      end; [|discriminate].
      injection E as <- <- <-.
      split; [reflexivity |].
      exists best, l; cbv zeta; auto 10.
    + injection E as <- <- <-.
      split; [reflexivity |].
      exists best, l; cbv zeta; auto 10.
Qed.



(** X9. With rotation disabled [insert] never turns the item: its
    width, height and rotation flag are the same after the call, whether
    it was placed or not. *)
Theorem insert_without_rotation_keeps_orientation
    (self self' : Guillotine) (h h' : Heap) (item : ref)
    (heuristic sh : string) (ok : bool) :
  rotation self = false ->
  insert self h item heuristic sh = Ok (self', h', ok) ->
  Item.width (h' item) = Item.width (h item)
  /\ Item.height (h' item) = Item.height (h item)
  /\ Item.rotated (h' item) = Item.rotated (h item).
Proof.
  intros R E.
  destruct (insert_ok_cases self self' h h' item heuristic sh ok E)
    as (h1 & Hh & Hc).
  assert (E1 : h1 = h).
  { destruct Hh as [-> | [R' _]]; [reflexivity | congruence]. }
  subst h1.
  destruct Hc as [(_ & _ & ->) | (_ & best & l & _ & _ & _ & -> & _)].
  - auto.
  - rewrite upd_same; cbn; auto.
Qed.

Lemma insert_without_rotation_keeps_orientation_witness :
  Item.width (upd (heap_of [(3, 2)]) 0%nat
                  (Item.set_CornerPoint (Item.new 3 2) (0, 0)) 0%nat)
  = Item.width (heap_of [(3, 2)] 0%nat)
  /\ Item.height (upd (heap_of [(3, 2)]) 0%nat
                     (Item.set_CornerPoint (Item.new 3 2) (0, 0)) 0%nat)
     = Item.height (heap_of [(3, 2)] 0%nat)
  /\ Item.rotated (upd (heap_of [(3, 2)]) 0%nat
                      (Item.set_CornerPoint (Item.new 3 2) (0, 0)) 0%nat)
     = Item.rotated (heap_of [(3, 2)] 0%nat).
Proof.
  apply (insert_without_rotation_keeps_orientation
           (__init__ 8 4 false false "default")
           (set_freerects (set_items (__init__ 8 4 false false "default") [0%nat])
              [FreeRectangle.mk 5 2 3 0; FreeRectangle.mk 8 2 0 2])
           (heap_of [(3, 2)])
           (upd (heap_of [(3, 2)]) 0%nat
                (Item.set_CornerPoint (Item.new 3 2) (0, 0)))
           0%nat "best_area_fit" "default" true);
    reflexivity.
Defined.

(** X10. A heuristic name that is not one of the seven [insert] knows
    makes [insert] answer failure and change nothing; nothing is raised.
    [next_fit] is such a name. *)
Theorem insert_unknown_heuristic
    (self : Guillotine) (h : Heap) (item : ref) (heuristic sh : string) :
  ~ In heuristic heuristic_names ->
  insert self h item heuristic sh = Ok (self, h, false).
Proof.
  intros N; unfold insert.
  repeat match goal with
         | |- context [String.eqb heuristic ?s] =>
             destruct (String.eqb_spec heuristic s) as [E|_];
             [exfalso; apply N; rewrite E; unfold heuristic_names;
              cbn [In]; tauto |]
         end.
  reflexivity.
Qed.

Lemma insert_unknown_heuristic_witness :
  insert (__init__ 8 4 true true "default") (heap_of [(1, 1)]) 0%nat
         "next_fit" "default"
  = Ok (__init__ 8 4 true true "default", heap_of [(1, 1)], false).
Proof.
  apply (insert_unknown_heuristic
           (__init__ 8 4 true true "default") (heap_of [(1, 1)]) 0%nat
           "next_fit" "default").
  unfold heuristic_names; cbn [In].
  intros [E | [E | [E | [E | [E | [E | [E | []]]]]]]]; discriminate E.
Defined.

(** X11. When [insert] answers success, with or without the merge
    pass, the item has been appended to the placed items, its corner is
    the origin of a rectangle that was free before the call and in which
    the item, as it is oriented now, fits, and the bin's dimensions and
    configuration are unchanged. *)
Theorem insert_success_contract
    (self self' : Guillotine) (h h' : Heap) (item : ref)
    (heuristic sh : string) :
  insert self h item heuristic sh = Ok (self', h', true) ->
  items self' = (items self ++ [item])%list
  /\ x self' = x self /\ y self' = y self
  /\ rMerge self' = rMerge self
  /\ split_heuristic self' = split_heuristic self
  /\ rotation self' = rotation self
  /\ exists best,
       In best (freerects self)
       /\ fits best (h' item)
       /\ Item.CornerPoint (h' item)
          = Some (FreeRectangle.x best, FreeRectangle.y best).
Proof.
  intros E.
  destruct (insert_ok_cases self self' h h' item heuristic sh true E)
    as (h1 & _ & [(F & _) | (_ & best & l & Hin & Hfit & _ & -> & Hs)]);
    [discriminate |].
  cbv zeta in Hs.
  assert (S : same_but_freerects
                (set_items self (items self ++ [item])) self').
  { destruct Hs as [(_ & ->) | (_ & Em)].
    - repeat split.
    - apply rectangle_merge_same in Em.
      destruct Em as (? & ? & ? & ? & ? & ?); repeat split; assumption. }
  destruct S as (Sx & Sy & Sm & Ss & Sr & Si).
  cbn [x y rMerge split_heuristic rotation items set_items] in *.
  repeat (split; [assumption |]).
  exists best; rewrite upd_same; auto.
Qed.

Lemma insert_success_contract_witness :
  items (set_freerects (set_items (__init__ 8 4 true false "default") [0%nat])
           [FreeRectangle.mk 5 2 3 0; FreeRectangle.mk 8 2 0 2])
  = ([] ++ [0%nat])%list
  /\ 8 = 8 /\ 4 = 4 /\ false = false /\ "default" = "default" /\ true = true
  /\ exists best,
       In best [FreeRectangle.mk 8 4 0 0]
       /\ fits best (Item.set_CornerPoint (Item.new 3 2) (0, 0))
       /\ Some (0, 0) = Some (FreeRectangle.x best, FreeRectangle.y best).
Proof.
  apply (insert_success_contract
           (__init__ 8 4 true false "default")
           (set_freerects (set_items (__init__ 8 4 true false "default") [0%nat])
              [FreeRectangle.mk 5 2 3 0; FreeRectangle.mk 8 2 0 2])
           (heap_of [(3, 2)])
           (upd (heap_of [(3, 2)]) 0%nat
                (Item.set_CornerPoint (Item.new 3 2) (0, 0)))
           0%nat "first_fit" "default").
  reflexivity.
Defined.

Lemma failed_insert_keeps_engine_witness :
  __init__ 8 4 true false "default" = __init__ 8 4 true false "default"
  /\ (upd (heap_of [(9, 5)]) 0%nat (Item.rotate (heap_of [(9, 5)] 0%nat))
      = heap_of [(9, 5)]
      \/ (rotation (__init__ 8 4 true false "default") = true
          /\ upd (heap_of [(9, 5)]) 0%nat (Item.rotate (heap_of [(9, 5)] 0%nat))
             = upd (heap_of [(9, 5)]) 0%nat
                   (Item.rotate (heap_of [(9, 5)] 0%nat)))).
Proof.
  apply (failed_insert_keeps_engine
           (__init__ 8 4 true false "default")
           (__init__ 8 4 true false "default")
           (heap_of [(9, 5)])
           (upd (heap_of [(9, 5)]) 0%nat (Item.rotate (heap_of [(9, 5)] 0%nat)))
           0%nat "best_area_fit" "default").
  reflexivity.
Defined.

Lemma first_fit_failure_changes_nothing_witness :
  __init__ 8 4 true true "default" = __init__ 8 4 true true "default"
  /\ heap_of [(9, 5)] = heap_of [(9, 5)].
Proof.
  apply (first_fit_failure_changes_nothing
           (__init__ 8 4 true true "default")
           (__init__ 8 4 true true "default")
           (heap_of [(9, 5)]) (heap_of [(9, 5)]) 0%nat "default").
  reflexivity.
Defined.

(** ** When [insert] fails and when it raises *)

Lemma place_answers_true (self self' : Guillotine) (h h' : Heap) (item : ref)
    (r : FreeRect) (ok : bool) :
  place self h item r = Ok (self', h', ok) -> ok = true.
Proof.
  unfold place; intros E.
  destruct (list_remove r _) as [l|e]; [|discriminate].
  injection E as _ _ <-; reflexivity.
Qed.

Lemma after_placement_false (res : result (Guillotine * Heap * bool))
    (self : Guillotine) (h : Heap) :
  after_placement res = Ok (self, h, false) <-> res = Ok (self, h, false).
Proof.
  unfold after_placement; split; intros E.
  - destruct res as [[[s hh] ok]|e]; [|discriminate].
    cbn [bind] in E; destruct ok; [|exact E].
    destruct (rMerge s); [|discriminate].
    destruct (rectangle_merge s); discriminate.
  - rewrite E; reflexivity.
Qed.

Lemma can_fit_fitted (self : Guillotine) (it : Item.t) :
  can_fit self it
  <-> _fitted_rects self it false <> []
      \/ (rotation self = true /\ _fitted_rects self it true <> []).
Proof.
  unfold can_fit; split.
  - intros (r & Hin & [Hf | [R Hf]]).
    + left; intros E.
      assert (Hr : In r (_fitted_rects self it false)).
      { unfold _fitted_rects; apply filter_In; split; [exact Hin |].
        apply (fit_test_iff r it false); exact Hf. }
      rewrite E in Hr; destruct Hr.
    + right; split; [exact R |]; intros E.
      assert (Hr : In r (_fitted_rects self it true)).
      { unfold _fitted_rects; apply filter_In; split; [exact Hin |].
        apply (fit_test_iff r it true); exact Hf. }
      rewrite E in Hr; destruct Hr.
  - intros [N | [R N]].
    + destruct (_fitted_rects self it false) as [|r l] eqn:E; [congruence |].
      destruct (fitted_rects_fits self it false r) as [Hin Hf];
        [rewrite E; left; reflexivity |].
      exists r; auto.
    + destruct (_fitted_rects self it true) as [|r l] eqn:E; [congruence |].
      destruct (fitted_rects_fits self it true r) as [Hin Hf];
        [rewrite E; left; reflexivity |].
      exists r; auto.
Qed.

Lemma first_fit_fails_iff (self : Guillotine) (h : Heap) (item : ref) :
  (exists h', first_fit self h item = Ok (self, h', false))
  <-> ~ can_fit self (h item).
Proof.
  rewrite can_fit_fitted; unfold first_fit.
  destruct (_fitted_rects self (h item) false) as [|f1 l1]; cbn [nonempty negb andb].
  - destruct (rotation self).
    + destruct (_fitted_rects self (h item) true) as [|f2 l2]; cbn [nonempty].
      * split; [intros _ [N | [_ N]]; congruence | intros _; eexists; reflexivity].
      * split.
        -- intros [h' E]; apply place_answers_true in E; discriminate.
        -- intros N; exfalso; apply N; right; split; [reflexivity | discriminate].
    + split; [intros _ [N | [N _]]; congruence | intros _; eexists; reflexivity].
  - split.
    + intros [h' E]; apply place_answers_true in E; discriminate.
    + intros N; exfalso; apply N; left; discriminate.
Qed.

Lemma generic_algo_fails_iff (self : Guillotine) (h : Heap) (item : ref)
    (field : string) (op : Z -> Z -> bool) (sh : string) :
  metric_name field ->
  (exists h', _generic_algo self h item field op sh = Ok (self, h', false))
  <-> ~ can_fit self (h item).
Proof.
  intros M; rewrite can_fit_fitted; unfold _generic_algo.
  rewrite !(rectangle_reduce_fold _ op field M); cbn [bind].
  destruct (_fitted_rects self (h item) false) as [|f1 l1].
  - destruct (rotation self); cbn [bind].
    + destruct (_fitted_rects self (h item) true) as [|f2 l2];
        cbn [_compare_two_freerects opt_eqb].
      * split; [intros _ [N | [_ N]]; congruence | intros _; eexists; reflexivity].
      * split.
        -- intros [h' E]; apply place_answers_true in E; discriminate.
        -- intros N; exfalso; apply N; right; split; [reflexivity | discriminate].
    + split; [intros _ [N | [N _]]; congruence | intros _; eexists; reflexivity].
  - split.
    + intros [h' E]; exfalso.
      destruct (rotation self); cbn [bind] in E.
      * destruct (_fitted_rects self (h item) true);
          cbn [_compare_two_freerects opt_eqb] in E;
          apply place_answers_true in E; discriminate.
      * apply place_answers_true in E; discriminate.
    + intros N; exfalso; apply N; left; discriminate.
Qed.

(** X14. For each of the seven heuristics, with or without the merge
    pass, [insert] answers failure exactly when no free rectangle takes
    the item, neither as it is nor, if rotation is enabled, turned: an
    item that fits somewhere is never rejected. *)
Theorem insert_fails_iff_nothing_fits
    (self : Guillotine) (h : Heap) (item : ref) (heuristic sh : string) :
  In heuristic heuristic_names ->
  (exists h', insert self h item heuristic sh = Ok (self, h', false))
  <-> ~ can_fit self (h item).
Proof.
  intros Hn; unfold insert.
  assert (G : forall field op,
             metric_name field ->
             (exists h', after_placement (_generic_algo self h item field op sh)
                         = Ok (self, h', false))
             <-> ~ can_fit self (h item)).
  { intros field op M.
    rewrite <- (generic_algo_fails_iff self h item field op sh M).
    split; intros [h' E]; exists h'; apply after_placement_false; exact E. }
  unfold heuristic_names in Hn; cbn [In] in Hn.
  destruct Hn as [<- | [<- | [<- | [<- | [<- | [<- | [<- | []]]]]]]];
    cbn [String.eqb Ascii.eqb Bool.eqb];
    try (apply G; unfold metric_name; auto).
  rewrite <- (first_fit_fails_iff self h item).
  split; intros [h' E]; exists h'; apply after_placement_false; exact E.
Qed.

Lemma insert_fails_iff_nothing_fits_witness :
  (exists h',
      insert (__init__ 8 4 false false "default") (heap_of [(2, 6)]) 0%nat
             "best_area_fit" "default"
      = Ok (__init__ 8 4 false false "default", h', false))
  <-> ~ can_fit (__init__ 8 4 false false "default") (heap_of [(2, 6)] 0%nat).
Proof.
  apply (insert_fails_iff_nothing_fits
           (__init__ 8 4 false false "default") (heap_of [(2, 6)]) 0%nat
           "best_area_fit" "default").
  unfold heuristic_names; cbn [In]; tauto.
Defined.

Lemma list_remove_raises (v : FreeRect) (l : list FreeRect) (e : exn) :
  list_remove v l = Raise e -> e = ValueError.
Proof.
  induction l as [|r l IH]; cbn [list_remove]; intros E.
  - injection E as <-; reflexivity.
  - destruct (FreeRectangle.eqb r v); [discriminate |].
    destruct (list_remove v l) as [l'|e']; [discriminate |].
    injection E as <-; apply IH; reflexivity.
Qed.

Lemma replace_pair_raises (f m r : FreeRect) (l : list FreeRect) (e : exn) :
  replace_pair f m r l = Raise e -> e = ValueError.
Proof.
  unfold replace_pair; intros E.
  destruct (list_remove f l) as [l1|e1] eqn:E1.
  - cbn [bind] in E.
    destruct (list_remove m l1) as [l2|e2] eqn:E2; [discriminate |].
    injection E as <-; eapply list_remove_raises; exact E2.
  - injection E as <-; eapply list_remove_raises; exact E1.
Qed.

Lemma merge_body_raises (f : FreeRect) (l : list FreeRect) (e : exn) :
  merge_body f l = Raise e -> e = ValueError.
Proof.
  unfold merge_body, merge_widths, merge_heights; intros E.
  repeat match type of E with
         | context [if ?b then _ else _] => destruct b
         | context [match ?l with [] => _ | _ :: _ => _ end] => destruct l
         | context [bind ?m _] =>
             let Em := fresh "Em" in
             destruct m eqn:Em; cbn [bind] in E
         end;
    try discriminate;
    try (eapply replace_pair_raises; eassumption);
    try (injection E as <-; eapply replace_pair_raises; eassumption).
Qed.

Lemma merge_loop_raises (fuel : nat) :
  forall i l e, merge_loop fuel i l = Raise e -> e = ValueError.
Proof.
  induction fuel as [|fuel IH]; intros i l e E; cbn [merge_loop] in E.
  - destruct (nth_error l i); discriminate.
  - destruct (nth_error l i) as [f|]; [|discriminate].
    destruct (merge_body f l) as [l'|e'] eqn:Eb; cbn [bind] in E.
    + eapply IH; exact E.
    + injection E as <-; eapply merge_body_raises; exact Eb.
Qed.

(** X15. [insert] raises only inside the merge pass: when it raises,
    the merge pass is enabled, the exception is the [ValueError] of a
    failed [list.remove], and some free rectangle did take the item.
    With the merge pass disabled [insert] always returns. *)
Theorem insert_raises_only_in_merge
    (self : Guillotine) (h : Heap) (item : ref) (heuristic sh : string)
    (e : exn) :
  insert self h item heuristic sh = Raise e ->
  rMerge self = true /\ e = ValueError /\ can_fit self (h item).
Proof.
  intros E.
  destruct (insert_cases self h item heuristic sh)
    as [(h1 & Hh & E1) | (h1 & best & Hh & Hin & Hfit & E1)];
    rewrite E1 in E; [discriminate |].
  destruct (place_In self h1 item best Hin) as (l & El & Ep).
  rewrite Ep in E; cbv zeta in E.
  unfold after_placement in E; cbn [bind rMerge set_freerects set_items] in E.
  destruct (rMerge self); [|discriminate].
  split; [reflexivity |].
  split.
  - unfold rectangle_merge in E.
    match type of E with
    | context [merge_loop ?n ?i ?l0] =>
        destruct (merge_loop n i l0) as [l'|e'] eqn:Em
    end; [discriminate |].
    injection E as <-; eapply merge_loop_raises; exact Em.
  - exists best; split; [exact Hin |].
    destruct Hh as [-> | [R ->]]; [left; exact Hfit |].
    right; split; [exact R |].
    rewrite upd_same in Hfit; exact Hfit.
Qed.

Lemma insert_raises_only_in_merge_witness :
  rMerge (set_freerects engine_6x6
            [FreeRectangle.mk 5 3 1 3; FreeRectangle.mk 1 2 0 4;
             FreeRectangle.mk 1 1 1 2; FreeRectangle.mk 4 1 2 2]) = true
  /\ ValueError = ValueError
  /\ can_fit (set_freerects engine_6x6
                [FreeRectangle.mk 5 3 1 3; FreeRectangle.mk 1 2 0 4;
                 FreeRectangle.mk 1 1 1 2; FreeRectangle.mk 4 1 2 2])
             (Item.new 1 2).
Proof.
  apply (insert_raises_only_in_merge
           (set_freerects engine_6x6
              [FreeRectangle.mk 5 3 1 3; FreeRectangle.mk 1 2 0 4;
               FreeRectangle.mk 1 1 1 2; FreeRectangle.mk 4 1 2 2])
           (heap_of [(1, 2)]) 0%nat "first_fit" "default" ValueError).
  vm_compute; reflexivity.
Defined.

(** ** Invariants that hold with the merge pass too *)

Lemma in_bin_same (self self' : Guillotine) (r : FreeRect) :
  x self' = x self -> y self' = y self -> in_bin self r -> in_bin self' r.
Proof. unfold in_bin; intros -> ->; tauto. Qed.

Lemma in_bin_inside (self : Guillotine) (s F : FreeRect) :
  0 < FreeRectangle.width s -> 0 < FreeRectangle.height s ->
  inside s F -> in_bin self F -> in_bin self s.
Proof. unfold in_bin, inside; lia. Qed.

Lemma list_remove_Forall (P : FreeRect -> Prop) (v : FreeRect)
    (l l' : list FreeRect) :
  list_remove v l = Ok l' -> Forall P l -> Forall P l'.
Proof.
  intros E H; rewrite Forall_forall in *.
  intros r Hr; apply H.
  destruct (list_remove_incl v l l' E) as [_ I]; apply I, Hr.
Qed.

Lemma replace_pair_Forall (P : FreeRect -> Prop) (f m r : FreeRect)
    (l l' : list FreeRect) :
  replace_pair f m r l = Ok l' -> Forall P l -> P r -> Forall P l'.
Proof.
  unfold replace_pair; intros E H Hr.
  destruct (list_remove f l) as [l1|e] eqn:E1; [|discriminate].
  cbn [bind] in E.
  destruct (list_remove m l1) as [l2|e] eqn:E2; [|discriminate].
  injection E as <-.
  apply Forall_app; split; [|constructor; [exact Hr | constructor]].
  eapply list_remove_Forall; [exact E2 |].
  eapply list_remove_Forall; [exact E1 | exact H].
Qed.

Lemma filter_head_In {A : Type} (p : A -> bool) (l rest : list A) (a : A) :
  filter p l = a :: rest -> In a l /\ p a = true.
Proof.
  intros E; apply filter_In; rewrite E; left; reflexivity.
Qed.

(** A merged rectangle lies in the bin when the two rectangles it was
    made of do, whether or not they were aligned. *)
Lemma merge_body_in_bin (self : Guillotine) (f : FreeRect) (l l' : list FreeRect) :
  in_bin self f ->
  Forall (in_bin self) l ->
  merge_body f l = Ok l' ->
  Forall (in_bin self) l'.
Proof.
  intros Hf Hl E; unfold merge_body in E.
  destruct (merge_widths f (matching_widths f l) l) as [l1|e] eqn:E1;
    [|discriminate].
  cbn [bind] in E.
  assert (H1 : Forall (in_bin self) l1).
  { unfold merge_widths in E1.
    destruct (nonempty (matching_widths f l)); [|injection E1 as <-; exact Hl].
    destruct (widths_adjacent f l) as [|m rest] eqn:Ea;
      [injection E1 as <-; exact Hl |].
    apply filter_head_In in Ea; destruct Ea as [Hm Hy].
    apply Z.eqb_eq in Hy.
    eapply replace_pair_Forall; [exact E1 | exact Hl |].
    rewrite Forall_forall in Hl; specialize (Hl m Hm).
    unfold in_bin, merged_taller in *; cbn; lia. }
  unfold merge_heights in E.
  destruct (nonempty (matching_heights f l)); [|injection E as <-; exact H1].
  destruct (heights_adjacent f l1) as [|m rest] eqn:Ea;
    [injection E as <-; exact H1 |].
  apply filter_head_In in Ea; destruct Ea as [Hm Hx].
  apply Z.eqb_eq in Hx.
  eapply replace_pair_Forall; [exact E | exact H1 |].
  rewrite Forall_forall in H1; specialize (H1 m Hm).
  unfold in_bin, merged_wider in *; cbn; lia.
Qed.

Lemma merge_loop_in_bin (self : Guillotine) (fuel : nat) :
  forall i l l',
    Forall (in_bin self) l ->
    merge_loop fuel i l = Ok l' ->
    Forall (in_bin self) l'.
Proof.
  induction fuel as [|fuel IH]; intros i l l' Hl E; cbn [merge_loop] in E.
  - destruct (nth_error l i); injection E as <-; exact Hl.
  - destruct (nth_error l i) as [f|] eqn:En; [|injection E as <-; exact Hl].
    destruct (merge_body f l) as [l1|e] eqn:Eb; [|discriminate].
    cbn [bind] in E.
    apply (IH (S i) l1 l'); [|exact E].
    eapply merge_body_in_bin; [| exact Hl | exact Eb].
    rewrite Forall_forall in Hl; apply Hl.
    eapply nth_error_In; exact En.
Qed.

Lemma merge_loop_length (fuel : nat) :
  forall i l l',
    merge_loop fuel i l = Ok l' -> (List.length l' <= List.length l)%nat.
Proof.
  induction fuel as [|fuel IH]; intros i l l' E; cbn [merge_loop] in E.
  - destruct (nth_error l i); injection E as <-; lia.
  - destruct (nth_error l i) as [f|]; [|injection E as <-; lia].
    destruct (merge_body f l) as [l1|e] eqn:Eb; [|discriminate].
    cbn [bind] in E.
    apply IH in E; apply merge_body_length in Eb; lia.
Qed.

(** One insertion keeps the free rectangles in the bin, and a placed
    item lies in the bin. *)
Lemma insert_in_bin (self self' : Guillotine) (h h' : Heap) (item : ref)
    (heuristic sh : string) (ok : bool) :
  (forall r, well_formed (h r)) ->
  Forall (in_bin self) (freerects self) ->
  insert self h item heuristic sh = Ok (self', h', ok) ->
  (forall r, well_formed (h' r))
  /\ x self' = x self /\ y self' = y self
  /\ Forall (in_bin self') (freerects self')
  /\ (ok = true ->
      exists rect, item_rect (h' item) = Some rect /\ in_bin self' rect).
Proof.
  intros W Hl E.
  destruct (insert_ok_cases self self' h h' item heuristic sh ok E)
    as (h1 & Hh & Hc).
  pose proof (well_formed_upd_rotate h h1 item _ W Hh) as W1.
  destruct Hc as [(-> & -> & ->) | (-> & best & l & Hin & Hfit & El & -> & Hs)].
  - split; [exact W1 |].
    split; [reflexivity |].
    split; [reflexivity |].
    split; [exact Hl | discriminate].
  - cbv zeta in Hs.
    set (it := Item.set_CornerPoint (h1 item)
                 (FreeRectangle.x best, FreeRectangle.y best)) in *.
    assert (Hb : in_bin self best)
      by (rewrite Forall_forall in Hl; apply Hl, Hin).
    assert (Wit : well_formed it) by apply (W1 item).
    assert (Hp : Forall (in_bin self) (l ++ _split_free_rect self it best)).
    { apply Forall_app; split; [eapply list_remove_Forall; eassumption |].
      unfold _split_free_rect.
      destruct (split_along_axis_geometry best it
                  (split_axis (split_heuristic self) it best) Wit Hfit) as [Gs _].
      destruct (split_along_axis_positive best it
                  (split_axis (split_heuristic self) it best)) as [_ Ps].
      rewrite Forall_forall in *; intros s Hs'.
      destruct (Ps s Hs') as [Pw Ph].
      eapply in_bin_inside; eauto; apply (Gs s Hs'). }
    assert (S : x self' = x self /\ y self' = y self
                /\ Forall (in_bin self) (freerects self')).
    { destruct Hs as [(_ & ->) | (_ & Em)]; [auto |].
      pose proof (rectangle_merge_same _ _ Em) as (Sx & Sy & _).
      cbn [x y set_freerects set_items] in Sx, Sy.
      repeat split; [exact Sx | exact Sy |].
      unfold rectangle_merge in Em; cbn [freerects set_freerects] in Em.
      match type of Em with
      | context [merge_loop ?n ?i ?l0] =>
          destruct (merge_loop n i l0) as [l'|e] eqn:El'
      end; [|discriminate].
      injection Em as <-; cbn [freerects set_freerects].
      eapply merge_loop_in_bin; [exact Hp | exact El']. }
    destruct S as (Sx & Sy & Sf).
    split.
    { intros r; unfold upd; destruct (Nat.eqb r item); [exact Wit | apply W1]. }
    split; [exact Sx |].
    split; [exact Sy |].
    split.
    { eapply Forall_impl; [|exact Sf].
      intros r; apply in_bin_same; assumption. }
    intros _; exists (occupied best (h1 item)).
    rewrite upd_same; split; [reflexivity |].
    apply (in_bin_same self); [exact Sx | exact Sy |].
    destruct (W1 item) as [Ww Wh].
    eapply in_bin_inside; [exact Ww | exact Wh | | exact Hb].
    apply occupied_inside; exact Hfit.
Qed.

Lemma init_in_bin (bx b_y : Z) (rot mrg : bool) (sp : string) :
  0 <= bx -> 0 <= b_y ->
  Forall (in_bin (__init__ bx b_y rot mrg sp))
         (freerects (__init__ bx b_y rot mrg sp)).
Proof.
  intros Hx Hy; unfold __init__; cbn [freerects].
  destruct (Z.eqb_spec bx 0); [constructor |].
  destruct (Z.eqb_spec b_y 0); cbn [orb]; [constructor |].
  repeat constructor; unfold in_bin; cbn; lia.
Qed.

Lemma run_free_rects_in_bin (calls : list call) :
  forall (self self' : Guillotine) (h h' : Heap) (oks : list bool),
    (forall r, well_formed (h r)) ->
    Forall (in_bin self) (freerects self) ->
    run self h calls = Ok (self', h', oks) ->
    Forall (in_bin self') (freerects self').
Proof.
  induction calls as [|c calls IH]; intros self self' h h' oks W Hl R;
    cbn [run] in R.
  - injection R as <- <- <-; exact Hl.
  - destruct (insert self h (call_item c) (call_heuristic c) (call_split c))
      as [[[s1 h1] ok]|e] eqn:E; [|discriminate].
    cbn [bind] in R.
    destruct (run s1 h1 calls) as [[[s2 h2] oks2]|e] eqn:R2; [|discriminate].
    cbn [bind] in R; injection R as <- <- <-.
    destruct (insert_in_bin _ _ _ _ _ _ _ _ W Hl E) as (W1 & _ & _ & Hl1 & _).
    eapply IH; eassumption.
Qed.

(** X18. Every free rectangle has a positive width and a positive
    height and lies inside the bin, after any sequence of insert calls
    with well-formed items that did not raise, with or without the merge
    pass: the space the merge pass wrongly frees is still space of the
    bin. *)
Theorem free_rects_stay_in_bin
    (bx b_y : Z) (rot mrg : bool) (sp : string) (h h' : Heap)
    (calls : list call) (self' : Guillotine) (oks : list bool) :
  0 <= bx -> 0 <= b_y ->
  (forall r, well_formed (h r)) ->
  run (__init__ bx b_y rot mrg sp) h calls = Ok (self', h', oks) ->
  Forall (in_bin self') (freerects self').
Proof.
  intros Hx Hy W R.
  eapply run_free_rects_in_bin; [exact W | | exact R].
  apply init_in_bin; assumption.
Qed.

Lemma heap_with_well_formed (sizes : list (Z * Z)) (d : Z * Z) :
  Forall (fun s => 0 < fst s /\ 0 < snd s) (d :: sizes) ->
  forall r, well_formed (heap_with sizes d r).
Proof.
  intros H r; rewrite Forall_forall in H.
  unfold heap_with.
  assert (Hn : In (nth r sizes d) (d :: sizes)).
  { destruct (Nat.lt_ge_cases r (List.length sizes)) as [L | L].
    - right; apply nth_In; exact L.
    - left; symmetry; apply nth_overflow; exact L. }
  specialize (H _ Hn); destruct (nth r sizes d) as [w hh].
  unfold well_formed; cbn in *; exact H.
Qed.

Lemma free_rects_stay_in_bin_witness :
  exists self' h' oks,
    run engine_4x4 (heap_with [(2, 1); (3, 1); (2, 2)] (1, 1))
        (firstn 3 calls_4x4)
    = Ok (self', h', oks)
    /\ freerects self' = [FreeRectangle.mk 2 4 2 0]
    /\ Forall (in_bin self') (freerects self').
Proof.
  do 3 eexists; split; [lazy; reflexivity |].
  split; [reflexivity |].
  eapply (free_rects_stay_in_bin 4 4 true true "default"
            (heap_with [(2, 1); (3, 1); (2, 2)] (1, 1)) _
            (firstn 3 calls_4x4) _ _).
  - lia.
  - lia.
  - apply heap_with_well_formed; repeat constructor.
  - lazy; reflexivity.
Defined.

(** What one call does to the item list, to the other items and to the
    length of the free list. *)
Lemma insert_effects (self self' : Guillotine) (h h' : Heap) (item : ref)
    (heuristic sh : string) (ok : bool) :
  insert self h item heuristic sh = Ok (self', h', ok) ->
  items self' = (items self ++ if ok then [item] else [])%list
  /\ (forall r, r <> item -> h' r = h r)
  /\ (List.length (freerects self')
      <= List.length (freerects self) + if ok then 1 else 0)%nat.
Proof.
  intros E.
  destruct (insert_ok_cases self self' h h' item heuristic sh ok E)
    as (h1 & Hh & Hc).
  assert (E1 : forall r, r <> item -> h1 r = h r).
  { intros r Hr; destruct Hh as [-> | [_ ->]];
      [reflexivity | apply upd_other, Hr]. }
  destruct Hc as [(-> & -> & ->) | (-> & best & l & _ & _ & El & -> & Hs)].
  - rewrite app_nil_r; repeat split; [exact E1 | lia].
  - cbv zeta in Hs.
    split; [|split].
    + destruct Hs as [(_ & ->) | (_ & Em)]; [reflexivity |].
      apply rectangle_merge_same in Em.
      destruct Em as (_ & _ & _ & _ & _ & Ei); exact Ei.
    + intros r Hr; rewrite upd_other by exact Hr; apply E1, Hr.
    + apply list_remove_length in El.
      match type of Hs with
      | context [_split_free_rect ?s ?i ?b] =>
          destruct (split_along_axis_positive b i
                      (split_axis (split_heuristic s) i b)) as [Ls _];
          fold (_split_free_rect s i b) in Ls
      end.
      destruct Hs as [(_ & ->) | (_ & Em)].
      * cbn [freerects set_freerects]; rewrite length_app; lia.
      * unfold rectangle_merge in Em; cbn [freerects set_freerects] in Em.
        match type of Em with
        | context [merge_loop ?n ?i ?l0] =>
            destruct (merge_loop n i l0) as [l'|e] eqn:El'
        end; [|discriminate].
        injection Em as <-; cbn [freerects set_freerects].
        apply merge_loop_length in El'.
        rewrite length_app in El'; lia.
Qed.

Lemma run_placed_in_bin (calls : list call) :
  forall (self self' : Guillotine) (h h' : Heap) (oks : list bool),
    (forall r, well_formed (h r)) ->
    Forall (in_bin self) (freerects self) ->
    NoDup (map call_item calls) ->
    (forall r, In r (map call_item calls) -> ~ In r (items self)) ->
    (forall r, In r (items self) ->
               exists rect, item_rect (h r) = Some rect /\ in_bin self rect) ->
    run self h calls = Ok (self', h', oks) ->
    forall r, In r (items self') ->
              exists rect, item_rect (h' r) = Some rect /\ in_bin self' rect.
Proof.
  induction calls as [|c calls IH];
    intros self self' h h' oks W Hl ND Fresh Hp R; cbn [run] in R.
  - injection R as <- <- <-; exact Hp.
  - destruct (insert self h (call_item c) (call_heuristic c) (call_split c))
      as [[[s1 h1] ok]|e] eqn:E; [|discriminate].
    cbn [bind] in R.
    destruct (run s1 h1 calls) as [[[s2 h2] oks2]|e] eqn:R2; [|discriminate].
    cbn [bind] in R; injection R as <- <- <-.
    cbn [map] in ND, Fresh.
    apply NoDup_cons_iff in ND; destruct ND as [Nc ND].
    destruct (insert_in_bin _ _ _ _ _ _ _ _ W Hl E)
      as (W1 & Sx & Sy & Hl1 & Hitem).
    destruct (insert_effects _ _ _ _ _ _ _ _ E) as (Ei & Eo & _).
    apply (IH s1 s2 h1 h2 oks2 W1 Hl1 ND); [| | exact R2].
    + intros r Hr Hr1; rewrite Ei in Hr1.
      apply in_app_or in Hr1; destruct Hr1 as [Hr1 | Hr1].
      * apply (Fresh r); [right; exact Hr | exact Hr1].
      * destruct ok; [|destruct Hr1].
        destruct Hr1 as [<- | []]; contradiction.
    + intros r Hr; rewrite Ei in Hr.
      apply in_app_or in Hr; destruct Hr as [Hr | Hr].
      * assert (Hne : r <> call_item c).
        { intros ->; apply (Fresh (call_item c)); [left; reflexivity | exact Hr]. }
        rewrite (Eo r Hne).
        destruct (Hp r Hr) as (rect & Er & Hb).
        exists rect; split; [exact Er |].
        apply (in_bin_same self); assumption.
      * destruct ok; [|destruct Hr].
        destruct Hr as [<- | []]; apply Hitem; reflexivity.
Qed.

(** X19. Every placed item lies inside the bin, after any sequence of
    insert calls that did not raise, each call with a well-formed item of
    its own, with or without the merge pass. *)
Theorem placed_items_stay_in_bin
    (bx b_y : Z) (rot mrg : bool) (sp : string) (h h' : Heap)
    (calls : list call) (self' : Guillotine) (oks : list bool) :
  0 <= bx -> 0 <= b_y ->
  (forall r, well_formed (h r)) ->
  NoDup (map call_item calls) ->
  run (__init__ bx b_y rot mrg sp) h calls = Ok (self', h', oks) ->
  forall r, In r (items self') ->
            exists rect, item_rect (h' r) = Some rect /\ in_bin self' rect.
Proof.
  intros Hx Hy W ND R.
  eapply run_placed_in_bin; [exact W | | exact ND | | | exact R].
  - apply init_in_bin; assumption.
  - intros r _ [].
  - intros r [].
Qed.

Lemma placed_items_stay_in_bin_witness :
  exists self' h' oks,
    run engine_4x4 (heap_with [(2, 1); (3, 1); (2, 2); (1, 2)] (1, 1)) calls_4x4
    = Ok (self', h', oks)
    /\ forall r, In r (items self') ->
                 exists rect, item_rect (h' r) = Some rect /\ in_bin self' rect.
Proof.
  do 3 eexists; split; [lazy; reflexivity |].
  eapply (placed_items_stay_in_bin 4 4 true true "default"
            (heap_with [(2, 1); (3, 1); (2, 2); (1, 2)] (1, 1)) _
            calls_4x4 _ _).
  - lia.
  - lia.
  - apply heap_with_well_formed; repeat constructor.
  - repeat constructor; cbn; intuition discriminate.
  - lazy; reflexivity.
Defined.

(** ** The placed items and the size of the free list *)

Lemma run_effects (calls : list call) :
  forall (self self' : Guillotine) (h h' : Heap) (oks : list bool),
    run self h calls = Ok (self', h', oks) ->
    List.length oks = List.length calls
    /\ items self' = (items self ++ accepted calls oks)%list
    /\ (List.length (freerects self')
        <= List.length (freerects self) + List.length (accepted calls oks))%nat.
Proof.
  induction calls as [|c calls IH]; intros self self' h h' oks R; cbn [run] in R.
  - injection R as <- <- <-; cbn; rewrite app_nil_r; repeat split; lia.
  - destruct (insert self h (call_item c) (call_heuristic c) (call_split c))
      as [[[s1 h1] ok]|e] eqn:E; [|discriminate].
    cbn [bind] in R.
    destruct (run s1 h1 calls) as [[[s2 h2] oks2]|e] eqn:R2; [|discriminate].
    cbn [bind] in R; injection R as <- <- <-.
    destruct (insert_effects _ _ _ _ _ _ _ _ E) as (Ei & _ & El).
    destruct (IH _ _ _ _ _ R2) as (Ln & Ei2 & El2).
    cbn [accepted List.length]; rewrite Ei2, Ei, <- app_assoc.
    destruct ok; cbn [app List.length] in *; repeat split; lia.
Qed.

(** Without the merge pass every sequence of insert calls returns. *)
Lemma run_without_merge_returns (calls : list call) :
  forall (self : Guillotine) (h : Heap),
    rMerge self = false ->
    exists self' h' oks, run self h calls = Ok (self', h', oks).
Proof.
  induction calls as [|c calls IH]; intros self h Hm.
  - exists self, h, []; reflexivity.
  - destruct (insert_without_merge self h (call_item c) (call_heuristic c)
                (call_split c) Hm)
      as [(h1 & _ & E) | (h1 & best & l & _ & _ & _ & _ & E)];
      cbn [run]; rewrite E; cbn [bind].
    + destruct (IH self h1 Hm) as (s2 & h2 & oks & R).
      rewrite R; cbn [bind]; do 3 eexists; reflexivity.
    + match goal with
      | |- context [run ?s1 ?h2 calls] =>
          destruct (IH s1 h2 Hm) as (s2 & h3 & oks & R)
      end.
      rewrite R; cbn [bind]; do 3 eexists; reflexivity.
Qed.

(** X20. The placed-item list records the insertions in call order:
    after a sequence of insert calls none of which raised, with or
    without the merge pass, it is the list before the calls followed by
    the items of exactly those calls that were answered success, in the
    order of the calls, and there is one answer per call.  Without the
    merge pass no call raises, so this holds of every sequence. *)
Theorem run_records_accepted_items_in_order
    (self : Guillotine) (h : Heap) (calls : list call) :
  (forall self' h' oks,
      run self h calls = Ok (self', h', oks) ->
      List.length oks = List.length calls
      /\ items self' = (items self ++ accepted calls oks)%list)
  /\ (rMerge self = false ->
      exists self' h' oks,
        run self h calls = Ok (self', h', oks)
        /\ List.length oks = List.length calls
        /\ items self' = (items self ++ accepted calls oks)%list).
Proof.
  split.
  - intros self' h' oks R.
    destruct (run_effects calls _ _ _ _ _ R) as (L & E & _); auto.
  - intros Hm.
    destruct (run_without_merge_returns calls self h Hm) as (s' & h' & oks & R).
    destruct (run_effects calls _ _ _ _ _ R) as (L & E & _).
    exists s', h', oks; auto.
Qed.

Lemma run_records_accepted_items_in_order_witness :
  exists self' h' oks,
    run engine_4x4 (heap_of [(2, 1); (9, 9); (3, 1)])
        [first_fit_call 0%nat; first_fit_call 1%nat; first_fit_call 2%nat]
    = Ok (self', h', oks)
    /\ oks = [true; false; true]
    /\ items self' = [0%nat; 2%nat].
Proof.
  do 3 eexists; split; [lazy; reflexivity |].
  split; [reflexivity |].
  eapply (proj1 (run_records_accepted_items_in_order
                   engine_4x4 (heap_of [(2, 1); (9, 9); (3, 1)])
                   [first_fit_call 0%nat; first_fit_call 1%nat;
                    first_fit_call 2%nat])
                _ _ [true; false; true]).
  lazy; reflexivity.
Defined.

(** X21. The free list grows by at most one rectangle per placed item:
    after a sequence of insert calls, with or without the merge pass, it
    is at most as long as before plus the number of calls answered
    success. *)
Theorem free_list_grows_by_one_per_item
    (self self' : Guillotine) (h h' : Heap) (calls : list call)
    (oks : list bool) :
  run self h calls = Ok (self', h', oks) ->
  (List.length (freerects self')
   <= List.length (freerects self) + List.length (accepted calls oks))%nat.
Proof.
  intros R; destruct (run_effects calls _ _ _ _ _ R) as (_ & _ & L); exact L.
Qed.

Lemma free_list_grows_by_one_per_item_witness :
  exists self' h' oks,
    run engine_4x4 items_4x4 calls_4x4 = Ok (self', h', oks)
    /\ (List.length (freerects self')
        <= List.length (freerects engine_4x4)
           + List.length (accepted calls_4x4 oks))%nat.
Proof.
  do 3 eexists; split; [lazy; reflexivity |].
  eapply (free_list_grows_by_one_per_item engine_4x4 _ items_4x4 _ calls_4x4 _).
  lazy; reflexivity.
Defined.

(** ** Where the merge pass is right *)

Lemma filter_nil {A : Type} (p : A -> bool) (l : list A) :
  (forall a, In a l -> p a = false) -> filter p l = [].
Proof.
  induction l as [|a l IH]; intros H; [reflexivity |].
  cbn [filter]; rewrite (H a) by (left; reflexivity).
  apply IH; intros b Hb; apply H; right; exact Hb.
Qed.

Lemma merge_loop_fixed (l : list FreeRect) :
  (forall f, In f l -> merge_body f l = Ok l) ->
  forall fuel i, merge_loop fuel i l = Ok l.
Proof.
  intros H; induction fuel as [|fuel IH]; intros i; cbn [merge_loop].
  - destruct (nth_error l i); reflexivity.
  - destruct (nth_error l i) as [f|] eqn:E; [|reflexivity].
    rewrite (H f) by (eapply nth_error_In; exact E).
    cbn [bind]; apply IH.
Qed.

(** X22. The merge pass leaves the engine exactly as it is when no two
    different free rectangles have both the same x and the same width,
    and no two have both the same y and the same height: an empty or a
    one-rectangle free list in particular. *)
Theorem rectangle_merge_leaves_unrelated_rectangles (self : Guillotine) :
  (forall a b,
      In a (freerects self) -> In b (freerects self) -> a <> b ->
      ~ (FreeRectangle.width a = FreeRectangle.width b
         /\ FreeRectangle.x a = FreeRectangle.x b)
      /\ ~ (FreeRectangle.height a = FreeRectangle.height b
            /\ FreeRectangle.y a = FreeRectangle.y b)) ->
  rectangle_merge self = Ok self.
Proof.
  intros H; unfold rectangle_merge.
  rewrite merge_loop_fixed; [destruct self; reflexivity |].
  intros f Hf; unfold merge_body, merge_widths, merge_heights.
  assert (Ew : matching_widths f (freerects self) = []).
  { apply filter_nil; intros r Hr.
    destruct (FreeRectangle.eqb r f) eqn:E; [apply andb_false_r |].
    apply FreeRectangle_eqb_neq in E.
    destruct (H r f Hr Hf E) as [N _].
    rewrite andb_true_r; apply andb_false_iff.
    destruct (Z.eqb_spec (FreeRectangle.width r) (FreeRectangle.width f));
      [|left; reflexivity].
    destruct (Z.eqb_spec (FreeRectangle.x r) (FreeRectangle.x f));
      [|right; reflexivity].
    exfalso; apply N; auto. }
  assert (Eh : matching_heights f (freerects self) = []).
  { apply filter_nil; intros r Hr.
    destruct (FreeRectangle.eqb r f) eqn:E; [apply andb_false_r |].
    apply FreeRectangle_eqb_neq in E.
    destruct (H r f Hr Hf E) as [_ N].
    rewrite andb_true_r; apply andb_false_iff.
    destruct (Z.eqb_spec (FreeRectangle.height r) (FreeRectangle.height f));
      [|left; reflexivity].
    destruct (Z.eqb_spec (FreeRectangle.y r) (FreeRectangle.y f));
      [|right; reflexivity].
    exfalso; apply N; auto. }
  rewrite Ew, Eh; reflexivity.
Qed.

Lemma rectangle_merge_leaves_unrelated_rectangles_witness :
  rectangle_merge
    (set_freerects engine_4x4 [FreeRectangle.mk 2 1 2 0; FreeRectangle.mk 4 3 0 1])
  = Ok (set_freerects engine_4x4
          [FreeRectangle.mk 2 1 2 0; FreeRectangle.mk 4 3 0 1]).
Proof.
  apply (rectangle_merge_leaves_unrelated_rectangles
           (set_freerects engine_4x4
              [FreeRectangle.mk 2 1 2 0; FreeRectangle.mk 4 3 0 1])).
  cbn [freerects set_freerects In].
  intros a b [<- | [<- | []]] [<- | [<- | []]] N;
    try (exfalso; apply N; reflexivity);
    cbn; split; intros [E1 E2]; discriminate.
Defined.

Ltac zeqb :=
  repeat match goal with
         | |- context [Z.eqb ?a ?b] =>
             first [ replace (Z.eqb a b) with true
                       by (symmetry; apply Z.eqb_eq; lia)
                   | replace (Z.eqb a b) with false
                       by (symmetry; apply Z.eqb_neq; lia) ]
         end.

Ltac merge_eval :=
  unfold merge_body, merge_widths, merge_heights, matching_widths,
    matching_heights, widths_adjacent, heights_adjacent, replace_pair;
  repeat (progress
            (unfold FreeRectangle.eqb; zeqb; rewrite ?andb_false_r;
             cbn [andb negb filter nonempty bind list_remove app nth_error
                    merge_loop])).

(** X23. When the free list consists of two rectangles of positive
    height of which one has the x and the width of the other and lies
    immediately above it, the merge pass replaces them, in whichever
    order they are listed, by the one rectangle that covers both; its
    area is the sum of their areas. *)
Theorem rectangle_merge_joins_stacked_pair (self : Guillotine) (F M : FreeRect) :
  0 < FreeRectangle.height F ->
  0 < FreeRectangle.height M ->
  stacked F M = true ->
  freerects self = [F; M] \/ freerects self = [M; F] ->
  rectangle_merge self = Ok (set_freerects self [merged_taller F M])
  /\ FreeRectangle.area (merged_taller F M)
     = FreeRectangle.area F + FreeRectangle.area M.
Proof.
  intros HF HM S E.
  unfold stacked in S; rewrite !andb_true_iff, !Z.eqb_eq in S.
  destruct S as [[Sx Sw] Sy].
  split.
  - unfold rectangle_merge.
    destruct E as [-> | ->]; cbn [List.length merge_loop nth_error bind];
      merge_eval; reflexivity.
  - unfold FreeRectangle.area, merged_taller; cbn; nia.
Qed.

Lemma rectangle_merge_joins_stacked_pair_witness :
  rectangle_merge
    (set_freerects engine_4x4 [FreeRectangle.mk 3 1 1 1; FreeRectangle.mk 3 1 1 0])
  = Ok (set_freerects
          (set_freerects engine_4x4
             [FreeRectangle.mk 3 1 1 1; FreeRectangle.mk 3 1 1 0])
          [FreeRectangle.mk 3 2 1 0])
  /\ 3 * 2 = 3 * 1 + 3 * 1.
Proof.
  apply (rectangle_merge_joins_stacked_pair
           (set_freerects engine_4x4
              [FreeRectangle.mk 3 1 1 1; FreeRectangle.mk 3 1 1 0])
           (FreeRectangle.mk 3 1 1 0) (FreeRectangle.mk 3 1 1 1)).
  - reflexivity.
  - reflexivity.
  - reflexivity.
  - right; reflexivity.
Defined.

(** When the free list consists of two rectangles of positive
    width of which one has the y and the height of the other and lies
    immediately to its right, the merge pass replaces them, in whichever
    order they are listed, by the one rectangle that covers both; its
    area is the sum of their areas. *)
Theorem rectangle_merge_joins_side_by_side_pair
    (self : Guillotine) (F M : FreeRect) :
  0 < FreeRectangle.width F ->
  0 < FreeRectangle.width M ->
  side_by_side F M = true ->
  freerects self = [F; M] \/ freerects self = [M; F] ->
  rectangle_merge self = Ok (set_freerects self [merged_wider F M])
  /\ FreeRectangle.area (merged_wider F M)
     = FreeRectangle.area F + FreeRectangle.area M.
Proof.
  intros HF HM S E.
  unfold side_by_side in S; rewrite !andb_true_iff, !Z.eqb_eq in S.
  destruct S as [[Sy Sh] Sx].
  split.
  - unfold rectangle_merge.
    destruct E as [-> | ->]; cbn [List.length merge_loop nth_error bind];
      merge_eval; reflexivity.
  - unfold FreeRectangle.area, merged_wider; cbn; nia.
Qed.

Lemma rectangle_merge_joins_side_by_side_pair_witness :
  rectangle_merge
    (set_freerects engine_4x4 [FreeRectangle.mk 2 2 0 2; FreeRectangle.mk 2 2 2 2])
  = Ok (set_freerects
          (set_freerects engine_4x4
             [FreeRectangle.mk 2 2 0 2; FreeRectangle.mk 2 2 2 2])
          [FreeRectangle.mk 4 2 0 2])
  /\ 4 * 2 = 2 * 2 + 2 * 2.
Proof.
  apply (rectangle_merge_joins_side_by_side_pair
           (set_freerects engine_4x4
              [FreeRectangle.mk 2 2 0 2; FreeRectangle.mk 2 2 2 2])
           (FreeRectangle.mk 2 2 0 2) (FreeRectangle.mk 2 2 2 2)).
  - reflexivity.
  - reflexivity.
  - reflexivity.
  - left; reflexivity.
Defined.

(** ** The invariants without the merge pass, and the statistics *)

Lemma area_conserved_without_merge_witness :
  exists self' h' oks,
    run (__init__ 8 4 true false "SplitLongerAxis")
        (heap_with [(3, 2); (9, 9); (2, 3)] (1, 1))
        [mkCall 0%nat "best_area_fit" "default";
         mkCall 1%nat "first_fit" "default";
         mkCall 2%nat "worst_width_fit" "default";
         mkCall 0%nat "first_fit" "default"]
    = Ok (self', h', oks)
    /\ area_conserved self' h'.
Proof.
  apply (area_conserved_without_merge 8 4 true "SplitLongerAxis"
           (heap_with [(3, 2); (9, 9); (2, 3)] (1, 1))
           [mkCall 0%nat "best_area_fit" "default";
            mkCall 1%nat "first_fit" "default";
            mkCall 2%nat "worst_width_fit" "default";
            mkCall 0%nat "first_fit" "default"]).
  apply heap_with_well_formed; repeat constructor.
Defined.

Lemma no_overlap_without_merge_witness :
  exists self' h' oks,
    run (__init__ 4 4 true false "default")
        (heap_with [(2, 1); (3, 1); (2, 2); (1, 2)] (1, 1)) calls_4x4
    = Ok (self', h', oks)
    /\ no_overlap self' h'
    /\ (forall p f, In p (placed_rects self' h') -> In f (freerects self') ->
                    overlap p f = false).
Proof.
  apply (no_overlap_without_merge 4 4 true "default"
           (heap_with [(2, 1); (3, 1); (2, 2); (1, 2)] (1, 1)) calls_4x4).
  - apply heap_with_well_formed; repeat constructor.
  - repeat constructor; cbn; intuition discriminate.
Defined.

Lemma insert_same_dims (self self' : Guillotine) (h h' : Heap) (item : ref)
    (heuristic sh : string) (ok : bool) :
  insert self h item heuristic sh = Ok (self', h', ok) ->
  x self' = x self /\ y self' = y self.
Proof.
  intros E.
  destruct (insert_ok_cases self self' h h' item heuristic sh ok E)
    as (h1 & _ & [(_ & -> & _) | (_ & best & l & _ & _ & _ & _ & Hs)]);
    [auto |].
  cbv zeta in Hs; destruct Hs as [(_ & ->) | (_ & Em)]; [auto |].
  apply rectangle_merge_same in Em.
  destruct Em as (Sx & Sy & _); auto.
Qed.

Lemma run_same_dims (calls : list call) :
  forall (self self' : Guillotine) (h h' : Heap) (oks : list bool),
    run self h calls = Ok (self', h', oks) ->
    x self' = x self /\ y self' = y self.
Proof.
  induction calls as [|c calls IH]; intros self self' h h' oks R; cbn [run] in R.
  - injection R as <- <- <-; auto.
  - destruct (insert self h (call_item c) (call_heuristic c) (call_split c))
      as [[[s1 h1] ok]|e] eqn:E; [|discriminate].
    cbn [bind] in R.
    destruct (run s1 h1 calls) as [[[s2 h2] oks2]|e] eqn:R2; [|discriminate].
    cbn [bind] in R; injection R as <- <- <-.
    destruct (insert_same_dims _ _ _ _ _ _ _ _ E) as [Ex Ey].
    destruct (IH _ _ _ _ _ R2) as [Ex2 Ey2].
    split; congruence.
Qed.

(** ** The efficiency as a float *)

Lemma digits2_pos_size (p : positive) : digits2_pos p = Pos.size p.
Proof. induction p as [p IH|p IH|]; cbn; [rewrite IH | rewrite IH |]; reflexivity. Qed.

Lemma Zdigits2_log2 (m : Z) : 0 < m -> Zdigits2 m = Z.log2 m + 1.
Proof.
  destruct m as [|p|p]; try lia; intros _.
  unfold Zdigits2; rewrite digits2_pos_size.
  destruct p; cbn [Pos.size Z.log2]; lia.
Qed.

Lemma Zdigits2_nonneg (m : Z) : 0 <= Zdigits2 m.
Proof. destruct m; cbn; lia. Qed.

Lemma Zdigits2_mono (a b : Z) : 0 <= a <= b -> Zdigits2 a <= Zdigits2 b.
Proof.
  intros [Ha Hab].
  destruct (Z.eq_dec a 0) as [->|Na]; [apply Zdigits2_nonneg |].
  rewrite !Zdigits2_log2 by lia.
  apply Z.add_le_mono_r, Z.log2_le_mono; exact Hab.
Qed.

Lemma Zdigits2_succ (a : Z) : 0 <= a -> Zdigits2 (a + 1) <= Zdigits2 a + 1.
Proof.
  intros Ha.
  destruct (Z.eq_dec a 0) as [->|Na]; [vm_compute; discriminate |].
  rewrite !Zdigits2_log2 by lia.
  pose proof (Z.log2_succ_le a) as L; rewrite <- Z.add_1_r in L; lia.
Qed.

Lemma Zdigits2_pow2 (m s : Z) : 0 <= s -> 0 <= m <= 2 ^ s -> Zdigits2 m <= s + 1.
Proof.
  intros Hs [Hm Hle].
  destruct (Z.eq_dec m 0) as [->|Nm]; [cbn; lia |].
  rewrite Zdigits2_log2 by lia.
  pose proof (Z.log2_le_mono m (2 ^ s) Hle) as L.
  rewrite Z.log2_pow2 in L by exact Hs; lia.
Qed.

Lemma fexp_binary64 (e : Z) : fexp 53 1024 e = Z.max (e - 53) (-1074).
Proof. reflexivity. Qed.

Lemma shr_1_bounds (mrs : shr_record) :
  0 <= shr_m mrs -> 0 <= shr_m (shr_1 mrs) <= shr_m mrs.
Proof.
  destruct mrs as [m r s]; cbn [shr_m]; intros Hm.
  destruct m as [|[p|p|]|p]; cbn; lia.
Qed.

Lemma iter_pos_shr_1_bounds (p : positive) :
  forall mrs, 0 <= shr_m mrs -> 0 <= shr_m (iter_pos shr_1 p mrs) <= shr_m mrs.
Proof.
  induction p as [p IH|p IH|]; intros mrs Hm; cbn [iter_pos].
  - pose proof (shr_1_bounds mrs Hm) as H1.
    pose proof (IH (shr_1 mrs) (proj1 H1)) as H2.
    pose proof (IH _ (proj1 H2)) as H3; lia.
  - pose proof (IH mrs Hm) as H2.
    pose proof (IH _ (proj1 H2)) as H3; lia.
  - apply shr_1_bounds; exact Hm.
Qed.

Lemma shr_bounds (mrs : shr_record) (e n : Z) :
  0 <= shr_m mrs ->
  0 <= shr_m (fst (shr mrs e n)) <= shr_m mrs
  /\ (snd (shr mrs e n) = e \/ snd (shr mrs e n) = e + n).
Proof.
  intros Hm; destruct n as [|p|p]; cbn [shr fst snd].
  - split; [lia | left; reflexivity].
  - split; [apply iter_pos_shr_1_bounds; exact Hm | right; reflexivity].
  - split; [lia | left; reflexivity].
Qed.

Lemma shr_record_of_loc_m (m : Z) (l : location) :
  shr_m (shr_record_of_loc m l) = m.
Proof. destruct l as [|[| |]]; reflexivity. Qed.

Lemma shr_fexp_bounds (m e : Z) (l : location) :
  0 <= m ->
  0 <= shr_m (fst (shr_fexp 53 1024 m e l)) <= m
  /\ (snd (shr_fexp 53 1024 m e l) = e
      \/ snd (shr_fexp 53 1024 m e l) = Z.max (Zdigits2 m + e - 53) (-1074)).
Proof.
  intros Hm; unfold shr_fexp; rewrite fexp_binary64.
  destruct (shr_bounds (shr_record_of_loc m l) e
              (Z.max (Zdigits2 m + e - 53) (-1074) - e)) as [B E].
  - rewrite shr_record_of_loc_m; exact Hm.
  - rewrite shr_record_of_loc_m in B; split; [exact B |].
    destruct E as [E|E]; [left; exact E | right; rewrite E; lia].
Qed.

Lemma round_nearest_even_bounds (m : Z) (l : location) :
  m <= round_nearest_even m l <= m + 1.
Proof.
  unfold round_nearest_even; destruct l as [|[| |]]; try lia.
  destruct (Z.even m); lia.
Qed.

(** Rounding a mantissa that is not too long at an exponent that is not
    too large gives no infinity. *)
Lemma binary_round_aux_no_overflow (sx : bool) (mx ex : Z) (lx : location) :
  0 <= mx -> ex <= 971 -> Zdigits2 mx + ex <= 1023 ->
  2 * Zdigits2 mx + ex <= 1076 -> Zdigits2 mx <= 2097 ->
  forall s, binary_round_aux 53 1024 sx mx ex lx <> S754_infinity s.
Proof.
  intros Hm He H1 H2 H3 s; unfold binary_round_aux.
  pose proof (shr_fexp_bounds mx ex lx Hm) as [B1 E1].
  destruct (shr_fexp 53 1024 mx ex lx) as [mrs' e'] eqn:S1; cbn [fst snd] in B1, E1.
  pose proof (round_nearest_even_bounds (shr_m mrs') (loc_of_shr_record mrs')) as R.
  set (mr := round_nearest_even (shr_m mrs') (loc_of_shr_record mrs')) in *.
  assert (Hr : 0 <= mr) by lia.
  pose proof (shr_fexp_bounds mr e' loc_Exact Hr) as [B2 E2].
  destruct (shr_fexp 53 1024 mr e' loc_Exact) as [mrs'' e''] eqn:S2;
    cbn [fst snd] in B2, E2.
  assert (D : Zdigits2 mr <= Zdigits2 mx + 1).
  { etransitivity; [apply (Zdigits2_mono mr (mx + 1)); lia |].
    apply Zdigits2_succ; exact Hm. }
  assert (L : e'' <= 971) by lia.
  destruct (shr_m mrs''); try discriminate.
  change (Z.sub 1024 53) with 971.
  destruct (Z.leb_spec e'' 971); [discriminate | lia].
Qed.

Lemma div_eucl_div_mod (a b : Z) : Z.div_eucl a b = (a / b, a mod b).
Proof.
  unfold Z.div, Z.modulo; destruct (Z.div_eucl a b); reflexivity.
Qed.

(** A quotient of at most one does not overflow. *)
Lemma truediv_fraction (f A : Z) :
  0 <= f <= A -> 0 < A -> exists q, truediv f A = Ok q.
Proof.
  intros [Hf HfA] HA; unfold truediv.
  destruct (Z.eqb_spec A 0) as [->|_]; [lia |].
  destruct A as [|pA|pA]; try lia.
  destruct f as [|pf|pf]; try lia; cbn [int_operand SFdiv];
    [eexists; reflexivity |].
  unfold SFdiv_core_binary.
  rewrite fexp_binary64, div_eucl_div_mod.
  set (d1 := Zdigits2 (Z.pos pf)); set (d2 := Zdigits2 (Z.pos pA)).
  assert (Hd : d1 <= d2) by (apply Zdigits2_mono; lia).
  assert (Hd1 : 0 <= d1) by apply Zdigits2_nonneg.
  set (e' := Z.min (Z.max (d1 + 0 - (d2 + 0) - 53) (-1074)) (0 - 0)).
  assert (He : -1074 <= e' <= -53) by (unfold e'; lia).
  set (s := 0 - 0 - e').
  assert (Hs : 53 <= s <= 1074) by (unfold s; lia).
  set (m' := match s with Z.pos _ => Z.shiftl (Z.pos pf) s | 0 => Z.pos pf
             | Z.neg _ => 0 end).
  assert (Em : m' = Z.pos pf * 2 ^ s).
  { unfold m'; destruct s eqn:Es; try lia.
    rewrite Z.shiftl_mul_pow2 by lia; reflexivity. }
  assert (P : 0 < 2 ^ s) by (apply Z.pow_pos_nonneg; lia).
  assert (Q0 : 0 <= m' / Z.pos pA) by (apply Z.div_pos; nia).
  assert (Q1 : m' / Z.pos pA <= 2 ^ s).
  { apply Z.div_le_upper_bound; [lia | rewrite Em; nia]. }
  pose proof (Zdigits2_pow2 (m' / Z.pos pA) s ltac:(lia) (conj Q0 Q1)) as D.
  pose proof (Zdigits2_nonneg (m' / Z.pos pA)) as D0.
  pose proof (binary_round_aux_no_overflow (xorb false false) (m' / Z.pos pA) e'
                (new_location (Z.pos pA) (m' mod Z.pos pA))
                Q0 ltac:(lia) ltac:(unfold s in *; lia)
                ltac:(unfold s in *; lia) ltac:(lia)) as N.
  destruct (binary_round_aux 53 1024 (xorb false false) (m' / Z.pos pA) e'
              (new_location (Z.pos pA) (m' mod Z.pos pA))) as [z|z| |z m e];
    try (eexists; reflexivity).
  exfalso; apply (N z); reflexivity.
Qed.

(** Nothing of the numerator: the quotient is zero. *)
Lemma truediv_zero (A : Z) : 0 < A -> truediv 0 A = Ok float_zero.
Proof.
  intros HA; unfold truediv.
  destruct (Z.eqb_spec A 0) as [->|_]; [lia |].
  destruct A; try lia; reflexivity.
Qed.

(** A number divided by itself is exactly one. *)
Lemma truediv_same (A : Z) : 0 < A -> truediv A A = Ok float_one.
Proof.
  intros HA; unfold truediv.
  destruct (Z.eqb_spec A 0) as [->|_]; [lia |].
  destruct A as [|p|p]; try lia; cbn [int_operand SFdiv].
  unfold SFdiv_core_binary.
  replace (Zdigits2 (Z.pos p) + 0 - (Zdigits2 (Z.pos p) + 0)) with 0 by lia.
  change (Z.min (fexp 53 1024 0) (0 - 0)) with (-53).
  change (0 - 0 - -53) with 53.
  cbv iota beta.
  rewrite div_eucl_div_mod, Z.shiftl_mul_pow2 by lia.
  rewrite (Z.mul_comm (Z.pos p)), Z.div_mul, Z.mod_mul by lia.
  assert (E : new_location (Z.pos p) 0 = loc_Exact).
  { unfold new_location; destruct (Z.even (Z.pos p)); reflexivity. }
  rewrite E; reflexivity.
Qed.

Lemma sum_nonneg (l : list Z) : Forall (fun z => 0 <= z) l -> 0 <= sum l.
Proof.
  induction 1 as [|a l Ha _ IH]; [unfold sum; cbn; lia |].
  rewrite sum_cons; lia.
Qed.

Lemma free_area_nonneg (self : Guillotine) :
  Forall (in_bin self) (freerects self) -> 0 <= free_area self.
Proof.
  intros F; unfold free_area; apply sum_nonneg.
  rewrite Forall_map; eapply Forall_impl; [| exact F].
  intros r (Hw & Hh & _); unfold FreeRectangle.area; nia.
Qed.

Lemma placed_area_nonneg (self : Guillotine) (h : Heap) :
  (forall r, well_formed (h r)) -> 0 <= placed_area self h.
Proof.
  intros W; unfold placed_area; apply sum_nonneg.
  rewrite Forall_map, Forall_forall; intros r _.
  destruct (W r) as [Hw Hh]; nia.
Qed.

Lemma run_well_formed (calls : list call) :
  forall (self self' : Guillotine) (h h' : Heap) (oks : list bool),
    (forall r, well_formed (h r)) ->
    Forall (in_bin self) (freerects self) ->
    run self h calls = Ok (self', h', oks) ->
    forall r, well_formed (h' r).
Proof.
  induction calls as [|c calls IH]; intros self self' h h' oks W Hl R;
    cbn [run] in R.
  - injection R as <- <- <-; exact W.
  - destruct (insert self h (call_item c) (call_heuristic c) (call_split c))
      as [[[s1 h1] ok]|e] eqn:E; [|discriminate].
    cbn [bind] in R.
    destruct (run s1 h1 calls) as [[[s2 h2] oks2]|e] eqn:R2; [|discriminate].
    cbn [bind] in R; injection R as <- <- <-.
    destruct (insert_in_bin _ _ _ _ _ _ _ _ W Hl E) as (W1 & _ & _ & Hl1 & _).
    eapply IH; eassumption.
Qed.

(** When the division returns, so does [bin_stats]. *)
Lemma bin_stats_of_quotient (self : Guillotine) (q : float) :
  truediv (free_area self) (x self * y self) = Ok q ->
  bin_stats self
  = Ok {| stats_width := x self;
          stats_height := y self;
          stats_area := x self * y self;
          stats_efficiency := float_sub float_one q;
          stats_items := items self |}.
Proof.
  intros E; unfold bin_stats.
  change (sum (map (fun F => FreeRectangle.width F * FreeRectangle.height F)
                   (freerects self)))
    with (free_area self).
  rewrite E; reflexivity.
Qed.

(** X24. For an engine without the merge pass and a bin of positive
    width and height, after any sequence of insert calls with well-formed
    items [bin_stats] returns: the division neither divides by zero nor
    overflows.  It returns the bin's width, height and area and the
    placed items, and the efficiency is the float [1.0 - q], where [q] is
    the float quotient of the bin area less the placed area by the bin
    area; it is exactly [0.0] when nothing is placed and exactly [1.0]
    when the placed items fill the bin. *)
Theorem efficiency_from_placed_area
    (bx b_y : Z) (rot : bool) (sp : string) (h : Heap) (calls : list call) :
  0 < bx -> 0 < b_y ->
  (forall r, well_formed (h r)) ->
  exists self' h' oks st q,
    run (__init__ bx b_y rot false sp) h calls = Ok (self', h', oks)
    /\ bin_stats self' = Ok st
    /\ stats_width st = bx /\ stats_height st = b_y
    /\ stats_area st = bx * b_y
    /\ stats_items st = items self'
    /\ truediv (bx * b_y - placed_area self' h') (bx * b_y) = Ok q
    /\ stats_efficiency st = float_sub float_one q
    /\ (placed_area self' h' = 0 -> stats_efficiency st = float_zero)
    /\ (placed_area self' h' = bx * b_y -> stats_efficiency st = float_one).
Proof.
  intros Hx Hy W.
  destruct (run_without_merge_area calls (__init__ bx b_y rot false sp) h
              eq_refl W (init_area_conserved bx b_y rot false sp h))
    as (self' & h' & oks & R & A).
  destruct (run_same_dims calls _ _ _ _ _ R) as [Ex Ey];
    cbn [x y __init__] in Ex, Ey.
  pose proof (run_free_rects_in_bin calls _ _ _ _ _ W
                (init_in_bin bx b_y rot false sp ltac:(lia) ltac:(lia)) R) as F.
  pose proof (run_well_formed calls _ _ _ _ _ W
                (init_in_bin bx b_y rot false sp ltac:(lia) ltac:(lia)) R) as W'.
  pose proof (free_area_nonneg self' F) as F0.
  pose proof (placed_area_nonneg self' h' W') as P0.
  unfold area_conserved in A; rewrite Ex, Ey in A.
  assert (HA : 0 < bx * b_y) by nia.
  assert (Ef : free_area self' = bx * b_y - placed_area self' h') by lia.
  destruct (truediv_fraction (free_area self') (bx * b_y) ltac:(lia) HA)
    as [q Q].
  pose proof (bin_stats_of_quotient self' q) as B.
  rewrite Ex, Ey in B; specialize (B Q).
  rewrite Ef in Q.
  exists self', h', oks; eexists; exists q.
  split; [exact R |].
  split; [exact B |].
  cbn [stats_width stats_height stats_area stats_items stats_efficiency].
  repeat (split; [reflexivity |]).
  split; [exact Q |].
  split; [reflexivity |].
  split; intros E; rewrite E in Q.
  - rewrite Z.sub_0_r, (truediv_same _ HA) in Q; injection Q as <-; reflexivity.
  - rewrite Z.sub_diag, (truediv_zero _ HA) in Q; injection Q as <-; reflexivity.
Qed.

Lemma efficiency_from_placed_area_witness :
  exists self' h' oks st,
    run (__init__ 3 1 true false "default") (heap_with [(1, 1)] (1, 1))
        [first_fit_call 0%nat]
    = Ok (self', h', oks)
    /\ bin_stats self' = Ok st
    /\ placed_area self' h' = 1
    /\ stats_efficiency st = S754_finite false 6004799503160662 (-54).
Proof.
  destruct (efficiency_from_placed_area 3 1 true "default"
              (heap_with [(1, 1)] (1, 1)) [first_fit_call 0%nat])
    as (self' & h' & oks & st & q & R & B & _ & _ & _ & _ & Q & E & _).
  - lia.
  - lia.
  - apply heap_with_well_formed; repeat constructor.
  - exists self', h', oks, st.
    split; [exact R |].
    split; [exact B |].
    lazy in R; injection R as <- <- <-.
    split; [reflexivity |].
    rewrite E; vm_compute in Q; injection Q as <-; reflexivity.
Defined.

(** * Properties of the bin manager *)

(** ** Sorting the items *)

Section SortReverse.

Variable A : Type.
Variable key : A -> Z.

Lemma insert_by_key_perm (a : A) (l : list A) :
  Permutation (a :: l) (insert_by_key key a l).
Proof.
  induction l as [|b l IH]; cbn [insert_by_key]; [reflexivity |].
  destruct (key a <? key b); [|reflexivity].
  rewrite perm_swap; apply perm_skip, IH.
Qed.

Lemma sort_reverse_perm (l : list A) : Permutation l (sort_reverse key l).
Proof.
  induction l as [|a l IH]; cbn; [constructor |].
  rewrite <- insert_by_key_perm; apply perm_skip, IH.
Qed.

Lemma insert_by_key_sorted (a : A) (l : list A) :
  StronglySorted (fun u v => key v <= key u) l ->
  StronglySorted (fun u v => key v <= key u) (insert_by_key key a l).
Proof.
  induction l as [|b l IH]; intros S; cbn [insert_by_key].
  - repeat constructor.
  - inversion S as [|? ? Sl Hb]; subst.
    destruct (Z.ltb_spec (key a) (key b)) as [L | L].
    + constructor; [apply IH, Sl |].
      rewrite Forall_forall in *; intros v Hv.
      apply (Permutation_in _ (Permutation_sym (insert_by_key_perm a l))) in Hv.
      destruct Hv as [<- | Hv]; [lia | apply Hb, Hv].
    + constructor; [exact S |].
      constructor; [exact L |].
      rewrite Forall_forall in *; intros v Hv.
      specialize (Hb v Hv); lia.
Qed.

Lemma sort_reverse_sorted (l : list A) :
  StronglySorted (fun u v => key v <= key u) (sort_reverse key l).
Proof.
  induction l as [|a l IH]; cbn; [constructor |].
  apply insert_by_key_sorted, IH.
Qed.

Lemma insert_by_key_stable (k : Z) (a : A) (l : list A) :
  StronglySorted (fun u v => key v <= key u) l ->
  filter (fun u => key u =? k) (insert_by_key key a l)
  = filter (fun u => key u =? k) (a :: l).
Proof.
  induction l as [|b l IH]; intros S; cbn [insert_by_key]; [reflexivity |].
  inversion S as [|? ? Sl Hb]; subst.
  destruct (Z.ltb_spec (key a) (key b)) as [L | L]; [|reflexivity].
  cbn [filter] in *; rewrite (IH Sl).
  destruct (Z.eqb_spec (key a) k), (Z.eqb_spec (key b) k);
    try reflexivity; lia.
Qed.

Lemma sort_reverse_stable (k : Z) (l : list A) :
  filter (fun u => key u =? k) (sort_reverse key l)
  = filter (fun u => key u =? k) l.
Proof.
  induction l as [|a l IH]; [reflexivity |].
  cbn [sort_reverse fold_right].
  fold (sort_reverse key l).
  rewrite insert_by_key_stable by apply sort_reverse_sorted.
  cbn [filter]; rewrite IH; reflexivity.
Qed.

End SortReverse.

Section ManagerProperties.

Context {P : BinManager.Package}.

(** X25. [add_items] keeps every item, old and new, and leaves the item
    list in decreasing order of the product of the attributes x and y;
    items with the same product stay in the order in which they were in
    the list and in the call. *)
Theorem add_items_sorts_by_decreasing_area
    (self : BinManager.t) (w : BinManager.World) (new_items : list ref) :
  let area := fun el => BinManager.item_x w el * BinManager.item_y w el in
  let before := (BinManager.items self ++ new_items)%list in
  let after := BinManager.items (BinManager.add_items self w new_items) in
  Permutation before after
  /\ StronglySorted (fun u v => area v <= area u) after
  /\ forall k, filter (fun el => area el =? k) after
               = filter (fun el => area el =? k) before.
Proof.
  cbv zeta; unfold BinManager.add_items; cbn [BinManager.items BinManager.set_items].
  split; [apply sort_reverse_perm |].
  split; [apply sort_reverse_sorted |].
  intros k; apply sort_reverse_stable.
Qed.

(** ** Choosing the algorithm *)

Lemma set_algorthim_effects
    (self : BinManager.t) (family heuristic : string) :
  let self' := fst (BinManager.set_algorthim self family heuristic) in
  let ok := snd (BinManager.set_algorthim self family heuristic) in
  (ok = true
   <-> (family = "shelf" \/ family = "guillotine")
       /\ In heuristic (BinManager.h_choices self))
  /\ BinManager.heuristic self'
     = (if ok then heuristic else BinManager.heuristic self)
  /\ BinManager.algorithm self'
     = (if String.eqb family "shelf" then BinManager.VClass BinManager.Sheet
        else if String.eqb family "guillotine"
             then BinManager.VClass BinManager.Guillotine
             else BinManager.algorithm self)
  /\ BinManager.bins self' = BinManager.bins self
  /\ BinManager.items self' = BinManager.items self
  /\ BinManager.h_choices self' = BinManager.h_choices self.
Proof.
  cbv zeta; unfold BinManager.set_algorthim.
  assert (Hin : existsb (String.eqb heuristic) (BinManager.h_choices self) = true
                <-> In heuristic (BinManager.h_choices self)).
  { rewrite existsb_exists; split.
    - intros (s & Hs & E); apply String.eqb_eq in E; subst s; exact Hs.
    - intros Hs; exists heuristic; split; [exact Hs | apply String.eqb_refl]. }
  destruct (String.eqb_spec family "shelf") as [-> | Ns].
  - cbn [BinManager.h_choices BinManager.set_algorithm].
    destruct (existsb _ _) eqn:E; cbn; repeat split; try tauto;
      try (intros [_ H]; apply Hin in H; congruence).
  - destruct (String.eqb_spec family "guillotine") as [-> | Ng].
    + cbn [BinManager.h_choices BinManager.set_algorithm].
      destruct (existsb _ _) eqn:E; cbn; repeat split; try tauto;
        try (intros [_ H]; apply Hin in H; congruence).
    + cbn; repeat split; try discriminate.
      intros [[E | E] _]; contradiction.
Qed.

(** X26. [set_algorthim] answers [True] exactly when the family is
    [shelf] or [guillotine] and the heuristic is one of the manager's
    choices, and only then is the heuristic changed.  A known family
    switches the algorithm class even when the heuristic is refused; an
    unknown family changes nothing.  Bins and items are never touched. *)
Theorem set_algorthim_contract
    (self : BinManager.t) (family heuristic : string) :
  let self' := fst (BinManager.set_algorthim self family heuristic) in
  let ok := snd (BinManager.set_algorthim self family heuristic) in
  (ok = true
   <-> (family = "shelf" \/ family = "guillotine")
       /\ In heuristic (BinManager.h_choices self))
  /\ BinManager.heuristic self'
     = (if ok then heuristic else BinManager.heuristic self)
  /\ BinManager.algorithm self'
     = (if String.eqb family "shelf" then BinManager.VClass BinManager.Sheet
        else if String.eqb family "guillotine"
             then BinManager.VClass BinManager.Guillotine
             else BinManager.algorithm self)
  /\ BinManager.bins self' = BinManager.bins self
  /\ BinManager.items self' = BinManager.items self
  /\ BinManager.h_choices self' = BinManager.h_choices self.
Proof. apply set_algorthim_effects. Qed.

Lemma open_bin_only_bins (self self' : BinManager.t)
    (w w' : BinManager.World) (item : ref) :
  BinManager.open_bin self w item = BinManager.Done (self', w') ->
  BinManager.set_bins self' (BinManager.bins self) = self.
Proof.
  unfold BinManager.open_bin; intros E.
  destruct (BinManager.new_bin self) as [b|e]; [|discriminate].
  cbn [BinManager.and_then] in E.
  destruct (BinManager.call_insert self b w item) as [[[b1 w1] ok]|e];
    [|discriminate].
  cbn [BinManager.and_then] in E; injection E as <- <-.
  destruct self; reflexivity.
Qed.

Lemma bin_first_fit_only_bins (self self' : BinManager.t)
    (w w' : BinManager.World) (item : ref) :
  BinManager._bin_first_fit self w item = BinManager.Done (self', w') ->
  BinManager.set_bins self' (BinManager.bins self) = self.
Proof.
  unfold BinManager._bin_first_fit; intros E.
  destruct (BinManager.first_fit_loop self (BinManager.bins self) w item)
    as [[[bs w1] res]|e]; [|discriminate].
  cbn [BinManager.and_then] in E.
  destruct res as [[|]|]; [| |discriminate].
  - injection E as <- <-; destruct self; reflexivity.
  - apply open_bin_only_bins in E.
    destruct self, self'; cbn in *; injection E as -> -> -> -> -> -> ->.
    reflexivity.
Qed.

Lemma bin_best_fit_only_bins (self self' : BinManager.t)
    (w w' : BinManager.World) (item : ref) :
  BinManager._bin_best_fit self w item = BinManager.Done (self', w') ->
  BinManager.set_bins self' (BinManager.bins self) = self.
Proof.
  unfold BinManager._bin_best_fit; intros E.
  destruct (BinManager.best_fit_loop self (BinManager.bins self) 0 w item None)
    as [[w1 best]|e]; [|discriminate].
  cbn [BinManager.and_then] in E.
  destruct (BinManager.truthy best); [|eapply open_bin_only_bins; exact E].
  unfold BinManager.insert_at_last in E.
  destruct (rev (BinManager.bins self)) as [|last front]; [discriminate |].
  destruct (BinManager.call_insert self last w1 item) as [[[b1 w2] ok]|e];
    [|discriminate].
  cbn [BinManager.and_then] in E; injection E as <- <-.
  destruct self; reflexivity.
Qed.

Lemma execute_loop_only_bins (todo : list ref) :
  forall (self self' : BinManager.t) (w w' : BinManager.World),
    BinManager.execute_loop self w todo = BinManager.Done (self', w') ->
    BinManager.set_bins self' (BinManager.bins self) = self.
Proof.
  induction todo as [|item todo IH]; intros self self' w w' E;
    cbn [BinManager.execute_loop] in E.
  - injection E as <- <-; destruct self; reflexivity.
  - destruct (BinManager._bin_best_fit self w item) as [[s1 w1]|e] eqn:B;
      [|discriminate].
    cbn [BinManager.and_then] in E.
    apply IH in E; apply bin_best_fit_only_bins in B.
    destruct self, s1, self'; cbn in *.
    injection E as -> -> -> -> -> -> ->.
    injection B as -> -> -> -> -> -> ->.
    reflexivity.
Qed.

Lemma execute_only_bins (self self' : BinManager.t) (w w' : BinManager.World) :
  BinManager.execute self w = BinManager.Done (self', w') ->
  BinManager.set_bins self' (BinManager.bins self) = self.
Proof.
  unfold BinManager.execute; intros E.
  destruct (BinManager.new_bin self) as [b|e]; [|discriminate].
  cbn [BinManager.and_then] in E.
  apply execute_loop_only_bins in E.
  destruct self, self'; cbn in *.
  injection E as -> -> -> -> -> -> ->; reflexivity.
Qed.

Lemma configured_holds_class (self : BinManager.t) :
  BinManager.configured self ->
  (exists c, BinManager.algorithm self = BinManager.VClass c)
  /\ BinManager.h_choices self
     = ["next_fit"; "first_fit"; "best_width_fit"; "best_height_fit";
        "best_area_fit"; "worst_width_fit"]
  /\ In (BinManager.heuristic self) (BinManager.h_choices self).
Proof.
  assert (Keep : forall s s' : BinManager.t,
             BinManager.set_bins s' (BinManager.bins s) = s ->
             BinManager.algorithm s' = BinManager.algorithm s
             /\ BinManager.h_choices s' = BinManager.h_choices s
             /\ BinManager.heuristic s' = BinManager.heuristic s).
  { intros s s' E; rewrite <- E; repeat split. }
  induction 1 as [bw bh | self family h C IH | self w new_items C IH
                  | self self' w w' item C IH E
                  | self self' w w' item C IH E
                  | self self' w w' C IH E].
  - split; [eexists; reflexivity |].
    split; [reflexivity | left; reflexivity].
  - destruct IH as ((c & Ec) & Eh & Hin).
    destruct (set_algorthim_effects self family h)
      as (Hok & Hh & Ha & _ & _ & Hc).
    cbv zeta in *.
    split.
    { rewrite Ha; destruct (String.eqb family "shelf"); [eexists; reflexivity |].
      destruct (String.eqb family "guillotine"); eexists; [reflexivity | exact Ec]. }
    split; [congruence |].
    rewrite Hh, Hc.
    destruct (snd (BinManager.set_algorthim self family h)) eqn:E;
      [apply Hok; reflexivity | exact Hin].
  - exact IH.
  - destruct (Keep _ _ (bin_first_fit_only_bins _ _ _ _ _ E)) as (-> & -> & ->).
    exact IH.
  - destruct (Keep _ _ (bin_best_fit_only_bins _ _ _ _ _ E)) as (-> & -> & ->).
    exact IH.
  - destruct (Keep _ _ (execute_only_bins _ _ _ _ E)) as (-> & -> & ->).
    exact IH.
Qed.

(** However a manager is built and configured through its
    methods, its algorithm is a class and never a string, its heuristic
    is one of the six names of [h_choices], and so never
    [worst_height_fit] or [worst_area_fit]. *)
Theorem configured_manager_invariant (self : BinManager.t) :
  BinManager.configured self ->
  (exists c, BinManager.algorithm self = BinManager.VClass c)
  /\ In (BinManager.heuristic self)
        ["next_fit"; "first_fit"; "best_width_fit"; "best_height_fit";
         "best_area_fit"; "worst_width_fit"]
  /\ BinManager.heuristic self <> "worst_height_fit"
  /\ BinManager.heuristic self <> "worst_area_fit".
Proof.
  intros C; destruct (configured_holds_class self C) as (Hc & Eh & Hin).
  rewrite Eh in Hin.
  split; [exact Hc |].
  split; [exact Hin |].
  cbn [In] in Hin.
  split; intros E; rewrite E in Hin;
    decompose [or] Hin; try discriminate; contradiction.
Qed.

End ManagerProperties.

Section BinSelection.

Context {P : BinManager.Package}.

(** ** [_bin_best_fit] and [execute] *)

Lemma best_fit_loop_class (self : BinManager.t) (c : BinManager.Algorithm)
    (bs : list BinManager.Bin) :
  BinManager.algorithm self = BinManager.VClass c ->
  forall i w item best,
    BinManager.best_fit_loop self bs i w item best = BinManager.Done (w, best).
Proof.
  intros E; induction bs as [|b bs IH]; intros i w item best;
    cbn [BinManager.best_fit_loop]; [reflexivity |].
  rewrite E; cbn [BinManager.eq_str BinManager.and_then]; apply IH.
Qed.

Lemma bin_best_fit_class (self : BinManager.t) (c : BinManager.Algorithm)
    (w : BinManager.World) (item : ref) :
  BinManager.algorithm self = BinManager.VClass c ->
  BinManager._bin_best_fit self w item = BinManager.open_bin self w item.
Proof.
  intros E; unfold BinManager._bin_best_fit.
  rewrite (best_fit_loop_class self c _ E); reflexivity.
Qed.

Lemma open_bin_done (self self' : BinManager.t) (c : BinManager.Algorithm)
    (w w' : BinManager.World) (item : ref) :
  BinManager.algorithm self = BinManager.VClass c ->
  BinManager.open_bin self w item = BinManager.Done (self', w') ->
  exists b' ok,
    BinManager.bin_insert
      (BinManager.construct c (BinManager.bin_width self)
                              (BinManager.bin_height self))
      w item (BinManager.heuristic self)
    = Some (b', w', ok)
    /\ self' = BinManager.set_bins self (BinManager.bins self ++ [b'])%list.
Proof.
  intros E O; unfold BinManager.open_bin, BinManager.new_bin in O.
  rewrite E in O; cbn [BinManager.and_then] in O.
  unfold BinManager.call_insert in O.
  destruct (BinManager.bin_insert _ w item _) as [[[b' w1] ok]|] eqn:Ei;
    [|discriminate].
  cbn [BinManager.and_then] in O; injection O as <- <-.
  exists b', ok; auto.
Qed.


Lemma execute_loop_class (c : BinManager.Algorithm) (todo : list ref) :
  forall (self self' : BinManager.t) (w w' : BinManager.World),
    BinManager.algorithm self = BinManager.VClass c ->
    BinManager.execute_loop self w todo = BinManager.Done (self', w') ->
    exists bs,
      self' = BinManager.set_bins self (BinManager.bins self ++ bs)%list
      /\ Forall2
           (fun item b =>
              exists w1 w2 ok,
                BinManager.bin_insert
                  (BinManager.construct c (BinManager.bin_width self)
                                          (BinManager.bin_height self))
                  w1 item (BinManager.heuristic self)
                = Some (b, w2, ok))
           todo bs.
Proof.
  induction todo as [|item todo IH]; intros self self' w w' Ec E;
    cbn [BinManager.execute_loop] in E.
  - injection E as <- <-; exists []; split; [|constructor].
    rewrite app_nil_r; destruct self; reflexivity.
  - rewrite (bin_best_fit_class self c w item Ec) in E.
    destruct (BinManager.open_bin self w item) as [[s1 w1]|e] eqn:O;
      [|discriminate].
    cbn [BinManager.and_then] in E.
    destruct (open_bin_done self s1 c w w1 item Ec O) as (b' & ok & Ei & ->).
    destruct (IH (BinManager.set_bins self (BinManager.bins self ++ [b'])%list)
                 self' w1 w' Ec E) as (bs & -> & F).
    exists (b' :: bs); split.
    + cbn [BinManager.set_bins BinManager.bins BinManager.bin_width
             BinManager.bin_height BinManager.items BinManager.bin_count
             BinManager.algorithm BinManager.h_choices BinManager.heuristic].
      rewrite <- app_assoc; reflexivity.
    + constructor; [exists w, w1, ok; exact Ei | exact F].
Qed.

(** X28. For a manager built and configured through its methods,
    [execute], when it returns, leaves one bin more than there are items:
    a first bin that received no item, followed, in the order of the item
    list, by one bin per item, each a newly built bin into which that one
    item was inserted, whatever the insert answered.  No two items share
    a bin. *)
Theorem execute_opens_a_bin_per_item
    (self self' : BinManager.t) (w w' : BinManager.World) :
  BinManager.configured self ->
  BinManager.execute self w = BinManager.Done (self', w') ->
  exists c bs,
    let fresh := BinManager.construct c (BinManager.bin_width self)
                                        (BinManager.bin_height self) in
    BinManager.algorithm self = BinManager.VClass c
    /\ BinManager.bins self' = fresh :: bs
    /\ List.length bs = List.length (BinManager.items self)
    /\ BinManager.items self' = BinManager.items self
    /\ Forall2
         (fun item b =>
            exists w1 w2 ok,
              BinManager.bin_insert fresh w1 item (BinManager.heuristic self)
              = Some (b, w2, ok))
         (BinManager.items self) bs.
Proof.
  intros C E.
  destruct (configured_holds_class self C) as ((c & Ec) & _).
  unfold BinManager.execute, BinManager.new_bin in E.
  rewrite Ec in E; cbn [BinManager.and_then] in E.
  apply (execute_loop_class c) in E; [|exact Ec].
  destruct E as (bs & -> & F).
  exists c, bs; cbv zeta.
  split; [exact Ec |].
  split; [reflexivity |].
  split; [symmetry; eapply Forall2_length; exact F |].
  split; [reflexivity | exact F].
Qed.

(** ** [_bin_first_fit] *)

Lemma first_fit_loop_shape (self : BinManager.t) (bs : list BinManager.Bin) :
  forall w item bs' w' res,
    BinManager.first_fit_loop self bs w item = BinManager.Done (bs', w', res) ->
    List.length bs' = List.length bs /\ (res = None <-> bs = []).
Proof.
  induction bs as [|b bs IH]; intros w item bs' w' res E;
    cbn [BinManager.first_fit_loop] in E.
  - injection E as <- <- <-; split; [reflexivity | tauto].
  - destruct (BinManager.call_insert self b w item) as [[[b1 w1] ok]|e];
      [|discriminate].
    cbn [BinManager.and_then] in E.
    destruct ok.
    + injection E as <- <- <-; split; [reflexivity |].
      split; discriminate.
    + destruct (BinManager.first_fit_loop self bs w1 item)
        as [[[bs1 w2] later]|e] eqn:L; [|discriminate].
      cbn [BinManager.and_then] in E; injection E as <- <- <-.
      destruct (IH _ _ _ _ _ L) as [Ll _].
      split; [cbn; rewrite Ll; reflexivity |].
      split; [destruct later; discriminate | discriminate].
Qed.

(** X29. [_bin_first_fit] returns only when the manager has at least
    one bin (with no bin it raises [UnboundLocalError]); when it returns,
    the manager has as many bins as before or one more, and nothing else
    of the manager has changed. *)
Theorem bin_first_fit_outcome
    (self : BinManager.t) (w : BinManager.World) (item : ref) :
  (BinManager.bins self = [] ->
   BinManager._bin_first_fit self w item
   = BinManager.Failed BinManager.UnboundLocalError)
  /\ forall self' w',
       BinManager._bin_first_fit self w item = BinManager.Done (self', w') ->
       BinManager.bins self <> []
       /\ (List.length (BinManager.bins self') = List.length (BinManager.bins self)
           \/ List.length (BinManager.bins self')
              = S (List.length (BinManager.bins self)))
       /\ BinManager.set_bins self' (BinManager.bins self) = self.
Proof.
  split.
  - intros E; unfold BinManager._bin_first_fit; rewrite E; reflexivity.
  - intros self' w' E; unfold BinManager._bin_first_fit in E.
    destruct (BinManager.first_fit_loop self (BinManager.bins self) w item)
      as [[[bs w1] res]|e] eqn:L; [|discriminate].
    cbn [BinManager.and_then] in E.
    destruct (first_fit_loop_shape _ _ _ _ _ _ _ L) as [Ll Hn].
    destruct res as [[|]|]; [| |discriminate].
    + injection E as <- <-.
      split; [intros B; apply Hn in B; discriminate |].
      split; [left; exact Ll | destruct self; reflexivity].
    + split; [intros B; apply Hn in B; discriminate |].
      unfold BinManager.open_bin in E.
      destruct (BinManager.new_bin _) as [b|e]; [|discriminate].
      cbn [BinManager.and_then] in E.
      destruct (BinManager.call_insert _ b w1 item) as [[[b1 w2] ok]|e];
        [|discriminate].
      cbn [BinManager.and_then] in E; injection E as <- <-.
      split; [| destruct self; reflexivity].
      right; cbn [BinManager.bins BinManager.set_bins].
      rewrite length_app, Ll; cbn; lia.
Qed.

Lemma first_fit_loop_app (self : BinManager.t) (l1 l2 : list BinManager.Bin) :
  forall w item l1' w1 res1,
    BinManager.first_fit_loop self l1 w item = BinManager.Done (l1', w1, res1) ->
    res1 <> Some true ->
    BinManager.first_fit_loop self (l1 ++ l2) w item
    = BinManager.and_then (BinManager.first_fit_loop self l2 w1 item)
        (fun r => let '(l2', w2, res2) := r in
                  BinManager.Done
                    ((l1' ++ l2')%list, w2,
                     match res2 with
                     | Some r2 => Some r2
                     | None => res1
                     end)).
Proof.
  induction l1 as [|b l1 IH]; intros w item l1' w1 res1 E N;
    cbn [BinManager.first_fit_loop app] in *.
  - injection E as <- <- <-.
    destruct (BinManager.first_fit_loop self l2 w item) as [[[l2' w2] res2]|e];
      cbn [BinManager.and_then]; [|reflexivity].
    destruct res2; reflexivity.
  - destruct (BinManager.call_insert self b w item) as [[[b1 wb] ok]|e];
      [|discriminate].
    cbn [BinManager.and_then] in *.
    destruct ok; [injection E as <- <- <-; contradiction |].
    destruct (BinManager.first_fit_loop self l1 wb item)
      as [[[l1r w1r] later]|e] eqn:L; [|discriminate].
    cbn [BinManager.and_then] in E; injection E as <- <- <-.
    rewrite (IH wb item l1r w1r later L)
      by (intros ->; apply N; reflexivity).
    destruct (BinManager.first_fit_loop self l2 w1r item) as [[[l2' w2] res2]|e];
      cbn [BinManager.and_then]; [|reflexivity].
    destruct res2, later; reflexivity.
Qed.

(** X30. [_bin_first_fit] stops at the first bin that accepts the item:
    the bins before it have each been asked once and have rejected it,
    the bins after it are not asked and are unchanged, and no bin is
    opened. *)
Theorem bin_first_fit_stops_at_first_accepting_bin
    (self : BinManager.t) (w w1 w2 : BinManager.World) (item : ref)
    (l1 l1' l2 : list BinManager.Bin) (b b' : BinManager.Bin)
    (res1 : option bool) :
  BinManager.bins self = (l1 ++ b :: l2)%list ->
  BinManager.first_fit_loop self l1 w item = BinManager.Done (l1', w1, res1) ->
  res1 <> Some true ->
  BinManager.bin_insert b w1 item (BinManager.heuristic self)
  = Some (b', w2, true) ->
  BinManager._bin_first_fit self w item
  = BinManager.Done (BinManager.set_bins self (l1' ++ b' :: l2)%list, w2).
Proof.
  intros E L N I; unfold BinManager._bin_first_fit.
  rewrite E, (first_fit_loop_app self l1 (b :: l2) w item l1' w1 res1 L N).
  cbn [BinManager.first_fit_loop]; unfold BinManager.call_insert; rewrite I.
  cbn [BinManager.and_then]; destruct self; reflexivity.
Qed.

End BinSelection.


(** ** Concrete runs of the manager over the guillotine engine *)

Lemma configured_manager_invariant_witness :
  let self := fst (BinManager.set_algorthim
                     (BinManager.__init__ (P := guillotine_package) 8 4)
                     "shelf" "worst_area_fit") in
  (exists c, BinManager.algorithm self = BinManager.VClass c)
  /\ In (BinManager.heuristic self)
        ["next_fit"; "first_fit"; "best_width_fit"; "best_height_fit";
         "best_area_fit"; "worst_width_fit"]
  /\ BinManager.heuristic self <> "worst_height_fit"
  /\ BinManager.heuristic self <> "worst_area_fit".
Proof.
  cbv zeta.
  apply (configured_manager_invariant (P := guillotine_package)
           (fst (BinManager.set_algorthim
                   (BinManager.__init__ (P := guillotine_package) 8 4)
                   "shelf" "worst_area_fit"))).
  apply BinManager.configured_set, BinManager.configured_init.
Defined.


Lemma execute_opens_a_bin_per_item_witness :
  let self := BinManager.add_items (P := guillotine_package)
                (fst (BinManager.set_algorthim
                        (BinManager.__init__ (P := guillotine_package) 8 4)
                        "guillotine" "first_fit"))
                (heap_of [(1, 1); (3, 2)]) [0%nat; 1%nat] in
  BinManager.items self = [1%nat; 0%nat]
  /\ exists self' w',
       BinManager.execute (P := guillotine_package) self (heap_of [(1, 1); (3, 2)])
       = BinManager.Done (self', w')
       /\ exists c bs,
            BinManager.algorithm self = BinManager.VClass c
            /\ BinManager.bins self'
               = BinManager.construct (Package := guillotine_package) c 8 4 :: bs
            /\ List.length bs = 2%nat.
Proof.
  cbv zeta; split; [reflexivity |].
  eassert (E : BinManager.execute (P := guillotine_package)
                 (BinManager.add_items (P := guillotine_package)
                    (fst (BinManager.set_algorthim
                            (BinManager.__init__ (P := guillotine_package) 8 4)
                            "guillotine" "first_fit"))
                    (heap_of [(1, 1); (3, 2)]) [0%nat; 1%nat])
                 (heap_of [(1, 1); (3, 2)])
               = BinManager.Done (_, _)) by (lazy; reflexivity).
  do 2 eexists; split; [exact E |].
  destruct (execute_opens_a_bin_per_item (P := guillotine_package) _ _ _ _
              (BinManager.configured_add (P := guillotine_package) _
                 (heap_of [(1, 1); (3, 2)]) [0%nat; 1%nat]
                 (BinManager.configured_set (P := guillotine_package) _
                    "guillotine" "first_fit"
                    (BinManager.configured_init (P := guillotine_package) 8 4)))
              E)
    as (c & bs & Ec & Eb & El & _ & _).
  exists c, bs; auto.
Defined.

Lemma bin_first_fit_stops_at_first_accepting_bin_witness :
  let self := BinManager.set_bins
                (fst (BinManager.set_algorthim
                        (BinManager.__init__ (P := guillotine_package) 8 4)
                        "guillotine" "first_fit"))
                ([set_freerects (__init__ 8 4 true false "default") []]
                 ++ __init__ 8 4 true false "default"
                 :: [__init__ 8 4 true false "default"]) in
  BinManager._bin_first_fit (P := guillotine_package) self
                            (heap_of [(3, 2)]) 0%nat
  = BinManager.Done
      (BinManager.set_bins self
         ([set_freerects (__init__ 8 4 true false "default") []]
          ++ set_freerects
               (set_items (__init__ 8 4 true false "default") [0%nat])
               [FreeRectangle.mk 5 2 3 0; FreeRectangle.mk 8 2 0 2]
          :: [__init__ 8 4 true false "default"]),
       upd (heap_of [(3, 2)]) 0%nat
           (Item.set_CornerPoint (Item.new 3 2) (0, 0))).
Proof.
  cbv zeta.
  apply (bin_first_fit_stops_at_first_accepting_bin (P := guillotine_package)
           _ (heap_of [(3, 2)]) (heap_of [(3, 2)]) _ 0%nat
           [set_freerects (__init__ 8 4 true false "default") []]
           [set_freerects (__init__ 8 4 true false "default") []]
           [__init__ 8 4 true false "default"]
           (__init__ 8 4 true false "default") _ (Some false)).
  - reflexivity.
  - reflexivity.
  - discriminate.
  - reflexivity.
Defined.

Lemma bin_first_fit_outcome_witness :
  let empty := fst (BinManager.set_algorthim
                      (BinManager.__init__ (P := guillotine_package) 8 4)
                      "guillotine" "first_fit") in
  let self := BinManager.set_bins empty [__init__ 8 4 true false "default"] in
  BinManager._bin_first_fit (P := guillotine_package) empty
                            (heap_of [(3, 2)]) 0%nat
  = BinManager.Failed BinManager.UnboundLocalError
  /\ exists self' w',
       BinManager._bin_first_fit (P := guillotine_package) self
                                 (heap_of [(3, 2)]) 0%nat
       = BinManager.Done (self', w')
       /\ BinManager.bins self <> []
       /\ (List.length (BinManager.bins self')
           = List.length (BinManager.bins self)
           \/ List.length (BinManager.bins self')
              = S (List.length (BinManager.bins self)))
       /\ BinManager.set_bins self' (BinManager.bins self) = self.
Proof.
  cbv zeta; split.
  - apply (proj1 (bin_first_fit_outcome (P := guillotine_package)
                    _ (heap_of [(3, 2)]) 0%nat)).
    reflexivity.
  - eexists; eexists; split; [lazy; reflexivity |].
    eapply (proj2 (bin_first_fit_outcome (P := guillotine_package)
                     _ (heap_of [(3, 2)]) 0%nat)).
    reflexivity.
Defined.
